(** * EditNodeModal / NodeModal: the node inspector and the scalar editor

    A shallow embedding of the two dialog components of the graph view,
    the editor ([features/modals/EditNodeModal/index.tsx]) and the node
    inspector next to it, together with the part of the JavaScript
    runtime they call: string trimming, the identifier pattern, the
    conversions between numbers and strings, property access on arrays
    and plain objects, and [JSON.parse] and [JSON.stringify].

    Conventions.
    - A JavaScript string is a [string] holding its UTF-8 bytes.
    - A JavaScript number is an IEEE 754 binary64 value, [spec_float] with
      precision 53 and maximal exponent 1024.
    - A plain object is the list of its own properties in enumeration
      order: array-index keys first, in increasing order, then the other
      keys in creation order.
    - Members inherited from the built-in prototypes ([constructor],
      [toString], ...) and the characters and the [length] of a string
      are not part of the value type: a read gives what the own
      properties decide, [undefined] where there is no such property.
      [JS.own_read] tells where that is the read of the runtime, and a
      property of a walk that depends on it assumes [reads_own].  The one
      inherited member the components can reach by a write, the setter
      [__proto__], is modelled.
    - A lone surrogate is held as the three bytes [ED A0..BF 80..BF].
    - A function that mutates its argument returns the value after the
      mutation; a function that may throw returns an [outcome].
    - The modules are strict-mode code.

    The file has the runtime first, then the two components, then the
    notions of the specification ([PathSpec], [DialogSpec]), and then the
    properties. *)

From Stdlib Require Import ZArith List String Ascii Bool Lia.
From Stdlib Require Import Floats.SpecFloat.
Import ListNotations.

Open Scope string_scope.
Open Scope Z_scope.

(* ================================================================== *)
(** * Strings *)
(* ================================================================== *)

Module Str.

Definition bytes (s : string) : list ascii := list_ascii_of_string s.
Definition of_bytes (l : list ascii) : string := string_of_list_ascii l.

Definition code (c : ascii) : Z := Z.of_nat (nat_of_ascii c).

Definition between (lo hi : Z) (c : ascii) : bool :=
  (lo <=? code c) && (code c <=? hi).

(** [s.length]: the number of UTF-16 code units, one for every byte that
    starts a sequence and one more for a sequence of four bytes. *)
Definition utf16_length (s : string) : Z :=
  fold_right (fun c n =>
                if between 128 191 c then n
                else if 240 <=? code c then n + 2
                else n + 1) 0 (bytes s).

Definition is_digit (c : ascii) : bool := between 48 57 c.
Definition is_lower (c : ascii) : bool := between 97 122 c.
Definition is_upper (c : ascii) : bool := between 65 90 c.

(** One-byte white space and line terminators: TAB, LF, VT, FF, CR, SP. *)
Definition is_space1 (c : ascii) : bool :=
  between 9 13 c || (code c =? 32).

(** Second and third byte of a three-byte white space character whose
    first byte is [b1]: U+1680, U+2000..U+200A, U+2028, U+2029, U+202F,
    U+205F, U+3000 and U+FEFF. *)
Definition is_space3 (b1 b2 b3 : ascii) : bool :=
  let '(x, y, z) := (code b1, code b2, code b3) in
  ((x =? 225) && (y =? 154) && (z =? 128))
  || ((x =? 226) && (y =? 128)
        && (((128 <=? z) && (z <=? 138)) || (z =? 168) || (z =? 169) || (z =? 175)))
  || ((x =? 226) && (y =? 129) && (z =? 159))
  || ((x =? 227) && (y =? 128) && (z =? 128))
  || ((x =? 239) && (y =? 187) && (z =? 191)).

(** U+00A0, the only two-byte white space character. *)
Definition is_space2 (b1 b2 : ascii) : bool :=
  (code b1 =? 194) && (code b2 =? 160).

(** [String.prototype.trimStart] on the bytes. *)
Fixpoint trimStart_bytes (l : list ascii) : list ascii :=
  match l with
  | [] => []
  | a :: r1 =>
      if is_space1 a then trimStart_bytes r1
      else
        match r1 with
        | b :: r2 =>
            if is_space2 a b then trimStart_bytes r2
            else
              match r2 with
              | c :: r3 => if is_space3 a b c then trimStart_bytes r3 else l
              | [] => l
              end
        | [] => l
        end
  end.

(** The same from the right end: the list is the reversed string, so the
    bytes of a character arrive last byte first. *)
Fixpoint trimEnd_rev (l : list ascii) : list ascii :=
  match l with
  | [] => []
  | a :: r1 =>
      if is_space1 a then trimEnd_rev r1
      else
        match r1 with
        | b :: r2 =>
            if is_space2 b a then trimEnd_rev r2
            else
              match r2 with
              | c :: r3 => if is_space3 c b a then trimEnd_rev r3 else l
              | [] => l
              end
        | [] => l
        end
  end.

(** [String.prototype.trim]. *)
Definition trim (s : string) : string :=
  of_bytes (rev (trimEnd_rev (rev (trimStart_bytes (bytes s))))).

(** [Array.prototype.join] on strings. *)
Fixpoint join (sep : string) (l : list string) : string :=
  match l with
  | [] => ""
  | [x] => x
  | x :: r => x ++ sep ++ join sep r
  end.

Fixpoint repeat_string (s : string) (n : nat) : string :=
  match n with
  | O => ""
  | S k => s ++ repeat_string s k
  end.

End Str.

(* ================================================================== *)
(** * The identifier pattern *)
(* ================================================================== *)

(** [/^[a-zA-Z_$][a-zA-Z0-9_$]*$/]: the two character classes and the
    anchored match.  Without the [m] flag [^] and [$] match at the two ends
    of the input only. *)
Module Identifier.
Import Str.

Definition is_start (c : ascii) : bool :=
  is_lower c || is_upper c || (code c =? 95) || (code c =? 36).

Definition is_part (c : ascii) : bool :=
  is_start c || is_digit c.

Definition test (s : string) : bool :=
  match bytes s with
  | [] => false
  | c :: r => is_start c && forallb is_part r
  end.

End Identifier.

(* ================================================================== *)
(** * Numbers *)
(* ================================================================== *)

(** Binary64 values and the two conversions of the language between
    numbers and strings: [StringToNumber] (what [Number(s)] computes on a
    string) and [Number::toString] (what [String(n)], template literals and
    property keys use). *)
Module Num.
Import Str.

Definition number := spec_float.

Definition prec : Z := 53.
Definition emax : Z := 1024.

Definition NaN : number := S754_nan.
Definition zero : number := S754_zero false.
Definition Infinity : number := S754_infinity false.

(** The number nearest to the integer [z] (exact below 2^53). *)
Definition of_Z (z : Z) : number := binary_normalize prec emax z 0 false.

Definition isNaN (n : number) : bool :=
  match n with S754_nan => true | _ => false end.

Definition isFinite (n : number) : bool :=
  match n with S754_zero _ | S754_finite _ _ _ => true | _ => false end.

(** The number nearest (ties to even) to [m * 10^e10], for [0 <= m];
    [neg] is the sign.  A negative power of ten is divided out with
    1100 extra binary digits and a sticky bit, which keeps the quotient
    on the same side of every rounding boundary of binary64. *)
Definition of_decimal (neg : bool) (m e10 : Z) : number :=
  let sgn (z : Z) := if neg then Z.opp z else z in
  if m =? 0 then S754_zero neg
  else if 0 <=? e10 then binary_normalize prec emax (sgn (m * 10 ^ e10)) 0 neg
  else
    let d := 10 ^ (- e10) in
    let q := Z.shiftl m 1100 / d in
    let sticky := if Z.shiftl m 1100 mod d =? 0 then 0 else 1 in
    binary_normalize prec emax (sgn (2 * q + sticky)) (-1101) neg.

(** ** StringToNumber *)

Definition digit_value (c : ascii) : option Z :=
  if is_digit c then Some (code c - 48)
  else if between 97 102 c then Some (code c - 87)
  else if between 65 70 c then Some (code c - 55)
  else None.

(** Leading digits of [l] in base [base], read after the accumulator
    [acc], with their count and the rest of the input. *)
Fixpoint take_digits (base : Z) (l : list ascii) (acc : Z) (count : Z)
  : Z * Z * list ascii :=
  match l with
  | c :: r =>
      match digit_value c with
      | Some d => if d <? base then take_digits base r (acc * base + d) (count + 1)
                  else (acc, count, l)
      | None => (acc, count, l)
      end
  | [] => (acc, count, l)
  end.

(** A whole-input literal of digits in [base], at least one. *)
Definition radix_literal (base : Z) (l : list ascii) : number :=
  match take_digits base l 0 0 with
  | (v, count, []) => if 0 <? count then of_Z v else NaN
  | _ => NaN
  end.

(** The optional exponent part: [e] or [E], an optional sign, digits. *)
Definition exponent_part (l : list ascii) : option Z :=
  match l with
  | [] => Some 0
  | c :: r =>
      if (code c =? 101) || (code c =? 69) then
        let '(neg, r') :=
          match r with
          | s :: r' => if code s =? 45 then (true, r')
                       else if code s =? 43 then (false, r') else (false, r)
          | [] => (false, r)
          end in
        match take_digits 10 r' 0 0 with
        | (v, count, []) => if 0 <? count then Some (if neg then - v else v) else None
        | _ => None
        end
      else None
  end.

(** StrUnsignedDecimalLiteral: [Infinity], or digits with an optional
    fraction and exponent, at least one digit before or after the dot. *)
Definition unsigned_decimal (neg : bool) (l : list ascii) : number :=
  if list_eq_dec ascii_dec l (bytes "Infinity") then S754_infinity neg
  else
    let '(ip, icount, r1) := take_digits 10 l 0 0 in
    let '(m, fcount, r2) :=
      match r1 with
      | c :: r => if code c =? 46 then take_digits 10 r ip 0 else (ip, 0, r1)
      | [] => (ip, 0, r1)
      end in
    if (icount + fcount =? 0) then NaN
    else
      match exponent_part r2 with
      | Some e => of_decimal neg m (e - fcount)
      | None => NaN
      end.

Definition StringToNumber (s : string) : number :=
  match bytes (trim s) with
  | [] => zero
  | c :: r =>
      let prefixed :=
        match r with
        | x :: r' =>
            if code c =? 48 then
              if (code x =? 120) || (code x =? 88) then Some (radix_literal 16 r')
              else if (code x =? 111) || (code x =? 79) then Some (radix_literal 8 r')
              else if (code x =? 98) || (code x =? 66) then Some (radix_literal 2 r')
              else None
            else None
        | [] => None
        end in
      match prefixed with
      | Some n => n
      | None =>
          if code c =? 45 then unsigned_decimal true r
          else if code c =? 43 then unsigned_decimal false r
          else unsigned_decimal false (c :: r)
      end
  end.

(** ** Number::toString *)

(** Decimal digits of a non-negative integer, most significant first. *)
Fixpoint digits_fuel (fuel : nat) (z : Z) (acc : list ascii) : list ascii :=
  match fuel with
  | O => acc
  | S k =>
      let acc' := ascii_of_nat (Z.to_nat (48 + z mod 10)) :: acc in
      if z <? 10 then acc' else digits_fuel k (z / 10) acc'
  end.

Definition digits_of_Z (z : Z) : list ascii :=
  digits_fuel (S (Z.to_nat (Z.log2 z))) z [].

(** The positive rational [num / den] of a finite non-zero number. *)
Definition ratio (m : positive) (e : Z) : Z * Z :=
  if 0 <=? e then (Z.pos m * 2 ^ e, 1) else (Z.pos m, 2 ^ (- e)).

(** The integer [n] with [10^(n-1) <= num/den < 10^n]. *)
Definition decimal_exponent (num den : Z) : Z :=
  let guess :=
    if den <=? num then Z.of_nat (List.length (digits_of_Z (num / den)))
    else 1 - Z.of_nat (List.length (digits_of_Z (den / num))) in
  (* the guess is exact or one too small *)
  if den * 10 ^ Z.max guess 0 <=? num * 10 ^ Z.max (- guess) 0
  then guess + 1 else guess.

(** The [k]-digit decimals next to [num/den], as pairs [(s, n)] standing
    for [s * 10^(n-k)], that convert back to [x]; the nearer one first,
    the even one on a tie. *)
Definition candidates (x : number) (num den n k : Z) : list (Z * Z) :=
  let sc := k - n in
  let num' := num * 10 ^ Z.max sc 0 in
  let den' := den * 10 ^ Z.max (- sc) 0 in
  let lo := num' / den' in
  let r := num' mod den' in
  let hi := lo + 1 in
  let norm (s : Z) := if s =? 10 ^ k then (10 ^ (k - 1), n + 1) else (s, n) in
  let back (c : Z * Z) :=
    match of_decimal false (fst c) (snd c - k), x with
    | S754_finite _ m1 e1, S754_finite _ m2 e2 => Pos.eqb m1 m2 && (e1 =? e2)
    | _, _ => false
    end in
  let ordered :=
    if 2 * r <? den' then [norm lo; norm hi]
    else if den' <? 2 * r then [norm hi; norm lo]
    else if Z.even lo then [norm lo; norm hi] else [norm hi; norm lo] in
  filter back ordered.

(** The least [k] with a candidate, and that candidate. *)
Fixpoint shortest (fuel : nat) (x : number) (num den n k : Z) : Z * Z * Z :=
  match fuel with
  | O => (k, num / den, n)
  | S f =>
      match candidates x num den n k with
      | (s, n') :: _ => (k, s, n')
      | [] => shortest f x num den n (k + 1)
      end
  end.

Definition zeros (n : Z) : string := repeat_string "0" (Z.to_nat n).

(** The layout of the digits [s] ([k] of them) with decimal exponent [n]. *)
Definition layout (k s n : Z) : string :=
  let ds := of_bytes (digits_of_Z s) in
  if (k <=? n) && (n <=? 21) then ds ++ zeros (n - k)
  else if (0 <? n) && (n <=? 21) then
    substring 0 (Z.to_nat n) ds ++ "." ++ substring (Z.to_nat n) (Z.to_nat (k - n)) ds
  else if (-6 <? n) && (n <=? 0) then "0." ++ zeros (- n) ++ ds
  else
    let e := n - 1 in
    let es := (if e <? 0 then "-" else "+") ++ of_bytes (digits_of_Z (Z.abs e)) in
    if k =? 1 then ds ++ "e" ++ es
    else substring 0 1 ds ++ "." ++ substring 1 (Z.to_nat (k - 1)) ds ++ "e" ++ es.

Definition NumberToString (x : number) : string :=
  match x with
  | S754_nan => "NaN"
  | S754_zero _ => "0"
  | S754_infinity s => if s then "-Infinity" else "Infinity"
  | S754_finite sg m e =>
      let '(num, den) := ratio m e in
      let n := decimal_exponent num den in
      let '(k, s, n') := shortest 17 (S754_finite false m e) num den n 1 in
      (if sg then "-" else "") ++ layout k s n'
  end.

(** ** Array indices *)

(** An array index is an integer from 0 to 2^32 - 2. *)
Definition max_index : Z := 4294967294.

(** The array index a string names: the canonical decimal form, without
    sign or leading zero, of an integer from 0 to 2^32 - 2. *)
Definition index_of_string (s : string) : option Z :=
  match bytes s with
  | [] => None
  | c :: r =>
      if forallb is_digit (c :: r) && (negb (code c =? 48) || (List.length r =? 0)%nat)
         && (List.length (c :: r) <=? 10)%nat
      then
        let '(v, _, _) := take_digits 10 (c :: r) 0 0 in
        if v <=? max_index then Some v else None
      else None
  end.

End Num.

(* ================================================================== *)
(** * Values *)
(* ================================================================== *)

(** The values the two components handle: the primitives, arrays and
    plain objects.  An array is the list of its elements, a hole being
    [VUndef] (a read of a hole gives [undefined] and [JSON.stringify]
    prints both as [null]).  An object is the list of its own properties
    in enumeration order. *)
#[warnings="-register-all"]
Inductive value : Type :=
| VUndef
| VNull
| VBool (b : bool)
| VNum (n : Num.number)
| VStr (s : string)
| VArr (elements : list value)
| VObj (props : list (string * value)).

(** Exceptions of the runtime; the text of their [message] is chosen by
    the engine. *)
Inductive exn : Type := TypeError | SyntaxError.

Inductive outcome (A : Type) : Type :=
| Ok (a : A)
| Throw (e : exn).
Arguments Ok {A} a.
Arguments Throw {A} e.

Definition bind {A B : Type} (m : outcome A) (f : A -> outcome B) : outcome B :=
  match m with
  | Ok a => f a
  | Throw e => Throw e
  end.

Notation "x <- m ;; k" := (bind m (fun x => k))
  (at level 61, m at next level, right associativity).

Module JS.
Import Str Num.

Definition Array_isArray (v : value) : bool :=
  match v with VArr _ => true | _ => false end.

(** [String(v)].  An array joins its elements with commas, [null] and
    [undefined] elements giving the empty string. *)
Fixpoint ToString (v : value) : string :=
  match v with
  | VUndef => "undefined"
  | VNull => "null"
  | VBool b => if b then "true" else "false"
  | VNum n => NumberToString n
  | VStr s => s
  | VArr l =>
      join "," (map (fun e => match e with
                              | VUndef | VNull => ""
                              | _ => ToString e
                              end) l)
  | VObj _ => "[object Object]"
  end.

(** [Array.prototype.join]. *)
Definition Array_join (sep : string) (l : list value) : string :=
  join sep (map (fun e => match e with
                          | VUndef | VNull => ""
                          | _ => ToString e
                          end) l).

(** [Number(v)]. *)
Definition ToNumber (v : value) : number :=
  match v with
  | VUndef => NaN
  | VNull => zero
  | VBool b => if b then of_Z 1 else zero
  | VNum n => n
  | VStr s => StringToNumber s
  | VArr _ | VObj _ => StringToNumber (ToString v)
  end.

(** Truthiness of an optional string ([undefined], [null] and the empty
    string are falsy). *)
Definition truthy (k : option string) : bool :=
  match k with
  | Some s => negb (s =? "")%string
  | None => false
  end.

(** The property key an optional string gives. *)
Definition key_string (k : option string) : string :=
  match k with
  | Some s => s
  | None => "undefined"
  end.

(** [a === b] between a string and a path segment or [undefined]. *)
Definition strict_eq_string (a : string) (b : value) : bool :=
  match b with
  | VStr s => (a =? s)%string
  | _ => false
  end.

(** ** Own properties of a plain object *)

Definition props := list (string * value).

Definition keys (ps : props) : list string := map fst ps.

Definition has_own (ps : props) (k : string) : bool :=
  existsb (fun p => (fst p =? k)%string) ps.

Fixpoint obj_get (ps : props) (k : string) : value :=
  match ps with
  | [] => VUndef
  | (k', v) :: r => if (k' =? k)%string then v else obj_get r k
  end.

(** Write to an existing property: the value changes, the place in the
    enumeration order does not. *)
Fixpoint obj_replace (ps : props) (k : string) (x : value) : props :=
  match ps with
  | [] => []
  | (k', v) :: r =>
      if (k' =? k)%string then (k', x) :: r else (k', v) :: obj_replace r k x
  end.

(** A new array-index key goes among the array-index keys, in increasing
    order, before every other key. *)
Fixpoint obj_insert_index (ps : props) (i : Z) (k : string) (x : value) : props :=
  match ps with
  | [] => [(k, x)]
  | (k', v) :: r =>
      match index_of_string k' with
      | Some j => if j <? i then (k', v) :: obj_insert_index r i k x
                  else (k, x) :: ps
      | None => (k, x) :: ps
      end
  end.

(** CreateDataProperty: what [JSON.parse] and an assignment that finds no
    setter do. *)
Definition obj_define (ps : props) (k : string) (x : value) : props :=
  if has_own ps k then obj_replace ps k x
  else
    match index_of_string k with
    | Some i => obj_insert_index ps i k x
    | None => (ps ++ [(k, x)])%list
    end.

(** [o[k] = x] on a plain object; the flag tells whether
    [Object.prototype] is still its prototype.  While it is, the key
    [__proto__], when it is no own property, reaches the inherited setter:
    no property is created, and [null] (or an object) becomes the
    prototype, so that the setter is out of reach afterwards. *)
Definition assign (o : props * bool) (k : string) (x : value) : props * bool :=
  let '(ps, inherits) := o in
  if inherits && negb (has_own ps k) && (k =? "__proto__")%string then
    (ps, match x with VNull | VArr _ | VObj _ => false | _ => true end)
  else (obj_define ps k x, inherits).

(** The same on an object that came out of [JSON.parse]. *)
Definition obj_set (ps : props) (k : string) (x : value) : props :=
  fst (assign (ps, true) k x).

(** [delete o[k]]. *)
Definition obj_delete (ps : props) (k : string) : props :=
  filter (fun p => negb (fst p =? k)%string) ps.

(** ** Elements of an array *)

Fixpoint list_store (l : list value) (i : nat) (x : value) : list value :=
  match l, i with
  | [], _ => []
  | _ :: r, O => x :: r
  | a :: r, S j => a :: list_store r j x
  end.

(** [a[i] = x]: inside the bounds the element is replaced; beyond them
    the array grows to length [i + 1] and the positions in between are
    holes. *)
Definition array_store (l : list value) (i : Z) (x : value) : list value :=
  if i <? Z.of_nat (List.length l) then list_store l (Z.to_nat i) x
  else (l ++ repeat VUndef (Z.to_nat i - List.length l) ++ [x])%list.

(** ** Property access on any value

    The arrays of this development are only reached with keys of the
    form [String(Number(segment))], never [length]. *)

(** The names every value but [null] and [undefined] inherits from
    [Object.prototype], and those a number inherits from
    [Number.prototype] besides. *)
Definition Object_prototype : list string :=
  ["constructor"; "__defineGetter__"; "__defineSetter__"; "hasOwnProperty";
   "__lookupGetter__"; "__lookupSetter__"; "isPrototypeOf"; "propertyIsEnumerable";
   "toString"; "valueOf"; "__proto__"; "toLocaleString"].

Definition Number_prototype : list string :=
  ["toExponential"; "toFixed"; "toPrecision"].

Definition named (k : string) (names : list string) : bool :=
  existsb (String.eqb k) names.

(** [v[k]] as the own properties of [v] decide it: the element or the
    member of that name, [undefined] where there is none.  The read
    itself goes on along the prototype chain, and a string has its
    characters and its [length]: there it gives a built-in function or
    object, a character or a number, none of which this function
    returns.  [own_read] tells where the own properties do decide. *)
Definition get_prop (v : value) (k : string) : outcome value :=
  match v with
  | VUndef | VNull => Throw TypeError
  | VArr l =>
      Ok (match index_of_string k with
          | Some i => nth (Z.to_nat i) l VUndef
          | None => VUndef
          end)
  | VObj ps => Ok (obj_get ps k)
  | VBool _ | VNum _ | VStr _ => Ok VUndef
  end.

Definition set_prop (v : value) (k : string) (x : value) : outcome value :=
  match v with
  | VArr l =>
      Ok (match index_of_string k with
          | Some i => VArr (array_store l i x)
          | None => VArr l  (* a named property, outside the elements *)
          end)
  | VObj ps => Ok (VObj (obj_set ps k x))
  | VBool _ | VNum _ | VStr _ =>
      (* strict mode: no property of a primitive can be written; the
         setter of [__proto__] is called and returns at once *)
      if (k =? "__proto__")%string then Ok v else Throw TypeError
  | VUndef | VNull => Throw TypeError
  end.

(** [delete v[k]] in strict mode, never called on an array here: a
    character and the [length] of a string cannot be deleted. *)
Definition delete_prop (v : value) (k : string) : outcome value :=
  match v with
  | VUndef | VNull => Throw TypeError
  | VObj ps => Ok (VObj (obj_delete ps k))
  | VStr s =>
      if (k =? "length")%string
         || match index_of_string k with
            | Some i => i <? utf16_length s
            | None => false
            end
      then Throw TypeError else Ok v
  | _ => Ok v
  end.

(** Whether the own properties decide the read [v[k]] of a walk (on an
    array [k] is the string of a number, which names an element or
    nothing): [k] is an own member of the object, or no name that [v]
    inherits.  Every read on a string counts as undecided. *)
Definition own_read (v : value) (k : string) : bool :=
  match v with
  | VUndef | VNull | VArr _ => true
  | VObj ps => has_own ps k || negb (named k Object_prototype)
  | VBool _ => negb (named k Object_prototype)
  | VNum _ => negb (named k (Object_prototype ++ Number_prototype))
  | VStr _ => false
  end.

End JS.

(* ================================================================== *)
(** * JSON text *)
(* ================================================================== *)

Module JSON.
Import Str Num JS.

(** The double quote and the backslash. *)
Definition dquote : string := String "034"%char "".
Definition backslash : string := String "092"%char "".
Definition newline : string := String "010"%char "".

(** ** [JSON.stringify(v, null, 2)] *)

Definition hex_digit (z : Z) : ascii :=
  ascii_of_nat (Z.to_nat (if z <? 10 then 48 + z else 87 + z)).

(** QuoteJSONString on one byte: the quote, the backslash and the control
    characters are escaped, every other byte stands for itself. *)
Definition quote_byte (c : ascii) : string :=
  let z := code c in
  if z =? 34 then backslash ++ dquote
  else if z =? 92 then backslash ++ backslash
  else if z =? 8 then backslash ++ "b"
  else if z =? 9 then backslash ++ "t"
  else if z =? 10 then backslash ++ "n"
  else if z =? 12 then backslash ++ "f"
  else if z =? 13 then backslash ++ "r"
  else if z <? 32 then
    backslash ++ "u00" ++ String (hex_digit (z / 16)) (String (hex_digit (z mod 16)) "")
  else String c "".

(** The UTF-8 bytes of a code point (a lone surrogate in the same
    three-byte form). *)
Definition utf8 (cp : Z) : list ascii :=
  let b (z : Z) := ascii_of_nat (Z.to_nat z) in
  if cp <? 128 then [b cp]
  else if cp <? 2048 then [b (192 + cp / 64); b (128 + cp mod 64)]
  else if cp <? 65536 then
    [b (224 + cp / 4096); b (128 + (cp / 64) mod 64); b (128 + cp mod 64)]
  else
    [b (240 + cp / 262144); b (128 + (cp / 4096) mod 64);
     b (128 + (cp / 64) mod 64); b (128 + cp mod 64)].

(** The code unit of a lone surrogate, held as the three bytes
    [ED A0..BF 80..BF]. *)
Definition surrogate (a b c : ascii) : option Z :=
  if (code a =? 237) && between 160 191 b && between 128 191 c
  then Some (55296 + (code b - 160) * 64 + (code c - 128))
  else None.

(** A lone surrogate is escaped, in lower-case hexadecimal digits; a
    high surrogate followed by a low one is the character of the pair. *)
Definition quote_surrogate (u : Z) : string :=
  backslash ++ "u"
    ++ String (hex_digit (u / 4096))
         (String (hex_digit ((u / 256) mod 16))
            (String (hex_digit ((u / 16) mod 16))
               (String (hex_digit (u mod 16)) ""))).

Fixpoint quote_bytes (l : list ascii) : string :=
  match l with
  | [] => ""
  | a :: r =>
      match r with
      | b :: c :: r3 =>
          match surrogate a b c with
          | Some hi =>
              match r3 with
              | d :: e :: f :: r6 =>
                  match surrogate d e f with
                  | Some lo =>
                      if (hi <? 56320) && (56320 <=? lo)
                      then of_bytes (utf8 (65536 + (hi - 55296) * 1024 + (lo - 56320)))
                             ++ quote_bytes r6
                      else quote_surrogate hi ++ quote_bytes r3
                  | None => quote_surrogate hi ++ quote_bytes r3
                  end
              | _ => quote_surrogate hi ++ quote_bytes r3
              end
          | None => quote_byte a ++ quote_bytes r
          end
      | _ => quote_byte a ++ quote_bytes r
      end
  end.

(** QuoteJSONString. *)
Definition quote (s : string) : string :=
  dquote ++ quote_bytes (bytes s) ++ dquote.

Definition is_undefined (v : value) : bool :=
  match v with VUndef => true | _ => false end.

(** The brackets around the members, one member a line, [inner] being
    the indentation of the members and [indent] that of the brackets. *)
Definition wrap (opening closing indent inner : string) (members : list string) : string :=
  match members with
  | [] => opening ++ closing
  | _ =>
      opening ++ newline ++ inner
        ++ join ("," ++ newline ++ inner) members
        ++ newline ++ indent ++ closing
  end.

(** SerializeJSONProperty at indentation [indent].  A number that is not
    finite and an [undefined] element of an array print as [null]; a
    property whose value is [undefined] is left out. *)
Fixpoint serialize (indent : string) (v : value) {struct v} : string :=
  match v with
  | VUndef | VNull => "null"
  | VBool b => if b then "true" else "false"
  | VNum n => if isFinite n then NumberToString n else "null"
  | VStr s => quote s
  | VArr l =>
      let inner := indent ++ "  " in
      wrap "[" "]" indent inner (map (serialize inner) l)
  | VObj ps =>
      let inner := indent ++ "  " in
      wrap "{" "}" indent inner
        (flat_map (fun p => if is_undefined (snd p) then []
                            else [quote (fst p) ++ ": " ++ serialize inner (snd p)]) ps)
  end.

(** [JSON.stringify(v, null, 2)] for [v] other than [undefined] (for
    which the result is [undefined] and no text). *)
Definition stringify (v : value) : string := serialize "" v.

(** ** [JSON.parse] *)

Definition is_ws (c : ascii) : bool :=
  (code c =? 32) || (code c =? 9) || (code c =? 10) || (code c =? 13).

Fixpoint skip_ws (l : list ascii) : list ascii :=
  match l with
  | c :: r => if is_ws c then skip_ws r else l
  | [] => []
  end.

(** [l] without the prefix [p], when it starts with it. *)
Fixpoint strip_prefix (p l : list ascii) : option (list ascii) :=
  match p, l with
  | [], _ => Some l
  | a :: p', b :: l' => if ascii_dec a b then strip_prefix p' l' else None
  | _ :: _, [] => None
  end.

(** Four hexadecimal digits. *)
Definition hex4 (l : list ascii) : option (Z * list ascii) :=
  match l with
  | a :: b :: c :: d :: r =>
      match digit_value a, digit_value b, digit_value c, digit_value d with
      | Some x, Some y, Some z, Some w => Some (((x * 16 + y) * 16 + z) * 16 + w, r)
      | _, _, _, _ => None
      end
  | _ => None
  end.

(** The characters of a string after its opening quote, up to the closing
    one; [acc] holds the bytes read so far, last first. *)
Fixpoint parse_chars (fuel : nat) (l : list ascii) (acc : list ascii)
  : option (string * list ascii) :=
  match fuel with
  | O => None
  | S f =>
      match l with
      | [] => None
      | c :: r =>
          if code c =? 34 then Some (of_bytes (rev acc), r)
          else if code c <? 32 then None
          else if code c =? 92 then
            match r with
            | e :: r' =>
                let simple (z : Z) := parse_chars f r' (ascii_of_nat (Z.to_nat z) :: acc) in
                if code e =? 34 then simple 34
                else if code e =? 92 then simple 92
                else if code e =? 47 then simple 47
                else if code e =? 98 then simple 8
                else if code e =? 102 then simple 12
                else if code e =? 110 then simple 10
                else if code e =? 114 then simple 13
                else if code e =? 116 then simple 9
                else if code e =? 117 then
                  match hex4 r' with
                  | Some (hi, r2) =>
                      let pair :=
                        if (55296 <=? hi) && (hi <=? 56319) then
                          match r2 with
                          | b1 :: u :: r3 =>
                              if (code b1 =? 92) && (code u =? 117) then
                                match hex4 r3 with
                                | Some (lo, r4) =>
                                    if (56320 <=? lo) && (lo <=? 57343)
                                    then Some (65536 + (hi - 55296) * 1024 + (lo - 56320), r4)
                                    else None
                                | None => None
                                end
                              else None
                          | _ => None
                          end
                        else None in
                      match pair with
                      | Some (cp, r4) => parse_chars f r4 (rev (utf8 cp) ++ acc)%list
                      | None => parse_chars f r2 (rev (utf8 hi) ++ acc)%list
                      end
                  | None => None
                  end
                else None
            | [] => None
            end
          else parse_chars f r (c :: acc)
      end
  end.

(** A number: an optional minus, an integer part without leading zero, an
    optional fraction with at least one digit, an optional exponent. *)
Definition parse_number (l : list ascii) : option (value * list ascii) :=
  let '(neg, l1) :=
    match l with
    | c :: r => if code c =? 45 then (true, r) else (false, l)
    | [] => (false, l)
    end in
  let '(ip, icount, r1) := take_digits 10 l1 0 0 in
  let leading_zero :=
    match l1 with
    | c :: _ => (code c =? 48) && (1 <? icount)
    | [] => false
    end in
  if (icount =? 0) || leading_zero then None
  else
    let frac :=
      match r1 with
      | c :: r =>
          if code c =? 46 then
            let '(m, fcount, r2) := take_digits 10 r ip 0 in
            if fcount =? 0 then None else Some (m, fcount, r2)
          else Some (ip, 0, r1)
      | [] => Some (ip, 0, r1)
      end in
    match frac with
    | None => None
    | Some (m, fcount, r2) =>
        let expo :=
          match r2 with
          | c :: r =>
              if (code c =? 101) || (code c =? 69) then
                let '(eneg, r') :=
                  match r with
                  | sg :: r' => if code sg =? 45 then (true, r')
                                else if code sg =? 43 then (false, r') else (false, r)
                  | [] => (false, r)
                  end in
                let '(e, ecount, r3) := take_digits 10 r' 0 0 in
                if ecount =? 0 then None else Some ((if eneg then - e else e), r3)
              else Some (0, r2)
          | [] => Some (0, r2)
          end in
        match expo with
        | None => None
        | Some (e, r3) => Some (VNum (of_decimal neg m (e - fcount)), r3)
        end
    end.

Section Containers.

(** The parser of a value, at a lower fuel. *)
Variable parse_value : list ascii -> option (value * list ascii).

(** The elements after the first, up to the closing bracket; [acc] holds
    the elements read so far, last first. *)
Fixpoint parse_elements (fuel : nat) (l : list ascii) (acc : list value)
  : option (value * list ascii) :=
  match fuel with
  | O => None
  | S f =>
      match skip_ws l with
      | c :: r =>
          if code c =? 93 then Some (VArr (rev acc), r)
          else if code c =? 44 then
            match parse_value r with
            | Some (v, r') => parse_elements f r' (v :: acc)
            | None => None
            end
          else None
      | [] => None
      end
  end.

(** One member: a string, a colon, a value. *)
Definition parse_member (l : list ascii) : option (string * value * list ascii) :=
  match skip_ws l with
  | c :: r =>
      if code c =? 34 then
        match parse_chars (S (List.length r)) r [] with
        | Some (k, r1) =>
            match skip_ws r1 with
            | c1 :: r2 =>
                if code c1 =? 58 then
                  match parse_value r2 with
                  | Some (v, r3) => Some (k, v, r3)
                  | None => None
                  end
                else None
            | [] => None
            end
        | None => None
        end
      else None
  | [] => None
  end.

(** The members after the first, up to the closing brace; every member
    is defined on the object built so far, so a repeated key keeps its
    first place and its last value. *)
Fixpoint parse_members (fuel : nat) (l : list ascii) (acc : props)
  : option (value * list ascii) :=
  match fuel with
  | O => None
  | S f =>
      match skip_ws l with
      | c :: r =>
          if code c =? 125 then Some (VObj acc, r)
          else if code c =? 44 then
            match parse_member r with
            | Some (k, v, r') => parse_members f r' (obj_define acc k v)
            | None => None
            end
          else None
      | [] => None
      end
  end.

End Containers.

Fixpoint parse_value (fuel : nat) (l : list ascii) : option (value * list ascii) :=
  match fuel with
  | O => None
  | S f =>
      match skip_ws l with
      | [] => None
      | c :: r =>
          if code c =? 123 then
            match skip_ws r with
            | c1 :: r1 =>
                if code c1 =? 125 then Some (VObj [], r1)
                else
                  match parse_member (parse_value f) r with
                  | Some (k, v, r') =>
                      parse_members (parse_value f) (S (List.length r')) r' (obj_define [] k v)
                  | None => None
                  end
            | [] => None
            end
          else if code c =? 91 then
            match skip_ws r with
            | c1 :: r1 =>
                if code c1 =? 93 then Some (VArr [], r1)
                else
                  match parse_value f r with
                  | Some (v, r') =>
                      parse_elements (parse_value f) (S (List.length r')) r' [v]
                  | None => None
                  end
            | [] => None
            end
          else if code c =? 34 then
            match parse_chars (S (List.length r)) r [] with
            | Some (s, r') => Some (VStr s, r')
            | None => None
            end
          else
            match strip_prefix (bytes "null") (c :: r) with
            | Some r' => Some (VNull, r')
            | None =>
                match strip_prefix (bytes "true") (c :: r) with
                | Some r' => Some (VBool true, r')
                | None =>
                    match strip_prefix (bytes "false") (c :: r) with
                    | Some r' => Some (VBool false, r')
                    | None => parse_number (c :: r)
                    end
                end
            end
      end
  end.

(** [JSON.parse(text)]: one value between optional white space, a
    SyntaxError otherwise. *)
Definition parse (text : string) : outcome value :=
  let l := bytes text in
  match parse_value (S (List.length l)) l with
  | Some (v, r) =>
      match skip_ws r with
      | [] => Ok v
      | _ :: _ => Throw SyntaxError
      end
  | None => Throw SyntaxError
  end.

End JSON.

(* ================================================================== *)
(** * Graph types *)
(* ================================================================== *)

(** [types/graph]: a path is a sequence of keys and indices, a node is a
    list of rows and the path of its container.  Of a row and of a node
    only the fields the two components read are kept. *)
Inductive segment : Type :=
| Key (s : string)
| Index (n : Num.number).

Definition JSONPath := list segment.

Definition segment_value (seg : segment) : value :=
  match seg with
  | Key s => VStr s
  | Index n => VNum n
  end.

Record NodeRow : Type := {
  row_key : option string;       (* [string | null] *)
  row_value : value;             (* [string | number | null] *)
  row_type : string
}.

Record NodeData : Type := {
  node_text : option (list NodeRow);
  node_path : option JSONPath
}.

(* ================================================================== *)
(** * EditNodeModal: coercion and the mutation at a path *)
(* ================================================================== *)

Module EditNodeModal.
Import Str Num JS.

Definition parseValue (v : value) (type : string) : value :=
  if (type =? "null")%string then VNull
  else if (type =? "boolean")%string then
    VBool (match v with
           | VStr s => (s =? "true")%string
           | VBool b => b
           | _ => false
           end)
  else if (type =? "number")%string then
    let num := ToNumber v in
    if isNaN num then VNum zero else VNum num
  else VStr (ToString v).

Definition valueToString (v : value) : string :=
  match v with
  | VNull => ""
  | VBool b => if b then "true" else "false"
  | _ => ToString v
  end.

(** [path[i]]: [undefined] beyond the end. *)
Definition path_at (path : JSONPath) (i : nat) : value :=
  match nth_error path i with
  | Some seg => segment_value seg
  | None => VUndef
  end.

(** One turn of the loop: [current[Number(segment)]] on an array,
    [current[segment]] otherwise. *)
Definition step (current : value) (seg : value) : outcome value :=
  if Array_isArray current
  then get_prop current (NumberToString (ToNumber seg))
  else get_prop current (ToString seg).

(** The loop over [path[0] .. path[length - 2]]. *)
Fixpoint navigate (current : value) (path : list segment) : outcome value :=
  match path with
  | [] => Ok current
  | seg :: rest =>
      next <- step current (segment_value seg) ;;
      navigate next rest
  end.

(** [newKey !== lastSegment]. *)
Definition differs (newKey : option string) (lastSegment : value) : bool :=
  match newKey with
  | Some k => negb (strict_eq_string k lastSegment)
  | None => negb (match lastSegment with VUndef => true | _ => false end)
  end.

(** The branches after the loop, on the parent [current]. *)
Definition write (current : value) (lastSegment : value) (newValue : value)
           (newKey : option string) : outcome value :=
  if Array_isArray current then
    set_prop current (NumberToString (ToNumber lastSegment)) newValue
  else if truthy newKey && differs newKey lastSegment then
    c <- delete_prop current (ToString lastSegment) ;;
    set_prop c (key_string newKey) newValue
  else
    set_prop current (ToString lastSegment) newValue.

(** [current] is a reference into [obj]: the write to the parent is a
    write to the document.  A parsed document is a tree and shares
    nothing, so the document after the call is the document with the
    parent replaced where the walk found it.  [put] replaces the child
    that one turn of the loop reads, [plug] does so along the walk. *)
Definition put (obj : value) (seg : value) (child : value) : value :=
  match obj with
  | VArr l =>
      match index_of_string (NumberToString (ToNumber seg)) with
      | Some i => VArr (list_store l (Z.to_nat i) child)
      | None => obj
      end
  | VObj ps => VObj (obj_replace ps (ToString seg) child)
  | _ => obj
  end.

Fixpoint plug (obj : value) (path : list segment) (parent : value) : value :=
  match path with
  | [] => parent
  | seg :: rest =>
      match step obj (segment_value seg) with
      | Ok next => put obj (segment_value seg) (plug next rest parent)
      | Throw _ => obj
      end
  end.

(** The document after [updateJsonAtPath(obj, path, newValue, newKey)],
    or the exception of the call. *)
Definition updateJsonAtPath (obj : value) (path : JSONPath) (newValue : value)
           (newKey : option string) : outcome value :=
  let parentPath := removelast path in
  current <- navigate obj parentPath ;;
  let lastSegment := path_at path (List.length path - 1) in
  current' <- write current lastSegment newValue newKey ;;
  Ok (plug obj parentPath current').

(** ** The save handler *)

Record EditNodeModalState : Type := {
  edit_key : option string;      (* [key: string | null] *)
  edit_value : value;
  edit_type : string
}.

(** What the dialog shows as an error: a text of the component, or the
    [message] of a caught exception. *)
Inductive message : Type :=
| Text (s : string)
| MessageOf (e : exn).

Inductive toast : Type :=
| ToastSuccess (s : string)
| ToastError (m : message).

(** The stores and the component state the handler reads and writes:
    [useGraph], [useJson], [useFile], the [useState] cells, the toasts
    shown, whether [onClose] was called and whether the timer that shows
    NodeModal again was started.  [json] is the constant [json] of the
    render the handler runs in, the text the component read from
    [useJson]. *)
Record App : Type := {
  selectedNode : option NodeData;
  json : string;
  contents : string;
  hasChanges : bool;
  editState : EditNodeModalState;
  isLoading : bool;
  error : option message;
  toasts : list toast;
  closed : bool;
  nodeModalTimer : bool
}.

Definition setIsLoading (b : bool) (st : App) : App :=
  {| selectedNode := selectedNode st; json := json st; contents := contents st;
     hasChanges := hasChanges st; editState := editState st; isLoading := b;
     error := error st; toasts := toasts st; closed := closed st;
     nodeModalTimer := nodeModalTimer st |}.

Definition setError (e : option message) (st : App) : App :=
  {| selectedNode := selectedNode st; json := json st; contents := contents st;
     hasChanges := hasChanges st; editState := editState st; isLoading := isLoading st;
     error := e; toasts := toasts st; closed := closed st;
     nodeModalTimer := nodeModalTimer st |}.

(** Modelled from the spec: [useFile], whose [setContents] the handler
    calls, is not among the sources.  It stands for the document store of
    the specification, which takes a new text and a dirty flag
    ([setText(newText, dirtyFlag)]): the call stores both.  What the
    store does with the text afterwards (the comment before the call says
    that the JSON store and the graph follow) reaches the component with
    a later render, as a new [json]; the [json] of this record is the
    constant the handler closed over, which no call can change. *)
Definition setContents (text : string) (changes : bool) (st : App) : App :=
  {| selectedNode := selectedNode st; json := json st; contents := text;
     hasChanges := changes; editState := editState st; isLoading := isLoading st;
     error := error st; toasts := toasts st; closed := closed st;
     nodeModalTimer := nodeModalTimer st |}.

Definition setSelectedNode (n : NodeData) (st : App) : App :=
  {| selectedNode := Some n; json := json st; contents := contents st;
     hasChanges := hasChanges st; editState := editState st; isLoading := isLoading st;
     error := error st; toasts := toasts st; closed := closed st;
     nodeModalTimer := nodeModalTimer st |}.

Definition show_toast (t : toast) (st : App) : App :=
  {| selectedNode := selectedNode st; json := json st; contents := contents st;
     hasChanges := hasChanges st; editState := editState st; isLoading := isLoading st;
     error := error st; toasts := (toasts st ++ [t])%list; closed := closed st;
     nodeModalTimer := nodeModalTimer st |}.

(** [onClose()] followed by the [setTimeout] that shows NodeModal. *)
Definition close_and_reopen (st : App) : App :=
  {| selectedNode := selectedNode st; json := json st; contents := contents st;
     hasChanges := hasChanges st; editState := editState st; isLoading := isLoading st;
     error := error st; toasts := toasts st; closed := true;
     nodeModalTimer := true |}.

(** The effect that loads the first row of the selected node into the
    fields when the dialog opens. *)
Definition load_editState (textRow : NodeRow) : EditNodeModalState :=
  {| edit_key := if truthy (row_key textRow) then row_key textRow else None;
     edit_value := match row_value textRow with
                   | VNull => VStr ""
                   | v => v
                   end;
     edit_type := if (row_type textRow =? "object")%string
                     || (row_type textRow =? "array")%string
                  then "null" else row_type textRow |}.

(** [onChange] of the key field: the empty text is stored as [null]. *)
Definition change_key (text : string) (es : EditNodeModalState) : EditNodeModalState :=
  {| edit_key := if (text =? "")%string then None else Some text;
     edit_value := edit_value es;
     edit_type := edit_type es |}.

(** The key validation: the message to show, if any.  An absent or empty
    key is not validated. *)
Definition validate_key (key : option string) : option string :=
  if truthy key then
    if (trim (key_string key) =? "")%string then Some "Key cannot be empty"
    else if negb (Identifier.test (key_string key)) then Some "Key must be a valid identifier"
    else None
  else None.

(** [selectedNode.text[0]]; reading it, or a member of it, throws when
    there is no such row. *)
Definition first_row (node : NodeData) : outcome NodeRow :=
  match node_text node with
  | Some (row :: _) => Ok row
  | Some [] | None => Throw TypeError
  end.

Definition row_key_truthy (row : NodeRow) : bool := truthy (row_key row).

(** [a !== b] on two keys, each a string or [null]. *)
Definition key_differs (a b : option string) : bool :=
  match a, b with
  | Some x, Some y => negb (x =? y)%string
  | None, None => false
  | _, _ => true
  end.

(** The row list of the updated node: the first row takes the edited
    key, value and type. *)
Definition updated_text (es : EditNodeModalState) (displayValue : value)
           (text : list NodeRow) : list NodeRow :=
  match text with
  | [] => []
  | row :: others =>
      {| row_key := if truthy (edit_key es) then edit_key es else row_key row;
         row_value := displayValue;
         row_type := edit_type es |} :: others
  end.

(** The statements of the [try] block after the key validation, on the
    path of the selected node. *)
Definition save (node : NodeData) (path : JSONPath) (st : App) : outcome App :=
  let es := editState st in
  parsedJson <- JSON.parse (json st) ;;
  let newValue := parseValue (edit_value es) (edit_type es) in
  textRow <- first_row node ;;
  let targetPath :=
    if row_key_truthy textRow then (path ++ [Key (key_string (row_key textRow))])%list
    else path in
  parsedJson' <-
    updateJsonAtPath parsedJson targetPath newValue
      (if truthy (edit_key es) && key_differs (edit_key es) (row_key textRow)
       then edit_key es else None) ;;
  let updatedJson := JSON.stringify parsedJson' in
  let st1 := setContents updatedJson true st in
  let displayValue :=
    match newValue with
    | VBool b => VStr (if b then "true" else "false")
    | _ => newValue
    end in
  let updatedNode :=
    {| node_text := option_map (updated_text es displayValue) (node_text node);
       node_path := node_path node |} in
  let st2 := setSelectedNode updatedNode st1 in
  let st3 := show_toast (ToastSuccess "Node updated successfully") st2 in
  Ok (close_and_reopen st3).

(** [handleSave], run to its end. *)
Definition handleSave (st : App) : App :=
  let st0 := setError None (setIsLoading true st) in
  let after_try :=
    match selectedNode st0 with
    | None => setError (Some (Text "Unable to determine node path")) st0
    | Some node =>
        match node_path node with
        | None => setError (Some (Text "Unable to determine node path")) st0
        | Some path =>
            match validate_key (edit_key (editState st0)) with
            | Some msg => setError (Some (Text msg)) st0
            | None =>
                match save node path st0 with
                | Ok st' => st'
                | Throw e =>
                    show_toast (ToastError (MessageOf e))
                      (setError (Some (MessageOf e)) st0)
                end
            end
        end
    end in
  setIsLoading false after_try.

End EditNodeModal.

(* ================================================================== *)
(** * NodeModal: the inspector *)
(* ================================================================== *)

Module NodeModal.
Import Str Num JS.

(** The statement of the [forEach]: a row that is no container and has a
    key is assigned to the object. *)
Definition add_row (obj : props * bool) (row : NodeRow) : props * bool :=
  if negb (row_type row =? "array")%string && negb (row_type row =? "object")%string then
    if truthy (row_key row) then assign obj (key_string (row_key row)) (row_value row)
    else obj
  else obj.

Definition normalizeNodeData (nodeRows : option (list NodeRow)) : string :=
  match nodeRows with
  | None | Some [] => "{}"
  | Some ((row :: _) as rows) =>
      if (List.length rows =? 1)%nat && negb (truthy (row_key row))
      then ToString (row_value row)
      else JSON.stringify (VObj (fst (fold_left add_row rows ([], true))))
  end.

(** One segment as the [map] leaves it: a number as it is, a string
    between double quotes. *)
Definition shown_segment (seg : segment) : value :=
  match seg with
  | Index n => VNum n
  | Key s => VStr (JSON.dquote ++ s ++ JSON.dquote)
  end.

Definition jsonPathToString (path : option JSONPath) : string :=
  match path with
  | None | Some [] => "$"
  | Some p => "$[" ++ Array_join "][" (map shown_segment p) ++ "]"
  end.

Definition isEditableNode (nodeData : option NodeData) : bool :=
  match nodeData with
  | None => false
  | Some node =>
      match node_text node with
      | None | Some [] => false
      | Some (textRow :: _) =>
          negb (row_type textRow =? "object")%string
          && negb (row_type textRow =? "array")%string
      end
  end.

(** The dialogs and the buttons of the inspector: "Edit Node" is rendered
    when the node is editable, and it is the only way into the editor. *)
Inductive dialog : Type := Closed | Inspecting | Editing.

Inductive button : Type := CloseButton | EditNode.

Definition buttons (nodeData : option NodeData) : list button :=
  if isEditableNode nodeData then [CloseButton; EditNode] else [CloseButton].

(** A click on a button of the inspector. *)
Definition click (nodeData : option NodeData) (b : button) (d : dialog) : dialog :=
  match d with
  | Inspecting =>
      if existsb (fun b' => match b, b' with
                            | CloseButton, CloseButton | EditNode, EditNode => true
                            | _, _ => false
                            end) (buttons nodeData)
      then match b with CloseButton => Closed | EditNode => Editing end
      else d
  | _ => d
  end.

End NodeModal.

(* ================================================================== *)
(** * Paths into a document, as the specification speaks of them *)
(* ================================================================== *)

Module PathSpec.
Import Str Num JS EditNodeModal.

Definition is_scalar (v : value) : bool :=
  match v with
  | VNull | VBool _ | VNum _ | VStr _ => true
  | VUndef | VArr _ | VObj _ => false
  end.

(** The element of an array a segment names, read as the walk reads it. *)
Definition array_index (seg : segment) : option Z :=
  index_of_string (NumberToString (ToNumber (segment_value seg))).

(** The member of an object a segment names. *)
Definition object_key (seg : segment) : string :=
  ToString (segment_value seg).

(** [resolve v p]: the value [p] addresses in [v], when [p] is a path into
    [v]: every segment names an element within the bounds of an array or
    an own member of an object. *)
Fixpoint resolve (v : value) (p : JSONPath) : option value :=
  match p with
  | [] => Some v
  | seg :: rest =>
      match v with
      | VArr l =>
          match array_index seg with
          | Some i =>
              if i <? Z.of_nat (List.length l)
              then resolve (nth (Z.to_nat i) l VUndef) rest
              else None
          | None => None
          end
      | VObj ps =>
          if has_own ps (object_key seg)
          then resolve (obj_get ps (object_key seg)) rest
          else None
      | _ => None
      end
  end.

(** Whether a segment names position [j]. *)
Definition names_position (o : option Z) (j : Z) : bool :=
  match o with
  | Some i => i =? j
  | None => false
  end.

(** The list without its element at position [i]. *)
Fixpoint remove_nth (l : list value) (i : nat) : list value :=
  match l, i with
  | [], _ => []
  | _ :: r, O => r
  | a :: r, S j => a :: remove_nth r j
  end.

(** [withoutPath v p]: the document with the element or member at [p]
    taken out of its parent. *)
Fixpoint withoutPath (v : value) (p : JSONPath) : value :=
  match p with
  | [] => v
  | seg :: rest =>
      match v with
      | VArr l =>
          match array_index seg with
          | Some i =>
              match rest with
              | [] => VArr (remove_nth l (Z.to_nat i))
              | _ :: _ =>
                  VArr (list_store l (Z.to_nat i)
                          (withoutPath (nth (Z.to_nat i) l VUndef) rest))
              end
          | None => v
          end
      | VObj ps =>
          match rest with
          | [] => VObj (obj_delete ps (object_key seg))
          | _ :: _ =>
              VObj (obj_replace ps (object_key seg)
                      (withoutPath (obj_get ps (object_key seg)) rest))
          end
      | _ => v
      end
  end.

(** [unchanged_outside p v v']: along [p] every ancestor is a container
    of the same kind in [v'] as in [v], an array of the same length or an
    object with the same keys in the same order, and every element or
    member other than the one on the path is the same. *)
Fixpoint unchanged_outside (p : JSONPath) (v v' : value) : Prop :=
  match p with
  | [] => True
  | seg :: rest =>
      match v, v' with
      | VArr l, VArr l' =>
          List.length l' = List.length l
          /\ forall j : nat,
              (j < List.length l)%nat ->
              if names_position (array_index seg) (Z.of_nat j)
              then unchanged_outside rest (nth j l VUndef) (nth j l' VUndef)
              else nth j l' VUndef = nth j l VUndef
      | VObj ps, VObj ps' =>
          keys ps' = keys ps
          /\ forall k : string,
              In k (keys ps) ->
              if string_dec k (object_key seg)
              then unchanged_outside rest (obj_get ps k) (obj_get ps' k)
              else obj_get ps' k = obj_get ps k
      | _, _ => False
      end
  end.

End PathSpec.

(* ================================================================== *)
(** * The coercion and the inspector, as the specification speaks of them *)
(* ================================================================== *)

Module DialogSpec.
Import Str Num JS EditNodeModal NodeModal.

(** The type tag of a scalar, as a row carries it. *)
Definition typeOf (x : value) : string :=
  match x with
  | VNull => "null"
  | VBool _ => "boolean"
  | VNum _ => "number"
  | _ => "string"
  end.

Definition boolean_null_or_string (x : value) : bool :=
  match x with
  | VNull | VBool _ | VStr _ => true
  | _ => false
  end.

(** A numeric segment bare, a string segment between double quotes. *)
Definition rendered (seg : segment) : string :=
  match seg with
  | Index n => NumberToString n
  | Key s => JSON.dquote ++ s ++ JSON.dquote
  end.

(** [[s0][s1]...[sn]]. *)
Fixpoint bracketed (p : JSONPath) : string :=
  match p with
  | [] => ""
  | seg :: rest => "[" ++ rendered seg ++ "]" ++ bracketed rest
  end.

(** The rows the content view shows: no container, and a key that is
    neither [null] nor empty. *)
Definition shown_row (row : NodeRow) : bool :=
  negb (row_type row =? "array")%string
  && negb (row_type row =? "object")%string
  && truthy (row_key row).

Definition row_member (row : NodeRow) : string * value :=
  (key_string (row_key row), row_value row).

(** Keys that are pairwise different, no array index and not
    [__proto__]: the keys an object keeps in the order of their
    assignment. *)
Fixpoint plain_keys (ks : list string) : bool :=
  match ks with
  | [] => true
  | k :: r =>
      negb (existsb (String.eqb k) r)
      && match index_of_string k with Some _ => false | None => true end
      && negb (k =? "__proto__")%string
      && plain_keys r
  end.

(** Whether a node with a path is selected. *)
Definition has_path (st : App) : bool :=
  match selectedNode st with
  | Some node => match node_path node with Some _ => true | None => false end
  | None => false
  end.

End DialogSpec.

(* ================================================================== *)
(** * Sample documents and states *)
(* ================================================================== *)

(** The number a decimal integer literal denotes. *)
Definition num (z : Z) : value := VNum (Num.of_Z z).

(** The document [{"a": 1, "b": [10, 20]}]. *)
Definition sample_document : value :=
  VObj [("a", num 1); ("b", VArr [num 10; num 20])].

(** The text [{"a": 1}]. *)
Definition sample_text : string :=
  "{" ++ JSON.dquote ++ "a" ++ JSON.dquote ++ ": 1}".

Definition sample_row (k : option string) (v : value) (t : string) : NodeRow :=
  {| row_key := k; row_value := v; row_type := t |}.

(** The node of the member [a] of the sample text, at the root. *)
Definition sample_node : NodeData :=
  {| node_text := Some [sample_row (Some "a") (num 1) "number"];
     node_path := Some [] |}.

(** The editor on [node], with the document text [text], the key field
    holding [k] and the value field holding the number 2. *)
Definition sample_state (node : option NodeData) (text : string) (k : option string)
  : EditNodeModal.App :=
  {| EditNodeModal.selectedNode := node;
     EditNodeModal.json := text;
     EditNodeModal.contents := text;
     EditNodeModal.hasChanges := false;
     EditNodeModal.editState :=
       {| EditNodeModal.edit_key := k;
          EditNodeModal.edit_value := VStr "2";
          EditNodeModal.edit_type := "number" |};
     EditNodeModal.isLoading := false;
     EditNodeModal.error := None;
     EditNodeModal.toasts := [];
     EditNodeModal.closed := false;
     EditNodeModal.nodeModalTimer := false |}.

(* ================================================================== *)
(** * EditNodeModal: the fields and the other handlers *)
(* ================================================================== *)

Module EditorFields.
Import Str Num JS EditNodeModal.

(** A number is falsy when it is [NaN] or a zero. *)
Definition falsy_number (n : number) : bool :=
  match n with
  | S754_nan | S754_zero _ => true
  | _ => false
  end.

(** The number the number field shows, [Number(editState.value) || 0]. *)
Definition number_input_value (es : EditNodeModalState) : number :=
  let n := ToNumber (edit_value es) in
  if falsy_number n then zero else n.

(** Whether the checkbox is ticked,
    [editState.value === true || editState.value === "true"]. *)
Definition checkbox_checked (es : EditNodeModalState) : bool :=
  match edit_value es with
  | VBool b => b
  | VStr s => (s =? "true")%string
  | _ => false
  end.

(** [onChange] of the type selection: no selection counts as ["string"];
    the value field keeps what it holds. *)
Definition change_type (selected : option string) (es : EditNodeModalState)
  : EditNodeModalState :=
  {| edit_key := edit_key es;
     edit_value := edit_value es;
     edit_type := if truthy selected then key_string selected else "string" |}.

(** The path [handleSave] writes at: the path of the node, followed by
    the key of its first row when that key is neither [null] nor empty. *)
Definition targetPath (path : JSONPath) (textRow : NodeRow) : JSONPath :=
  if row_key_truthy textRow then (path ++ [Key (key_string (row_key textRow))])%list
  else path.

(** The new key [handleSave] passes on: the key field, when it holds a
    key other than that of the row. *)
Definition passed_key (es : EditNodeModalState) (textRow : NodeRow) : option string :=
  if truthy (edit_key es) && key_differs (edit_key es) (row_key textRow)
  then edit_key es else None.

End EditorFields.

(* ================================================================== *)
(** * Further notions on paths *)
(* ================================================================== *)

Module PathNotions.
Import Str Num JS EditNodeModal PathSpec.

Definition is_container (v : value) : bool :=
  match v with
  | VArr _ | VObj _ => true
  | _ => false
  end.

(** [reads_own v p]: the own properties decide every read of the walk
    along [p] in [v], so that the walk is the one [navigate] makes. *)
Fixpoint reads_own (current : value) (path : list segment) : bool :=
  match path with
  | [] => true
  | seg :: rest =>
      own_read current
        (if Array_isArray current
         then NumberToString (ToNumber (segment_value seg))
         else ToString (segment_value seg))
      && match step current (segment_value seg) with
         | Ok next => reads_own next rest
         | Throw _ => true
         end
  end.

(** [apart v p q]: the two paths leave each other inside [v]: after a
    common walk they name two different elements of one array or two
    different members of one object. *)
Fixpoint apart (v : value) (p q : JSONPath) : bool :=
  match p, q with
  | seg :: p', seg' :: q' =>
      match v with
      | VArr l =>
          match array_index seg, array_index seg' with
          | Some i, Some j =>
              if i =? j then apart (nth (Z.to_nat i) l VUndef) p' q' else true
          | _, _ => false
          end
      | VObj ps =>
          if (object_key seg =? object_key seg')%string
          then apart (obj_get ps (object_key seg)) p' q'
          else true
      | _ => false
      end
  | _, _ => false
  end.

(** The element or member of [v] a segment names, as the walk reads it,
    and whether there is one. *)
Definition child (v : value) (seg : segment) : value :=
  match v with
  | VArr l =>
      match array_index seg with
      | Some i => nth (Z.to_nat i) l VUndef
      | None => VUndef
      end
  | VObj ps => obj_get ps (object_key seg)
  | _ => VUndef
  end.

Definition has_child (v : value) (seg : segment) : bool :=
  match v with
  | VArr l =>
      match array_index seg with
      | Some i => i <? Z.of_nat (List.length l)
      | None => false
      end
  | VObj ps => has_own ps (object_key seg)
  | _ => false
  end.

(** The document after the write of [x] at [p], the empty path standing
    for the place of the document itself. *)
Definition written (v : value) (p : JSONPath) (x : value) : outcome value :=
  match p with
  | [] => Ok x
  | _ :: _ => updateJsonAtPath v p x None
  end.

End PathNotions.

(* ================================================================== *)
(** * Tactics *)
(* ================================================================== *)

(** Boolean tests on byte codes, turned into linear arithmetic. *)
Ltac bool_hyps :=
  repeat match goal with
    | H : (_ && _)%bool = true |- _ => apply andb_prop in H; destruct H
    | H : (_ || _)%bool = true |- _ => apply orb_prop in H; destruct H
    | H : (_ <=? _) = true |- _ => apply Z.leb_le in H
    | H : (_ =? _) = true |- _ => apply Z.eqb_eq in H
    end.

Ltac refute_bytes :=
  apply not_true_is_false; intro;
  unfold Identifier.is_part, Identifier.is_start, Str.is_space1, Str.is_space2,
    Str.is_space3, Str.is_lower, Str.is_upper, Str.is_digit, Str.between in *;
  bool_hyps; lia.

(** Case analysis on every [match] and [if] of the goal. *)
Ltac split_matches :=
  repeat match goal with
    | |- context [match ?x with _ => _ end] => destruct x eqn:?
    | |- context [if ?x then _ else _] => destruct x eqn:?
    end.

(* ================================================================== *)
(** * Properties of the runtime operations *)
(* ================================================================== *)

Module JSFacts.
Import Str Num JS.

Lemma digit_value_nonneg (c : ascii) (d : Z) :
  digit_value c = Some d -> 0 <= d.
Proof.
  unfold digit_value, is_digit, between.
  destruct ((48 <=? code c) && (code c <=? 57)) eqn:D.
  - intros H; inversion H; subst. apply andb_prop in D. lia.
  - destruct ((97 <=? code c) && (code c <=? 102)) eqn:L.
    + intros H; inversion H; subst. apply andb_prop in L. lia.
    + destruct ((65 <=? code c) && (code c <=? 70)) eqn:U; [|discriminate].
      intros H; inversion H; subst. apply andb_prop in U. lia.
Qed.

Lemma take_digits_nonneg (base : Z) (l : list ascii) :
  forall acc count, 0 <= base -> 0 <= acc ->
    0 <= fst (fst (take_digits base l acc count)).
Proof.
  induction l as [|c r IH]; intros acc count Hb Ha; simpl; [exact Ha|].
  destruct (digit_value c) as [d|] eqn:D; simpl; [|exact Ha].
  destruct (d <? base); simpl; [|exact Ha].
  apply IH; [exact Hb|]. pose proof (digit_value_nonneg c d D). nia.
Qed.

Lemma index_of_string_nonneg (s : string) (i : Z) :
  index_of_string s = Some i -> 0 <= i.
Proof.
  unfold index_of_string.
  destruct (bytes s) as [|c r]; [discriminate|].
  destruct (_ && _ && _); [|discriminate].
  pose proof (take_digits_nonneg 10 (c :: r) 0 0 ltac:(lia) ltac:(lia)) as H.
  destruct (take_digits 10 (c :: r) 0 0) as [[v n] rest]; simpl in H.
  destruct (v <=? max_index); [|discriminate].
  intros E; inversion E; subst; exact H.
Qed.

(** ** Arrays *)

Lemma list_store_length (l : list value) (i : nat) (x : value) :
  List.length (list_store l i x) = List.length l.
Proof.
  revert i; induction l as [|a r IH]; intros [|j]; simpl; auto.
Qed.

Lemma list_store_nth_same (l : list value) (i : nat) (x d : value) :
  (i < List.length l)%nat -> nth i (list_store l i x) d = x.
Proof.
  revert i; induction l as [|a r IH]; intros [|j] H; simpl in *; try lia; auto.
  apply IH; lia.
Qed.

Lemma list_store_nth_other (l : list value) (i j : nat) (x d : value) :
  i <> j -> nth j (list_store l i x) d = nth j l d.
Proof.
  revert i j; induction l as [|a r IH]; intros [|i] [|j] H; simpl; auto; try congruence.
Qed.

Lemma list_store_twice (l : list value) (i : nat) (x y : value) :
  list_store (list_store l i x) i y = list_store l i y.
Proof.
  revert i; induction l as [|a r IH]; intros [|j]; simpl; auto.
  now rewrite IH.
Qed.

Lemma array_store_inside (l : list value) (i : Z) (x : value) :
  i < Z.of_nat (List.length l) ->
  array_store l i x = list_store l (Z.to_nat i) x.
Proof.
  intros H. unfold array_store.
  destruct (i <? Z.of_nat (List.length l)) eqn:E; [reflexivity|].
  apply Z.ltb_ge in E. lia.
Qed.

Lemma array_store_beyond (l : list value) (i : Z) (x : value) :
  Z.of_nat (List.length l) <= i ->
  array_store l i x
  = (l ++ repeat VUndef (Z.to_nat i - List.length l) ++ [x])%list.
Proof.
  intros H. unfold array_store.
  destruct (i <? Z.of_nat (List.length l)) eqn:E; [|reflexivity].
  apply Z.ltb_lt in E. lia.
Qed.

(** ** Objects *)

Lemma has_own_In (ps : props) (k : string) :
  has_own ps k = true <-> In k (keys ps).
Proof.
  unfold has_own, keys. rewrite existsb_exists. split.
  - intros [p [Hp E]]. apply String.eqb_eq in E. subst. now apply in_map.
  - intros H. apply in_map_iff in H. destruct H as [p [E Hp]].
    exists p. split; [exact Hp|]. now apply String.eqb_eq.
Qed.

Lemma obj_replace_keys (ps : props) (k : string) (x : value) :
  keys (obj_replace ps k x) = keys ps.
Proof.
  induction ps as [|[k' v] r IH]; simpl; [reflexivity|].
  destruct (k' =? k)%string; simpl; [reflexivity|]. now rewrite IH.
Qed.

Lemma obj_replace_has_own (ps : props) (k j : string) (x : value) :
  has_own (obj_replace ps k x) j = has_own ps j.
Proof.
  unfold has_own.
  induction ps as [|[k' v] r IH]; simpl; [reflexivity|].
  destruct (k' =? k)%string; simpl; [reflexivity|]. now rewrite IH.
Qed.

Lemma obj_get_replace_same (ps : props) (k : string) (x : value) :
  has_own ps k = true -> obj_get (obj_replace ps k x) k = x.
Proof.
  induction ps as [|[k' v] r IH]; simpl; [discriminate|].
  destruct (k' =? k)%string eqn:E; simpl.
  - now rewrite E.
  - rewrite E. exact IH.
Qed.

Lemma obj_get_replace_other (ps : props) (k j : string) (x : value) :
  j <> k -> obj_get (obj_replace ps k x) j = obj_get ps j.
Proof.
  intros N. induction ps as [|[k' v] r IH]; simpl; [reflexivity|].
  destruct (k' =? k)%string eqn:E; simpl.
  - apply String.eqb_eq in E. subst k'.
    destruct (k =? j)%string eqn:F; [|reflexivity].
    apply String.eqb_eq in F. congruence.
  - destruct (k' =? j)%string; [reflexivity|exact IH].
Qed.

Lemma obj_replace_twice (ps : props) (k : string) (x y : value) :
  obj_replace (obj_replace ps k x) k y = obj_replace ps k y.
Proof.
  induction ps as [|[k' v] r IH]; simpl; [reflexivity|].
  destruct (k' =? k)%string eqn:E; simpl; rewrite E; [reflexivity|]. now rewrite IH.
Qed.

Lemma obj_delete_replace (ps : props) (k : string) (x : value) :
  obj_delete (obj_replace ps k x) k = obj_delete ps k.
Proof.
  unfold obj_delete.
  induction ps as [|[k' v] r IH]; simpl; [reflexivity|].
  destruct (k' =? k)%string eqn:E; simpl; rewrite E; simpl; [reflexivity|].
  now rewrite IH.
Qed.

Lemma obj_set_existing (ps : props) (k : string) (x : value) :
  has_own ps k = true -> obj_set ps k x = obj_replace ps k x.
Proof.
  intros H. unfold obj_set, assign, obj_define. rewrite H. reflexivity.
Qed.

End JSFacts.

(* ================================================================== *)
(** * The mutation at a path *)
(* ================================================================== *)

Module MutationFacts.
Import Str Num JS EditNodeModal PathSpec JSFacts.

(** A path of one segment: the document is the parent. *)
Lemma updateJsonAtPath_last (obj : value) (seg : segment) (x : value) (nk : option string) :
  updateJsonAtPath obj [seg] x nk = write obj (segment_value seg) x nk.
Proof.
  unfold updateJsonAtPath, path_at; simpl.
  destruct (write obj (segment_value seg) x nk); reflexivity.
Qed.

(** A longer path: one turn of the loop, the call on the child, and the
    child put back. *)
Lemma updateJsonAtPath_cons (obj : value) (seg seg' : segment) (rest : JSONPath)
      (x : value) (nk : option string) :
  updateJsonAtPath obj (seg :: seg' :: rest) x nk =
  (next <- step obj (segment_value seg) ;;
   next' <- updateJsonAtPath next (seg' :: rest) x nk ;;
   Ok (put obj (segment_value seg) next')).
Proof.
  unfold updateJsonAtPath.
  change (removelast (seg :: seg' :: rest)) with (seg :: removelast (seg' :: rest)).
  assert (P : path_at (seg :: seg' :: rest) (List.length (seg :: seg' :: rest) - 1)
              = path_at (seg' :: rest) (List.length (seg' :: rest) - 1)).
  { unfold path_at. simpl. now rewrite Nat.sub_0_r. }
  rewrite P. cbn [navigate plug bind].
  destruct (step obj (segment_value seg)) as [next|e]; [|reflexivity].
  cbn [bind].
  destruct (navigate next (removelast (seg' :: rest))) as [cur|e]; [|reflexivity].
  cbn [bind].
  destruct (write cur _ x nk); reflexivity.
Qed.

(** An induction on non-empty paths. *)
Lemma path_ind (P : JSONPath -> Prop) :
  P [] ->
  (forall seg, P [seg]) ->
  (forall seg seg' rest, P (seg' :: rest) -> P (seg :: seg' :: rest)) ->
  forall p, P p.
Proof.
  intros H0 H1 H2 p. induction p as [|seg [|seg' rest] IH]; auto.
Qed.

Lemma names_position_true (o : option Z) (j : nat) :
  names_position o (Z.of_nat j) = true ->
  exists i, o = Some i /\ Z.to_nat i = j /\ 0 <= i.
Proof.
  destruct o as [i|]; simpl; [|discriminate].
  intros E. apply Z.eqb_eq in E. exists i. repeat split; lia.
Qed.

Lemma names_position_false (i : Z) (j : nat) :
  0 <= i -> names_position (Some i) (Z.of_nat j) = false -> Z.to_nat i <> j.
Proof.
  simpl. intros P E. apply Z.eqb_neq in E. lia.
Qed.

Lemma withoutPath_array_cons (l : list value) (seg seg' : segment) (rest : JSONPath) (i : Z) :
  array_index seg = Some i ->
  withoutPath (VArr l) (seg :: seg' :: rest)
  = VArr (list_store l (Z.to_nat i)
            (withoutPath (nth (Z.to_nat i) l VUndef) (seg' :: rest))).
Proof.
  intros E. change (withoutPath (VArr l) (seg :: seg' :: rest)) with
    (match array_index seg with
     | Some i => VArr (list_store l (Z.to_nat i)
                         (withoutPath (nth (Z.to_nat i) l VUndef) (seg' :: rest)))
     | None => VArr l
     end).
  now rewrite E.
Qed.

Lemma withoutPath_object_cons (ps : props) (seg seg' : segment) (rest : JSONPath) :
  withoutPath (VObj ps) (seg :: seg' :: rest)
  = VObj (obj_replace ps (object_key seg)
            (withoutPath (obj_get ps (object_key seg)) (seg' :: rest))).
Proof. reflexivity. Qed.

(** The write at a path into the document: the call returns, the path
    then addresses the new value, and nothing else has changed. *)
Lemma update_in_place (x : value) :
  forall (p : JSONPath) (v s : value),
    p <> [] ->
    resolve v p = Some s ->
    exists v',
      updateJsonAtPath v p x None = Ok v'
      /\ resolve v' p = Some x
      /\ withoutPath v' p = withoutPath v p
      /\ unchanged_outside p v v'.
Proof.
  induction p as [| seg | seg seg' rest IH] using path_ind; intros v s NE R.
  - congruence.
  - (* the parent *)
    rewrite updateJsonAtPath_last. unfold write.
    destruct v as [| | b | n | str | l | ps]; simpl in R; try discriminate.
    + (* array *)
      unfold array_index in R. simpl Array_isArray. cbn iota.
      unfold set_prop.
      destruct (index_of_string (NumberToString (ToNumber (segment_value seg)))) as [i|] eqn:Hi;
        [|discriminate].
      pose proof (index_of_string_nonneg _ _ Hi) as Pi.
      destruct (i <? Z.of_nat (List.length l)) eqn:B; [|discriminate].
      apply Z.ltb_lt in B.
      rewrite array_store_inside by exact B.
      eexists; split; [reflexivity|].
      assert (Bn : (Z.to_nat i < List.length l)%nat) by lia.
      repeat split.
      * simpl. unfold array_index. rewrite Hi, list_store_length.
        apply Z.ltb_lt in B. rewrite B.
        now rewrite list_store_nth_same.
      * simpl. unfold array_index. rewrite Hi. f_equal.
        clear - Bn. revert Bn. generalize (Z.to_nat i) as k.
        induction l as [|a r IHl]; intros [|k] H; simpl in *; try lia; auto.
        f_equal. apply IHl. lia.
      * apply list_store_length.
      * intros j Hj. unfold array_index. rewrite Hi.
        destruct (names_position (Some i) (Z.of_nat j)) eqn:N; [exact I|].
        apply list_store_nth_other. now apply names_position_false.
    + (* object *)
      fold (object_key seg) in *.
      destruct (has_own ps (object_key seg)) eqn:H; [|discriminate].
      simpl. rewrite (obj_set_existing _ _ _ H).
      eexists; split; [reflexivity|].
      repeat split.
      * simpl. rewrite obj_replace_has_own, H. now rewrite obj_get_replace_same.
      * simpl. now rewrite obj_delete_replace.
      * apply obj_replace_keys.
      * intros k Hk. destruct (string_dec k (object_key seg)); [exact I|].
        now apply obj_get_replace_other.
  - (* an ancestor *)
    rewrite updateJsonAtPath_cons. unfold step.
    destruct v as [| | b | n | str | l | ps]; simpl in R; try discriminate.
    + unfold array_index in R. simpl Array_isArray. cbn iota. unfold get_prop.
      destruct (index_of_string (NumberToString (ToNumber (segment_value seg)))) as [i|] eqn:Hi;
        [|discriminate].
      pose proof (index_of_string_nonneg _ _ Hi) as Pi.
      destruct (i <? Z.of_nat (List.length l)) eqn:B; [|discriminate].
      destruct (IH (nth (Z.to_nat i) l VUndef) s ltac:(discriminate) R)
        as [c' [U [R' [W F]]]].
      cbn [bind]. rewrite U. cbn [bind].
      eexists; split; [reflexivity|].
      apply Z.ltb_lt in B.
      assert (Bn : (Z.to_nat i < List.length l)%nat) by lia.
      unfold put. rewrite Hi.
      repeat split.
      * cbn [resolve]. unfold array_index. rewrite Hi, list_store_length.
        apply Z.ltb_lt in B. rewrite B.
        now rewrite list_store_nth_same.
      * rewrite !(withoutPath_array_cons _ _ _ _ i) by exact Hi.
        rewrite list_store_nth_same by exact Bn.
        now rewrite list_store_twice, W.
      * apply list_store_length.
      * intros j Hj. unfold array_index. rewrite Hi.
        destruct (names_position (Some i) (Z.of_nat j)) eqn:N.
        -- apply names_position_true in N. destruct N as [i' [E [Ej _]]].
           inversion E; subst i'. subst j.
           now rewrite list_store_nth_same.
        -- apply list_store_nth_other. now apply names_position_false.
    + fold (object_key seg) in *. simpl Array_isArray. cbn iota. unfold get_prop.
      destruct (has_own ps (object_key seg)) eqn:H; [|discriminate].
      destruct (IH (obj_get ps (object_key seg)) s ltac:(discriminate) R)
        as [c' [U [R' [W F]]]].
      cbn [bind]. rewrite U. cbn [bind].
      eexists; split; [reflexivity|].
      unfold put. fold (object_key seg).
      repeat split.
      * cbn [resolve]. rewrite obj_replace_has_own, H.
        now rewrite obj_get_replace_same.
      * rewrite !withoutPath_object_cons.
        rewrite obj_get_replace_same by exact H.
        now rewrite obj_replace_twice, W.
      * apply obj_replace_keys.
      * intros k Hk. destruct (string_dec k (object_key seg)) as [E|N].
        -- subst k. now rewrite obj_get_replace_same.
        -- now apply obj_get_replace_other.
Qed.

(** ** The parent after the write *)

Lemma navigate_undefined (rest : JSONPath) (cur : value) :
  navigate VUndef rest = Ok cur -> cur = VUndef.
Proof.
  destruct rest as [|seg rest]; simpl.
  - intros E; now inversion E.
  - discriminate.
Qed.

Lemma obj_get_defined (ps : props) (k : string) :
  obj_get ps k <> VUndef -> has_own ps k = true.
Proof.
  unfold has_own.
  induction ps as [|[k' v] r IH]; simpl; [congruence|].
  destruct (k' =? k)%string; simpl; auto.
Qed.

Lemma nth_defined (l : list value) (i : nat) :
  nth i l VUndef <> VUndef -> (i < List.length l)%nat.
Proof.
  intros H. destruct (Nat.lt_ge_cases i (List.length l)) as [L|G]; [exact L|].
  now rewrite nth_overflow in H.
Qed.

Lemma step_array (l : list value) (seg : value) :
  step (VArr l) seg
  = Ok (match index_of_string (NumberToString (ToNumber seg)) with
        | Some i => nth (Z.to_nat i) l VUndef
        | None => VUndef
        end).
Proof. reflexivity. Qed.

Lemma step_object (ps : props) (seg : value) :
  step (VObj ps) seg = Ok (obj_get ps (ToString seg)).
Proof. reflexivity. Qed.

(** The walk finds in the updated document the parent that was put
    there, and the update has changed nothing outside the walk. *)
Lemma navigate_plug (new : value) :
  forall (pp : JSONPath) (obj cur : value),
    navigate obj pp = Ok cur ->
    cur <> VUndef ->
    navigate (plug obj pp new) pp = Ok new
    /\ unchanged_outside pp obj (plug obj pp new).
Proof.
  induction pp as [|seg rest IH]; intros obj cur N D.
  - simpl. split; [reflexivity|exact I].
  - cbn [navigate] in N. cbn [plug navigate].
    destruct (step obj (segment_value seg)) as [next|e] eqn:S; [|discriminate].
    cbn [bind] in N.
    assert (Dn : next <> VUndef).
    { intros E; subst next. apply navigate_undefined in N. contradiction. }
    destruct (IH next cur N D) as [N' F].
    destruct obj as [| | b | n | str | l | ps];
      try (simpl in S; discriminate);
      try (simpl in S; inversion S; subst next; contradiction).
    + (* array *)
      rewrite step_array in S. unfold put.
      destruct (index_of_string (NumberToString (ToNumber (segment_value seg)))) as [i|] eqn:Hi;
        [|inversion S; subst next; contradiction].
      inversion S as [Sn].
      pose proof (index_of_string_nonneg _ _ Hi) as Pi.
      assert (Bn : (Z.to_nat i < List.length l)%nat).
      { apply nth_defined. now rewrite Sn. }
      rewrite step_array, Hi, list_store_nth_same by exact Bn. cbn [bind]. rewrite ?Sn.
      split; [exact N'|].
      cbn [unchanged_outside]. split; [apply list_store_length|].
      intros j Hj. unfold array_index. rewrite Hi.
      destruct (names_position (Some i) (Z.of_nat j)) eqn:E.
      * apply names_position_true in E. destruct E as [i' [E [Ej _]]].
        inversion E; subst i'. subst j.
        rewrite list_store_nth_same by exact Bn. now rewrite Sn.
      * apply list_store_nth_other. now apply names_position_false.
    + (* object *)
      rewrite step_object in S. inversion S as [Sn].
      assert (H : has_own ps (ToString (segment_value seg)) = true).
      { apply obj_get_defined. now rewrite Sn. }
      unfold put. rewrite step_object.
      rewrite obj_get_replace_same by exact H. cbn [bind]. rewrite ?Sn.
      split; [exact N'|].
      cbn [unchanged_outside]. split; [apply obj_replace_keys|].
      intros k Hk. unfold object_key.
      destruct (string_dec k (ToString (segment_value seg))) as [E|Ne].
      * subst k. rewrite obj_get_replace_same by exact H. now rewrite Sn.
      * now apply obj_get_replace_other.
Qed.

Lemma list_store_nth (l : list value) (i : nat) :
  list_store l i (nth i l VUndef) = l.
Proof.
  revert i; induction l as [|a r IH]; intros [|j]; simpl; auto.
  now rewrite IH.
Qed.

Lemma obj_replace_get (ps : props) (k : string) :
  obj_replace ps k (obj_get ps k) = ps.
Proof.
  induction ps as [|[k' v] r IH]; simpl; [reflexivity|].
  destruct (k' =? k)%string; [reflexivity|]. now rewrite IH.
Qed.

(** Putting back the parent that the walk found gives the document
    itself. *)
Lemma plug_navigate (pp : JSONPath) :
  forall obj cur : value, navigate obj pp = Ok cur -> plug obj pp cur = obj.
Proof.
  induction pp as [|seg rest IH]; intros obj cur N.
  - simpl in N. now inversion N.
  - cbn [navigate] in N. cbn [plug].
    destruct (step obj (segment_value seg)) as [next|e] eqn:S; [|discriminate].
    cbn [bind] in N. rewrite (IH next cur N).
    destruct obj as [| | b | n | str | l | ps]; try reflexivity.
    + rewrite step_array in S. inversion S as [Sn]. unfold put.
      destruct (index_of_string (NumberToString (ToNumber (segment_value seg))));
        [|reflexivity].
      now rewrite list_store_nth.
    + rewrite step_object in S. inversion S as [Sn]. unfold put.
      now rewrite obj_replace_get.
Qed.

(** The call on a path that ends in [seg]: the walk along the segments
    before it, then the write to the parent. *)
Lemma updateJsonAtPath_snoc (obj : value) (pp : JSONPath) (seg : segment)
      (x : value) (nk : option string) :
  updateJsonAtPath obj (pp ++ [seg])%list x nk =
  (current <- navigate obj pp ;;
   current' <- write current (segment_value seg) x nk ;;
   Ok (plug obj pp current')).
Proof.
  unfold updateJsonAtPath. rewrite removelast_last.
  assert (P : path_at (pp ++ [seg])%list (List.length (pp ++ [seg])%list - 1)
              = segment_value seg).
  { unfold path_at. rewrite length_app. simpl.
    replace (List.length pp + 1 - 1)%nat with (List.length pp) by lia.
    rewrite nth_error_app2 by lia. now rewrite Nat.sub_diag. }
  now rewrite P.
Qed.

End MutationFacts.

(* ================================================================== *)
(** * Claims on the mutation at a path *)
(* ================================================================== *)

Import Str Num JS EditNodeModal NodeModal PathSpec DialogSpec JSFacts MutationFacts.

(** C1.  For every document [v], every path [p] into [v] that addresses a
    scalar and every replacement scalar [x], the call
    [updateJsonAtPath(v, p, x)] without a new key returns when [p] is not
    empty; afterwards [p] addresses [x], the document without the value
    at [p] is the document before without the value at [p], and along the
    path every ancestor is still an array of the same length or an object
    with the same keys in the same order, with every other element or
    member unchanged.  On the empty path the call throws, and nothing is
    written. *)
Theorem updateJsonAtPath_changes_only_target
        (v : value) (p : JSONPath) (s x : value) :
  resolve v p = Some s ->
  is_scalar s = true ->
  is_scalar x = true ->
  match updateJsonAtPath v p x None with
  | Ok v' =>
      p <> []
      /\ resolve v' p = Some x
      /\ withoutPath v' p = withoutPath v p
      /\ unchanged_outside p v v'
  | Throw _ => p = []
  end.
Proof.
  intros R Ss Sx.
  destruct p as [|seg rest].
  - simpl in R. inversion R; subst s.
    destruct v; try discriminate; reflexivity.
  - destruct (update_in_place x (seg :: rest) v s ltac:(discriminate) R)
      as [v' [U [R' [W F]]]].
    rewrite U. repeat split; try assumption. discriminate.
Qed.

Lemma updateJsonAtPath_changes_only_target_witness :
  match updateJsonAtPath sample_document [Key "b"; Index (of_Z 1)] (num 99) None with
  | Ok v' =>
      [Key "b"; Index (of_Z 1)] <> []
      /\ resolve v' [Key "b"; Index (of_Z 1)] = Some (num 99)
      /\ withoutPath v' [Key "b"; Index (of_Z 1)]
         = withoutPath sample_document [Key "b"; Index (of_Z 1)]
      /\ unchanged_outside [Key "b"; Index (of_Z 1)] sample_document v'
  | Throw _ => [Key "b"; Index (of_Z 1)] = []
  end.
Proof.
  apply (updateJsonAtPath_changes_only_target
           sample_document [Key "b"; Index (of_Z 1)] (num 20) (num 99));
    vm_compute; reflexivity.
Defined.

(** The scenarios of the specification on the sample document. *)
Example replace_member :
  updateJsonAtPath sample_document [Key "a"] (num 2) None
  = Ok (VObj [("a", num 2); ("b", VArr [num 10; num 20])]).
Proof. vm_compute. reflexivity. Qed.

Example replace_element :
  updateJsonAtPath (VObj [("b", VArr [num 10; num 20])]) [Key "b"; Index (of_Z 1)] (num 99) None
  = Ok (VObj [("b", VArr [num 10; num 99])]).
Proof. vm_compute. reflexivity. Qed.

Example rename_single_member :
  updateJsonAtPath (VObj [("a", num 1)]) [Key "a"] (num 5) (Some "z")
  = Ok (VObj [("z", num 5)]).
Proof. vm_compute. reflexivity. Qed.

(** C2, as stated, fails: on [{"b": [10, 20]}] the path [["b", 5]] raises
    nothing; the array grows to six elements, three of them holes, and the
    document is changed. *)
Lemma out_of_range_index_extends_the_array :
  updateJsonAtPath (VObj [("b", VArr [num 10; num 20])])
    [Key "b"; Index (of_Z 5)] (num 99) None
  = Ok (VObj [("b", VArr [num 10; num 20; VUndef; VUndef; VUndef; num 99])]).
Proof. vm_compute. reflexivity. Qed.

(** C2, amended.  When the walk reaches an array [l], the call raises
    nothing for any last segment.  When the segment names an array index
    [i] (an integer from 0 to 2^32 - 2) at or beyond the length, it
    returns a document in which the same walk reaches the array grown to
    length [i + 1], with the new value at [i] and holes between the old
    elements and it; outside the walk nothing has changed.  When the
    segment names no array index, as 4294967295 does, the value becomes
    a named property of the array, outside its elements, and the
    document is returned as it is. *)
Theorem index_beyond_length_grows_array
        (obj : value) (parentPath : JSONPath) (seg : segment) (l : list value)
        (x : value) (newKey : option string) :
  navigate obj parentPath = Ok (VArr l) ->
  (forall i : Z,
      array_index seg = Some i ->
      Z.of_nat (List.length l) <= i ->
      exists obj',
        updateJsonAtPath obj (parentPath ++ [seg])%list x newKey = Ok obj'
        /\ navigate obj' parentPath
           = Ok (VArr (l ++ repeat VUndef (Z.to_nat i - List.length l) ++ [x])%list)
        /\ List.length (l ++ repeat VUndef (Z.to_nat i - List.length l) ++ [x])%list
           = Z.to_nat (i + 1)
        /\ unchanged_outside parentPath obj obj')
  /\ (array_index seg = None ->
      updateJsonAtPath obj (parentPath ++ [seg])%list x newKey = Ok obj).
Proof.
  intros N. split.
  - intros i Hi B.
    rewrite updateJsonAtPath_snoc, N. cbn [bind].
    unfold write. simpl Array_isArray. cbn iota. unfold set_prop.
    unfold array_index in Hi. rewrite Hi.
    rewrite array_store_beyond by exact B. cbn [bind].
    eexists; split; [reflexivity|].
    destruct (navigate_plug
                (VArr (l ++ repeat VUndef (Z.to_nat i - List.length l) ++ [x])%list)
                parentPath obj (VArr l) N ltac:(discriminate)) as [N' F].
    repeat split; try assumption.
    rewrite !length_app, repeat_length. simpl. lia.
  - intros Hi.
    rewrite updateJsonAtPath_snoc, N. cbn [bind].
    unfold write. simpl Array_isArray. cbn iota. unfold set_prop.
    unfold array_index in Hi. rewrite Hi. cbn [bind].
    now rewrite (plug_navigate parentPath obj (VArr l) N).
Qed.

Lemma index_beyond_length_grows_array_witness :
  exists obj',
    updateJsonAtPath (VObj [("b", VArr [num 10; num 20])])
      ([Key "b"] ++ [Index (of_Z 5)])%list (num 99) None = Ok obj'
    /\ navigate obj' [Key "b"]
       = Ok (VArr ([num 10; num 20] ++ repeat VUndef (Z.to_nat 5 - 2) ++ [num 99])%list)
    /\ List.length ([num 10; num 20] ++ repeat VUndef (Z.to_nat 5 - 2) ++ [num 99])%list
       = Z.to_nat (5 + 1)
    /\ unchanged_outside [Key "b"] (VObj [("b", VArr [num 10; num 20])]) obj'.
Proof.
  refine (proj1 (index_beyond_length_grows_array
                   (VObj [("b", VArr [num 10; num 20])]) [Key "b"] (Index (of_Z 5))
                   [num 10; num 20] (num 99) None _) 5 _ _).
  - vm_compute. reflexivity.
  - vm_compute. reflexivity.
  - simpl. lia.
Defined.

(** The array indices end at 2^32 - 2: the index 4294967295 names no
    element, and the array keeps its two elements. *)
Example index_4294967295_names_no_element :
  array_index (Index (of_Z 4294967295)) = None
  /\ array_index (Index (of_Z 4294967294)) = Some 4294967294
  /\ updateJsonAtPath (VObj [("b", VArr [num 10; num 20])])
       [Key "b"; Index (of_Z 4294967295)] (num 99) None
     = Ok (VObj [("b", VArr [num 10; num 20])]).
Proof. vm_compute. repeat split. Qed.

(** The holes are printed as [null]. *)
Example grown_array_as_text :
  JSON.stringify (VArr [num 10; num 20; VUndef; num 99])
  = "[" ++ JSON.newline ++ "  10," ++ JSON.newline ++ "  20," ++ JSON.newline
    ++ "  null," ++ JSON.newline ++ "  99" ++ JSON.newline ++ "]".
Proof. vm_compute. reflexivity. Qed.

(** A segment that names no array index (a negative number, a fraction,
    [NaN]) makes the write a named property of the array: the elements,
    which are all that is serialised, stay as they are. *)
Example non_index_segment_leaves_elements :
  updateJsonAtPath sample_document [Key "b"; Index (of_decimal true 1 0)] (num 99) None
  = Ok sample_document
  /\ updateJsonAtPath sample_document [Key "b"; Key "x"] (num 99) None
     = Ok sample_document.
Proof. vm_compute. split; reflexivity. Qed.

(** A walk through a scalar or a missing member ends in a TypeError and
    writes nothing. *)
Example walk_through_scalar_throws :
  updateJsonAtPath sample_document [Key "a"; Key "x"] (num 5) None = Throw TypeError
  /\ updateJsonAtPath sample_document [Key "c"; Key "x"] (num 5) None = Throw TypeError
  /\ updateJsonAtPath (num 3) [] (num 5) None = Throw TypeError.
Proof. vm_compute. repeat split. Qed.

(** ** Renaming a member *)

Lemma has_own_delete_other (ps : props) (k j : string) :
  has_own (obj_delete ps k) j = has_own ps j && negb (k =? j)%string.
Proof.
  unfold has_own, obj_delete.
  induction ps as [|[k' v] r IH]; simpl; [reflexivity|].
  destruct (k' =? k)%string eqn:E; simpl.
  - apply String.eqb_eq in E. subst k'. rewrite IH.
    destruct (k =? j)%string; simpl; [now rewrite andb_false_r | reflexivity].
  - rewrite IH. destruct (k' =? j)%string eqn:F; simpl; [|reflexivity].
    apply String.eqb_eq in F. subst k'. now rewrite String.eqb_sym, E.
Qed.

Lemma has_own_delete_same (ps : props) (k : string) :
  has_own (obj_delete ps k) k = false.
Proof.
  rewrite has_own_delete_other, String.eqb_refl. apply andb_false_r.
Qed.

Lemma obj_get_delete_other (ps : props) (k j : string) :
  j <> k -> obj_get (obj_delete ps k) j = obj_get ps j.
Proof.
  intros N. unfold obj_delete.
  induction ps as [|[k' v] r IH]; simpl; [reflexivity|].
  destruct (k' =? k)%string eqn:E; simpl.
  - apply String.eqb_eq in E. subst k'.
    destruct (k =? j)%string eqn:F; [|exact IH].
    apply String.eqb_eq in F. congruence.
  - destruct (k' =? j)%string; [reflexivity|exact IH].
Qed.

Lemma obj_get_app_absent (ps qs : props) (j : string) :
  has_own ps j = false -> obj_get (ps ++ qs)%list j = obj_get qs j.
Proof.
  unfold has_own.
  induction ps as [|[k' v] r IH]; simpl; [reflexivity|].
  destruct (k' =? j)%string; simpl; [discriminate|exact IH].
Qed.

Lemma obj_get_app_present (ps qs : props) (j : string) :
  has_own ps j = true -> obj_get (ps ++ qs)%list j = obj_get ps j.
Proof.
  unfold has_own.
  induction ps as [|[k' v] r IH]; simpl; [discriminate|].
  destruct (k' =? j)%string; simpl; [reflexivity|exact IH].
Qed.

Lemma keys_delete (ps : props) (k : string) :
  keys (obj_delete ps k) = filter (fun j => negb (j =? k)%string) (keys ps).
Proof.
  unfold keys, obj_delete.
  induction ps as [|[k' v] r IH]; simpl; [reflexivity|].
  destruct (k' =? k)%string; simpl; now rewrite IH.
Qed.

(** C3, as stated, fails, for two keys different from ["a"].  The new
    key ["0"] is an array index: the renamed member goes before the other
    keys, not to the end.  The new key [""] is falsy: the guard
    [newKey && ...] sends the call to the plain write and nothing is
    renamed. *)
Lemma index_key_goes_first_and_empty_key_renames_nothing :
  updateJsonAtPath (VObj [("a", num 1); ("b", num 2)]) [Key "a"] (num 5) (Some "0")
  = Ok (VObj [("0", num 5); ("b", num 2)])
  /\ updateJsonAtPath (VObj [("a", num 1); ("b", num 2)]) [Key "a"] (num 5) (Some "")
     = Ok (VObj [("a", num 5); ("b", num 2)]).
Proof. vm_compute. split; reflexivity. Qed.

(** The new key [__proto__] reaches the inherited setter: the member is
    removed and none is added. *)
Example proto_key_adds_nothing :
  updateJsonAtPath (VObj [("a", num 1); ("b", num 2)]) [Key "a"] (num 5) (Some "__proto__")
  = Ok (VObj [("b", num 2)]).
Proof. vm_compute. reflexivity. Qed.

(** A new key that is already a member takes that member's place and
    overwrites its value. *)
Example present_key_is_overwritten :
  updateJsonAtPath (VObj [("a", num 1); ("b", num 2); ("c", num 3)]) [Key "a"] (num 5) (Some "b")
  = Ok (VObj [("b", num 5); ("c", num 3)]).
Proof. vm_compute. reflexivity. Qed.

(** C3, amended.  When the walk reaches an object [ps] that has the
    member [k] named by the last segment, and the new key [k'] is not
    empty, differs from [k], is no member of [ps], no array index and not
    [__proto__], the call returns a document in which the same walk
    reaches [ps] without [k] followed by the member [k'] holding the new
    value: [k] is gone, [k'] is the last key, the keys are those of [ps]
    other than [k], in their order, then [k'], and every other member
    keeps its value. *)
Theorem rename_moves_member_to_end
        (obj : value) (parentPath : JSONPath) (seg : segment) (ps : props)
        (k' : string) (x : value) :
  navigate obj parentPath = Ok (VObj ps) ->
  has_own ps (object_key seg) = true ->
  k' <> "" ->
  k' <> object_key seg ->
  has_own ps k' = false ->
  index_of_string k' = None ->
  k' <> "__proto__" ->
  let k := object_key seg in
  let ps' := (obj_delete ps k ++ [(k', x)])%list in
  exists obj',
    updateJsonAtPath obj (parentPath ++ [seg])%list x (Some k') = Ok obj'
    /\ navigate obj' parentPath = Ok (VObj ps')
    /\ unchanged_outside parentPath obj obj'
    /\ has_own ps' k = false
    /\ obj_get ps' k' = x
    /\ keys ps' = (filter (fun j => negb (j =? k)%string) (keys ps) ++ [k'])%list
    /\ (forall j, j <> k -> j <> k' -> obj_get ps' j = obj_get ps j).
Proof.
  intros N Hk Ne Nk Hk' Ni Np k ps'.
  assert (A : has_own (obj_delete ps k) k' = false).
  { rewrite has_own_delete_other, Hk'. reflexivity. }
  assert (W : write (VObj ps) (segment_value seg) x (Some k') = Ok (VObj ps')).
  { unfold write. simpl Array_isArray. cbn iota.
    assert (T : truthy (Some k') = true).
    { simpl. destruct (k' =? "")%string eqn:E; [|reflexivity].
      apply String.eqb_eq in E. contradiction. }
    assert (D : differs (Some k') (segment_value seg) = true).
    { unfold differs, strict_eq_string. destruct seg as [s|n]; simpl; [|reflexivity].
      destruct (k' =? s)%string eqn:E; [|reflexivity].
      apply String.eqb_eq in E. subst s. now elim Nk. }
    rewrite T, D. simpl andb. cbn iota.
    unfold delete_prop. cbn [bind]. unfold set_prop, key_string.
    fold (object_key seg). fold k.
    unfold obj_set, assign, obj_define. rewrite A. simpl negb.
    destruct (k' =? "__proto__")%string eqn:E.
    { apply String.eqb_eq in E. contradiction. }
    simpl. rewrite Ni. reflexivity. }
  rewrite updateJsonAtPath_snoc, N. cbn [bind]. rewrite W. cbn [bind].
  eexists; split; [reflexivity|].
  destruct (navigate_plug (VObj ps') parentPath obj (VObj ps) N ltac:(discriminate))
    as [N' F].
  repeat split; try assumption.
  - unfold ps', has_own. rewrite existsb_app. fold (has_own (obj_delete ps k) k).
    rewrite has_own_delete_same. simpl.
    destruct (k' =? k)%string eqn:E; [|reflexivity].
    apply String.eqb_eq in E. contradiction.
  - unfold ps'. rewrite obj_get_app_absent by exact A. simpl.
    now rewrite String.eqb_refl.
  - unfold ps', keys. rewrite map_app. fold (keys (obj_delete ps k)).
    now rewrite keys_delete.
  - intros j Nj Nj'. unfold ps'.
    destruct (has_own (obj_delete ps k) j) eqn:H.
    + rewrite obj_get_app_present by exact H. now apply obj_get_delete_other.
    + rewrite obj_get_app_absent by exact H. simpl.
      destruct (k' =? j)%string eqn:E.
      * apply String.eqb_eq in E. congruence.
      * rewrite has_own_delete_other in H.
        assert (Hj : has_own ps j = false).
        { destruct (has_own ps j); [|reflexivity]. simpl in H.
          destruct (k =? j)%string eqn:G; [|discriminate].
          apply String.eqb_eq in G. congruence. }
        clear - Hj. unfold has_own in Hj.
        induction ps as [|[k0 v0] r IH]; simpl in *; [reflexivity|].
        destruct (k0 =? j)%string; simpl in *; [discriminate|]. now apply IH.
Qed.

Lemma rename_moves_member_to_end_witness :
  let k := object_key (Key "a") in
  let ps' := (obj_delete [("a", num 1); ("b", num 2)] k ++ [("z", num 5)])%list in
  exists obj',
    updateJsonAtPath (VObj [("o", VObj [("a", num 1); ("b", num 2)])])
      ([Key "o"] ++ [Key "a"])%list (num 5) (Some "z") = Ok obj'
    /\ navigate obj' [Key "o"] = Ok (VObj ps')
    /\ unchanged_outside [Key "o"] (VObj [("o", VObj [("a", num 1); ("b", num 2)])]) obj'
    /\ has_own ps' k = false
    /\ obj_get ps' "z" = num 5
    /\ keys ps' = (filter (fun j => negb (j =? k)%string) (keys [("a", num 1); ("b", num 2)])
                     ++ ["z"])%list
    /\ (forall j, j <> k -> j <> "z" ->
                  obj_get ps' j = obj_get [("a", num 1); ("b", num 2)] j).
Proof.
  apply (rename_moves_member_to_end
           (VObj [("o", VObj [("a", num 1); ("b", num 2)])]) [Key "o"] (Key "a")
           [("a", num 1); ("b", num 2)] "z" (num 5));
    try (vm_compute; reflexivity); discriminate.
Defined.

(* ================================================================== *)
(** * Claims on the coercion *)
(* ================================================================== *)

(** C6.  With the target type [number] the coercion returns the numeric
    parse [Number(rawInput)], and the number 0 whenever that parse is
    [NaN]; with [null] it returns [null] whatever the input; with
    [boolean] it returns a boolean, which is [true] exactly when the
    input is the boolean [true] or the string ["true"]. *)
Theorem parseValue_coerces (rawInput : value) :
  parseValue rawInput "number"
  = VNum (if isNaN (ToNumber rawInput) then zero else ToNumber rawInput)
  /\ (isNaN (ToNumber rawInput) = true -> parseValue rawInput "number" = VNum zero)
  /\ (isNaN (ToNumber rawInput) = false ->
      parseValue rawInput "number" = VNum (ToNumber rawInput))
  /\ parseValue rawInput "null" = VNull
  /\ exists b : bool,
      parseValue rawInput "boolean" = VBool b
      /\ (b = true <-> rawInput = VBool true \/ rawInput = VStr "true").
Proof.
  assert (N : parseValue rawInput "number"
              = VNum (if isNaN (ToNumber rawInput) then zero else ToNumber rawInput)).
  { unfold parseValue. simpl. now destruct (isNaN (ToNumber rawInput)). }
  repeat split.
  - exact N.
  - intros H. now rewrite N, H.
  - intros H. now rewrite N, H.
  - unfold parseValue. simpl.
    destruct rawInput as [| | b | n | s | l | ps].
    + exists false. split; [reflexivity|]. split; [discriminate|]. intros [H|H]; discriminate.
    + exists false. split; [reflexivity|]. split; [discriminate|]. intros [H|H]; discriminate.
    + exists b. split; [reflexivity|]. split.
      * intros E; subst b. now left.
      * intros [H|H]; [now inversion H | discriminate].
    + exists false. split; [reflexivity|]. split; [discriminate|]. intros [H|H]; discriminate.
    + exists (s =? "true")%string. split; [reflexivity|]. split.
      * intros E. apply String.eqb_eq in E. subst s. now right.
      * intros [H|H]; [discriminate|]. inversion H. reflexivity.
    + exists false. split; [reflexivity|]. split; [discriminate|]. intros [H|H]; discriminate.
    + exists false. split; [reflexivity|]. split; [discriminate|]. intros [H|H]; discriminate.
Qed.

Example parseValue_numbers :
  parseValue (VStr "1.5") "number" = VNum (of_decimal false 15 (-1))
  /\ parseValue (VStr " 12 ") "number" = num 12
  /\ parseValue (VStr "abc") "number" = VNum zero
  /\ parseValue (VStr "") "number" = VNum zero
  /\ parseValue VUndef "number" = VNum zero
  /\ parseValue (VBool true) "number" = num 1
  /\ parseValue (VStr "Infinity") "number" = VNum Infinity.
Proof. vm_compute. repeat split. Qed.

(** C7.  For every boolean, [null] and string [x], coercing the display
    string of [x] back with the type of [x] gives [x]; the display string
    of [null] is empty and that of a boolean is ["true"] or ["false"]. *)
Theorem parseValue_valueToString_roundtrip (x : value) :
  boolean_null_or_string x = true ->
  parseValue (VStr (valueToString x)) (typeOf x) = x
  /\ valueToString VNull = ""
  /\ valueToString (VBool true) = "true"
  /\ valueToString (VBool false) = "false".
Proof.
  intros H. repeat split.
  destruct x as [| | b | n | s | l | ps]; try discriminate.
  - reflexivity.
  - now destruct b.
  - reflexivity.
Qed.

Lemma parseValue_valueToString_roundtrip_witness :
  parseValue (VStr (valueToString (VBool false))) (typeOf (VBool false)) = VBool false
  /\ valueToString VNull = ""
  /\ valueToString (VBool true) = "true"
  /\ valueToString (VBool false) = "false".
Proof.
  apply (parseValue_valueToString_roundtrip (VBool false)). reflexivity.
Defined.

(** For numbers the round trip is not claimed; it holds on these. *)
Example roundtrip_of_some_numbers :
  parseValue (VStr (valueToString (num 42))) "number" = num 42
  /\ parseValue (VStr (valueToString (VNum (of_decimal false 1 (-1))))) "number"
     = VNum (of_decimal false 1 (-1))
  /\ valueToString (VNum (of_decimal false 1 (-1))) = "0.1".
Proof. vm_compute. repeat split. Qed.

(* ================================================================== *)
(** * Claims on the inspector *)
(* ================================================================== *)

(** C5.  A node is not editable exactly when there is no node, when it
    has no rows, or when the type of its first row is ["object"] or
    ["array"]; the inspector shows the "Edit Node" button, and a click
    leads from the inspector to the editor, exactly when the node is
    editable. *)
Theorem isEditableNode_exactly (nodeData : option NodeData) :
  (isEditableNode nodeData = false <->
     nodeData = None
     \/ exists node, nodeData = Some node
          /\ (node_text node = None
              \/ node_text node = Some []
              \/ exists row others, node_text node = Some (row :: others)
                   /\ (row_type row = "object" \/ row_type row = "array")))
  /\ (In EditNode (buttons nodeData) <-> isEditableNode nodeData = true)
  /\ (forall b, click nodeData b Inspecting = Editing
                <-> b = EditNode /\ isEditableNode nodeData = true).
Proof.
  split; [|split].
  - unfold isEditableNode. destruct nodeData as [node|].
    + destruct (node_text node) as [[|row others]|] eqn:T.
      * split; [|reflexivity]. intros _. right. exists node. auto.
      * split.
        -- intros H. right. exists node. split; [reflexivity|]. right; right.
           exists row, others. split; [exact T|].
           destruct (row_type row =? "object")%string eqn:O.
           ++ left. now apply String.eqb_eq.
           ++ destruct (row_type row =? "array")%string eqn:A; [|discriminate].
              right. now apply String.eqb_eq.
        -- intros [H|[node' [E H]]]; [discriminate|].
           inversion E; subst node'. rewrite T in H.
           destruct H as [H|[H|[row' [others' [H [O|A]]]]]]; try discriminate.
           ++ inversion H; subst row'. rewrite O. reflexivity.
           ++ inversion H; subst row'. rewrite A.
              now destruct (_ =? "object")%string.
      * split; [|reflexivity]. intros _. right. exists node. auto.
    + split; [|reflexivity]. intros _. now left.
  - unfold buttons. destruct (isEditableNode nodeData); simpl.
    + split; auto.
    + split; [intros [H|[]]; discriminate | discriminate].
  - intros b. unfold click, buttons.
    destruct (isEditableNode nodeData); destruct b; simpl;
      split; try discriminate; try (intros [? ?]; discriminate); auto.
Qed.

Example containers_are_not_editable :
  isEditableNode (Some {| node_text := Some [sample_row (Some "b") VNull "array"];
                          node_path := Some [Key "b"] |}) = false
  /\ isEditableNode (Some {| node_text := Some [sample_row None VNull "object"];
                             node_path := None |}) = false
  /\ isEditableNode (Some sample_node) = true.
Proof. repeat split. Qed.

Lemma string_append_assoc (a b c : string) : ((a ++ b) ++ c = a ++ (b ++ c))%string.
Proof.
  induction a as [|ch a IH]; simpl; [reflexivity|]. now rewrite IH.
Qed.

Lemma join_brackets (x : string) (l : list string) :
  ("[" ++ join "][" (x :: l) ++ "]"
   = "[" ++ x ++ "]" ++ fold_right (fun y acc => "[" ++ y ++ "]" ++ acc) "" l)%string.
Proof.
  revert x. induction l as [|y l IH]; intros x.
  - reflexivity.
  - change (join "][" (x :: y :: l)) with (x ++ "][" ++ join "][" (y :: l))%string.
    cbn [fold_right]. rewrite <- IH.
    rewrite !string_append_assoc. reflexivity.
Qed.

(** C9.  The path string is ["$"] for an absent or empty path;
    otherwise it is ["$"] followed by every segment between brackets, a
    number as [String] prints it and a string between double quotes. *)
Theorem jsonPathToString_format :
  jsonPathToString None = "$"
  /\ jsonPathToString (Some []) = "$"
  /\ (forall seg rest,
        jsonPathToString (Some (seg :: rest)) = "$" ++ bracketed (seg :: rest))
  /\ jsonPathToString (Some [Key "customer"; Index (of_Z 0)])
     = "$[" ++ JSON.dquote ++ "customer" ++ JSON.dquote ++ "][0]".
Proof.
  split; [reflexivity|]. split; [reflexivity|]. split; [|vm_compute; reflexivity].
  intros seg rest.
  assert (G : forall p, map (fun e => match e with
                                      | VUndef | VNull => ""
                                      | _ => ToString e
                                      end) (map shown_segment p)
                        = map rendered p).
  { induction p as [|s p IH]; simpl; [reflexivity|].
    rewrite IH. now destruct s. }
  assert (B : forall p, fold_right (fun y acc => "[" ++ y ++ "]" ++ acc) ""
                          (map rendered p) = bracketed p).
  { induction p as [|s p IH]; cbn [fold_right map bracketed]; [reflexivity|].
    now rewrite IH. }
  unfold jsonPathToString, Array_join. rewrite G.
  cbn [map bracketed]. rewrite <- B.
  change ("$[" ++ join "][" (rendered seg :: map rendered rest) ++ "]")
    with ("$" ++ ("[" ++ join "][" (rendered seg :: map rendered rest) ++ "]")).
  now rewrite join_brackets.
Qed.

(** ** The content view *)

(** On an object that still inherits from [Object.prototype], the
    assignment of a key that is no member, no array index and not
    [__proto__] appends the member. *)
Lemma assign_appends (ps : props) (k : string) (x : value) :
  has_own ps k = false ->
  index_of_string k = None ->
  (k =? "__proto__")%string = false ->
  assign (ps, true) k x = ((ps ++ [(k, x)])%list, true).
Proof.
  intros H Hi Hp. unfold assign, obj_define. now rewrite H, Hi, Hp.
Qed.

Lemma has_own_app (ps qs : props) (k : string) :
  has_own (ps ++ qs)%list k = has_own ps k || has_own qs k.
Proof. unfold has_own. apply existsb_app. Qed.

Lemma add_row_shown (obj : props * bool) (row : NodeRow) :
  add_row obj row
  = if shown_row row then assign obj (key_string (row_key row)) (row_value row) else obj.
Proof.
  unfold add_row, shown_row.
  destruct (negb (row_type row =? "array")%string
            && negb (row_type row =? "object")%string); simpl;
    [now destruct (truthy (row_key row)) | reflexivity].
Qed.

(** The loop over rows with plain keys appends the shown rows, in row
    order, to an object that has none of their keys. *)
Lemma add_rows_appends (rows : list NodeRow) :
  forall acc : props,
    plain_keys (map fst (map row_member (filter shown_row rows))) = true ->
    (forall k, In k (map fst (map row_member (filter shown_row rows))) ->
               has_own acc k = false) ->
    fold_left add_row rows (acc, true)
    = ((acc ++ map row_member (filter shown_row rows))%list, true).
Proof.
  induction rows as [|row rows IH]; intros acc P D.
  - simpl. now rewrite app_nil_r.
  - cbn [fold_left filter] in *. rewrite add_row_shown.
    destruct (shown_row row) eqn:S; [|now apply IH].
    cbn [map plain_keys] in P.
    change (fst (row_member row)) with (key_string (row_key row)) in P.
    apply andb_prop in P. destruct P as [P Pr].
    apply andb_prop in P. destruct P as [P Pp].
    apply andb_prop in P. destruct P as [Pn Pi].
    assert (Hown : has_own acc (key_string (row_key row)) = false).
    { apply D. cbn [map fst]. now left. }
    rewrite assign_appends.
    + rewrite IH.
      * cbn [map]. now rewrite <- app_assoc.
      * exact Pr.
      * intros k Hk. rewrite has_own_app.
        rewrite (D k) by (cbn [map fst]; now right).
        unfold has_own. cbn [existsb fst orb]. rewrite orb_false_r.
        destruct (key_string (row_key row) =? k)%string eqn:E; [|reflexivity].
        apply String.eqb_eq in E. subst k.
        apply negb_true_iff in Pn. exfalso.
        assert (X : existsb (String.eqb (key_string (row_key row)))
                      (map fst (map row_member (filter shown_row rows))) = true).
        { apply existsb_exists. eexists. split; [exact Hk|]. apply String.eqb_refl. }
        congruence.
    + exact Hown.
    + now destruct (index_of_string (key_string (row_key row))).
    + now apply negb_true_iff in Pp.
Qed.

(** C10, as stated, fails: a key that is an array index is printed
    before the keys of the rows above it. *)
Lemma index_key_row_is_printed_first :
  normalizeNodeData
    (Some [sample_row (Some "b") (num 1) "number"; sample_row (Some "0") (num 2) "number"])
  = "{" ++ JSON.newline
    ++ "  " ++ JSON.dquote ++ "0" ++ JSON.dquote ++ ": 2," ++ JSON.newline
    ++ "  " ++ JSON.dquote ++ "b" ++ JSON.dquote ++ ": 1" ++ JSON.newline
    ++ "}".
Proof. vm_compute. reflexivity. Qed.

(** A row whose key is [__proto__] is not printed, and of two rows with
    one key the first place and the last value are. *)
Example proto_and_repeated_rows :
  normalizeNodeData
    (Some [sample_row (Some "__proto__") (num 1) "number"; sample_row (Some "a") (num 2) "number"])
  = JSON.stringify (VObj [("a", num 2)])
  /\ normalizeNodeData
       (Some [sample_row (Some "a") (num 1) "number"; sample_row (Some "b") (num 2) "number";
              sample_row (Some "a") (num 3) "number"])
     = JSON.stringify (VObj [("a", num 3); ("b", num 2)]).
Proof. vm_compute. split; reflexivity. Qed.

(** C10, amended.  The content is ["{}"] for an absent or empty row list
    and the string form of the value for a single row whose key is [null]
    or empty.  Otherwise, when the keys of the shown rows (no container
    type, a key that is not empty) are pairwise different, no array
    indices and not [__proto__], it is the serialisation of the object
    that has exactly the shown rows as members, in row order. *)
Theorem normalizeNodeData_content (rows : list NodeRow) :
  plain_keys (map fst (map row_member (filter shown_row rows))) = true ->
  normalizeNodeData None = "{}"
  /\ normalizeNodeData (Some []) = "{}"
  /\ normalizeNodeData (Some rows)
     = match rows with
       | [] => "{}"
       | [row] =>
           if truthy (row_key row)
           then JSON.stringify (VObj (map row_member (filter shown_row rows)))
           else ToString (row_value row)
       | _ => JSON.stringify (VObj (map row_member (filter shown_row rows)))
       end.
Proof.
  intros P. split; [reflexivity|]. split; [reflexivity|].
  destruct rows as [|row others]; [reflexivity|].
  unfold normalizeNodeData.
  assert (E : fold_left add_row (row :: others) ([], true)
              = (map row_member (filter shown_row (row :: others)), true)).
  { apply (add_rows_appends (row :: others) []); [exact P | reflexivity]. }
  rewrite E. cbn [fst].
  destruct others as [|row' others].
  - simpl List.length. simpl Nat.eqb. cbn [andb].
    now destruct (truthy (row_key row)).
  - reflexivity.
Qed.

Lemma normalizeNodeData_content_witness :
  normalizeNodeData None = "{}"
  /\ normalizeNodeData (Some []) = "{}"
  /\ normalizeNodeData
       (Some [sample_row (Some "a") (num 1) "number";
              sample_row (Some "list") VNull "array";
              sample_row (Some "b") (VStr "x") "string"])
     = JSON.stringify
         (VObj (map row_member
                  (filter shown_row
                     [sample_row (Some "a") (num 1) "number";
                      sample_row (Some "list") VNull "array";
                      sample_row (Some "b") (VStr "x") "string"]))).
Proof.
  apply (normalizeNodeData_content
           [sample_row (Some "a") (num 1) "number";
            sample_row (Some "list") VNull "array";
            sample_row (Some "b") (VStr "x") "string"]).
  vm_compute. reflexivity.
Defined.

Example content_of_rows :
  normalizeNodeData
    (Some [sample_row (Some "a") (num 1) "number";
           sample_row (Some "list") VNull "array";
           sample_row (Some "b") (VStr "x") "string"])
  = "{" ++ JSON.newline
    ++ "  " ++ JSON.dquote ++ "a" ++ JSON.dquote ++ ": 1," ++ JSON.newline
    ++ "  " ++ JSON.dquote ++ "b" ++ JSON.dquote ++ ": " ++ JSON.dquote ++ "x" ++ JSON.dquote
    ++ JSON.newline ++ "}"
  /\ normalizeNodeData (Some [sample_row None (num 7) "number"]) = "7"
  /\ normalizeNodeData (Some [sample_row None VNull "null"]) = "null".
Proof. vm_compute. repeat split. Qed.

(* ================================================================== *)
(** * Claims on the save handler *)
(* ================================================================== *)

Lemma part_no_space1 (a : ascii) :
  Identifier.is_part a = true -> is_space1 a = false.
Proof. intros P. refute_bytes. Qed.

Lemma part_no_space2_first (a b : ascii) :
  Identifier.is_part a = true -> is_space2 a b = false.
Proof. intros P. refute_bytes. Qed.

Lemma part_no_space2_last (a b : ascii) :
  Identifier.is_part a = true -> is_space2 b a = false.
Proof. intros P. refute_bytes. Qed.

Lemma part_no_space3_first (a b c : ascii) :
  Identifier.is_part a = true -> is_space3 a b c = false.
Proof. intros P. refute_bytes. Qed.

Lemma part_no_space3_last (a b c : ascii) :
  Identifier.is_part a = true -> is_space3 c b a = false.
Proof. intros P. refute_bytes. Qed.

Lemma trimStart_bytes_part (a : ascii) (r : list ascii) :
  Identifier.is_part a = true -> trimStart_bytes (a :: r) = a :: r.
Proof.
  intros P. cbn [trimStart_bytes]. rewrite part_no_space1 by exact P.
  destruct r as [|b [|c r]]; try reflexivity.
  - now rewrite part_no_space2_first.
  - now rewrite part_no_space2_first, part_no_space3_first.
Qed.

Lemma trimEnd_rev_part (a : ascii) (r : list ascii) :
  Identifier.is_part a = true -> trimEnd_rev (a :: r) = a :: r.
Proof.
  intros P. cbn [trimEnd_rev]. rewrite part_no_space1 by exact P.
  destruct r as [|b [|c r]]; try reflexivity.
  - now rewrite part_no_space2_last.
  - now rewrite part_no_space2_last, part_no_space3_last.
Qed.

(** Trimming leaves an identifier as it is. *)
Lemma trim_identifier (k : string) :
  Identifier.test k = true -> trim k = k /\ k <> "".
Proof.
  unfold Identifier.test, trim.
  destruct (bytes k) as [|c r] eqn:B; [discriminate|].
  intros T. apply andb_prop in T. destruct T as [Ts Tr].
  assert (All : forall a, In a (c :: r) -> Identifier.is_part a = true).
  { intros a [E|Hin].
    - subst a. unfold Identifier.is_part. now rewrite Ts.
    - rewrite forallb_forall in Tr. now apply Tr. }
  split.
  - rewrite trimStart_bytes_part by (apply All; now left).
    destruct (rev (c :: r)) as [|a r'] eqn:R.
    + apply (f_equal (@rev ascii)) in R. rewrite rev_involutive in R. discriminate.
    + rewrite trimEnd_rev_part.
      * rewrite <- R, rev_involutive, <- B. apply string_of_list_ascii_of_string.
      * apply All. apply in_rev. rewrite R. now left.
  - intros E. subst k. discriminate.
Qed.

Lemma truthy_nonempty (k : string) : k <> "" -> truthy (Some k) = true.
Proof.
  intros N. simpl. destruct (k =? "")%string eqn:E; [|reflexivity].
  apply String.eqb_eq in E. contradiction.
Qed.

(** A key that matches the pattern passes the validation. *)
Lemma validate_key_identifier (k : string) :
  Identifier.test k = true -> validate_key (Some k) = None.
Proof.
  intros T. destruct (trim_identifier k T) as [Tr N].
  unfold validate_key. rewrite truthy_nonempty by exact N.
  cbn [key_string]. rewrite Tr, T.
  destruct (k =? "")%string eqn:E; [|reflexivity].
  apply String.eqb_eq in E. contradiction.
Qed.

(** A key that is not empty and does not pass is answered by one of the
    two messages. *)
Lemma validate_key_invalid (k : string) :
  k <> "" ->
  trim k = "" \/ Identifier.test k = false ->
  validate_key (Some k)
  = Some (if (trim k =? "")%string then "Key cannot be empty"
          else "Key must be a valid identifier").
Proof.
  intros N H. unfold validate_key. rewrite truthy_nonempty by exact N.
  cbn [key_string].
  destruct (trim k =? "")%string eqn:E; [reflexivity|].
  destruct H as [H|H].
  - rewrite H in E. discriminate.
  - now rewrite H.
Qed.

(** The keys the specification lists. *)
Example validate_key_samples :
  validate_key (Some "1abc") = Some "Key must be a valid identifier"
  /\ validate_key (Some "a-b") = Some "Key must be a valid identifier"
  /\ validate_key (Some "   ") = Some "Key cannot be empty"
  /\ validate_key (Some "_x1") = None
  /\ validate_key (Some "$foo") = None
  /\ validate_key (Some "abcDEF") = None
  /\ validate_key (Some "") = None
  /\ validate_key None = None.
Proof. vm_compute. repeat split. Qed.

(** C4, as stated, fails.  The empty key is not validated: the save
    goes through and the document is rewritten.  And the path check comes
    before the key validation: for a node without a path a key of white
    space surfaces the message of the path check. *)
Lemma empty_key_is_not_validated_and_path_is_checked_first :
  (trim "" = ""
   /\ Identifier.test "" = false
   /\ contents (handleSave (sample_state (Some sample_node) sample_text (Some "")))
      = JSON.stringify (VObj [("a", num 2)])
   /\ hasChanges (handleSave (sample_state (Some sample_node) sample_text (Some ""))) = true
   /\ error (handleSave (sample_state (Some sample_node) sample_text (Some ""))) = None)
  /\ error (handleSave (sample_state
                          (Some {| node_text := node_text sample_node; node_path := None |})
                          sample_text (Some "   ")))
     = Some (Text "Unable to determine node path").
Proof. vm_compute. repeat split. Qed.

(** C4, amended.  For every key that is not empty and is empty after
    trimming or does not match the identifier pattern, the handler
    returns without touching the document text, the stores, the
    selection or the dialog, and shows a message: for a selected node
    with a path, "Key cannot be empty" when the key is white space only
    and "Key must be a valid identifier" otherwise; without one, the
    message of the path check.  (A key that matches the pattern is not
    empty after trimming; an absent or empty key is not validated.) *)
Theorem invalid_key_blocks_save (st : App) (k : string) :
  edit_key (editState st) = Some k ->
  k <> "" ->
  trim k = "" \/ Identifier.test k = false ->
  contents (handleSave st) = contents st
  /\ hasChanges (handleSave st) = hasChanges st
  /\ json (handleSave st) = json st
  /\ selectedNode (handleSave st) = selectedNode st
  /\ toasts (handleSave st) = toasts st
  /\ closed (handleSave st) = closed st
  /\ nodeModalTimer (handleSave st) = nodeModalTimer st
  /\ isLoading (handleSave st) = false
  /\ error (handleSave st)
     = Some (Text (if has_path st
                   then if (trim k =? "")%string then "Key cannot be empty"
                        else "Key must be a valid identifier"
                   else "Unable to determine node path")).
Proof.
  intros K N H. unfold handleSave, has_path.
  cbn [selectedNode editState setError setIsLoading].
  destruct (selectedNode st) as [node|] eqn:Sn; [|repeat split; exact Sn].
  destruct (node_path node) as [path|]; [|repeat split; exact Sn].
  rewrite K, (validate_key_invalid k N H).
  repeat split; exact Sn.
Qed.

Lemma invalid_key_blocks_save_witness :
  let st := sample_state (Some sample_node) sample_text (Some "1abc") in
  contents (handleSave st) = contents st
  /\ hasChanges (handleSave st) = hasChanges st
  /\ json (handleSave st) = json st
  /\ selectedNode (handleSave st) = selectedNode st
  /\ toasts (handleSave st) = toasts st
  /\ closed (handleSave st) = closed st
  /\ nodeModalTimer (handleSave st) = nodeModalTimer st
  /\ isLoading (handleSave st) = false
  /\ error (handleSave st)
     = Some (Text (if has_path st
                   then if (trim "1abc" =? "")%string then "Key cannot be empty"
                        else "Key must be a valid identifier"
                   else "Unable to determine node path")).
Proof.
  apply (invalid_key_blocks_save
           (sample_state (Some sample_node) sample_text (Some "1abc")) "1abc").
  - reflexivity.
  - discriminate.
  - right. vm_compute. reflexivity.
Defined.

(** C8.  The handler never writes the JSON store.  When the text of the
    document does not parse, it leaves the file contents, the change flag
    and the selection as they were, keeps the dialog open, ends with the
    loading flag off and shows a message, the message of the exception (also as a toast) once
    the path check and the key validation have passed.  When the text
    parses to [doc], the file contents are either left as they were, with
    a message shown, or set to the serialisation of a document that
    [updateJsonAtPath] returned for [doc]: nothing in between is
    published. *)
Theorem unparsable_document_is_left_untouched (st : App) :
  json (handleSave st) = json st
  /\ match JSON.parse (json st) with
     | Throw e =>
         contents (handleSave st) = contents st
         /\ hasChanges (handleSave st) = hasChanges st
         /\ selectedNode (handleSave st) = selectedNode st
         /\ closed (handleSave st) = closed st
         /\ isLoading (handleSave st) = false
         /\ (exists m, error (handleSave st) = Some m)
         /\ (has_path st = true ->
             validate_key (edit_key (editState st)) = None ->
             error (handleSave st) = Some (MessageOf e)
             /\ toasts (handleSave st) = (toasts st ++ [ToastError (MessageOf e)])%list)
     | Ok doc =>
         (contents (handleSave st) = contents st
          /\ hasChanges (handleSave st) = hasChanges st
          /\ exists m, error (handleSave st) = Some m)
         \/ (exists path x newKey doc',
               updateJsonAtPath doc path x newKey = Ok doc'
               /\ contents (handleSave st) = JSON.stringify doc'
               /\ hasChanges (handleSave st) = true
               /\ error (handleSave st) = None)
     end.
Proof.
  unfold handleSave, has_path.
  cbn [selectedNode editState json setError setIsLoading].
  destruct (selectedNode st) as [node|] eqn:Sn.
  2:{ split; [reflexivity|].
      destruct (JSON.parse (json st)); [left|]; repeat split; simpl; eauto; congruence. }
  destruct (node_path node) as [path|] eqn:Np.
  2:{ split; [reflexivity|].
      destruct (JSON.parse (json st)); [left|]; repeat split; simpl; eauto; congruence. }
  destruct (validate_key (edit_key (editState st))) as [msg|] eqn:V.
  { split; [reflexivity|].
    destruct (JSON.parse (json st)); [left|]; repeat split; simpl; eauto; congruence. }
  unfold save. cbn [json editState setError setIsLoading].
  destruct (JSON.parse (json st)) as [doc|e]; cbn [bind].
  2:{ split; [reflexivity|]. repeat split; simpl; eauto. }
  destruct (first_row node) as [textRow|e]; cbn [bind].
  2:{ split; [reflexivity|]. left. repeat split; simpl; eauto. }
  match goal with
  | |- context [updateJsonAtPath doc ?p ?x ?nk] =>
      destruct (updateJsonAtPath doc p x nk) as [doc'|e] eqn:U
  end; cbn [bind].
  - split; [reflexivity|]. right. do 4 eexists. split; [exact U|]. repeat split.
  - split; [reflexivity|]. left. repeat split; simpl; eauto.
Qed.

Example unparsable_text_is_reported :
  handleSave (sample_state (Some sample_node) "{" (Some "a"))
  = {| selectedNode := Some sample_node;
       json := "{";
       contents := "{";
       hasChanges := false;
       editState := {| edit_key := Some "a"; edit_value := VStr "2"; edit_type := "number" |};
       isLoading := false;
       error := Some (MessageOf SyntaxError);
       toasts := [ToastError (MessageOf SyntaxError)];
       closed := false;
       nodeModalTimer := false |}.
Proof. vm_compute. reflexivity. Qed.

Example save_of_sample :
  handleSave (sample_state (Some sample_node) sample_text (Some "z"))
  = {| selectedNode :=
         Some {| node_text := Some [sample_row (Some "z") (num 2) "number"];
                 node_path := Some [] |};
       json := sample_text;
       contents := JSON.stringify (VObj [("z", num 2)]);
       hasChanges := true;
       editState := {| edit_key := Some "z"; edit_value := VStr "2"; edit_type := "number" |};
       isLoading := false;
       error := None;
       toasts := [ToastSuccess "Node updated successfully"];
       closed := true;
       nodeModalTimer := true |}.
Proof. vm_compute. reflexivity. Qed.

(* ================================================================== *)
(** * The document that is serialised *)
(* ================================================================== *)

Lemma parse_elements_array (pv : list ascii -> option (value * list ascii)) (fuel : nat) :
  forall l acc v r,
    JSON.parse_elements pv fuel l acc = Some (v, r) -> exists l', v = VArr l'.
Proof.
  induction fuel as [|f IH]; intros l acc v r; simpl; [discriminate|].
  split_matches; try discriminate.
  - intros E; inversion E; eauto.
  - apply IH.
Qed.

Lemma parse_members_object (pv : list ascii -> option (value * list ascii)) (fuel : nat) :
  forall l acc v r,
    JSON.parse_members pv fuel l acc = Some (v, r) -> exists ps, v = VObj ps.
Proof.
  induction fuel as [|f IH]; intros l acc v r; simpl; [discriminate|].
  split_matches; try discriminate.
  - intros E; inversion E; eauto.
  - apply IH.
Qed.

Lemma parse_number_number (l : list ascii) (v : value) (r : list ascii) :
  JSON.parse_number l = Some (v, r) -> exists n, v = VNum n.
Proof.
  unfold JSON.parse_number.
  split_matches; try discriminate; intros E; inversion E; eauto.
Qed.

(** [JSON.parse] returns no [undefined]. *)
Lemma parse_defined (text : string) (v : value) :
  JSON.parse text = Ok v -> v <> VUndef.
Proof.
  unfold JSON.parse.
  destruct (JSON.parse_value _ _) as [[v' r]|] eqn:P; [|discriminate].
  destruct (JSON.skip_ws r); [|discriminate].
  intros E; inversion E; subst v'. clear E.
  destruct (S (List.length (bytes text))) as [|f]; [discriminate|].
  revert P. cbn [JSON.parse_value].
  split_matches; try discriminate;
    try (intros E; inversion E; discriminate).
  - intros E. apply parse_members_object in E. destruct E as [ps E]. now subst v.
  - intros E. apply parse_elements_array in E. destruct E as [l' E]. now subst v.
  - intros E. apply parse_number_number in E. destruct E as [n E]. now subst v.
Qed.

Lemma put_defined (obj seg child : value) :
  obj <> VUndef -> put obj seg child <> VUndef.
Proof.
  intros D. unfold put. destruct obj; try exact D; split_matches; discriminate.
Qed.

Lemma plug_defined (parent : value) :
  forall (path : JSONPath) (obj : value),
    obj <> VUndef -> parent <> VUndef -> plug obj path parent <> VUndef.
Proof.
  induction path as [|seg rest IH]; intros obj D Dp; simpl; [exact Dp|].
  destruct (step obj (segment_value seg)); [|exact D].
  now apply put_defined.
Qed.

(** The document after the call is no [undefined] either, so the handler
    serialises a value that has a text. *)
Lemma updateJsonAtPath_defined (obj : value) (path : JSONPath) (x : value)
      (nk : option string) (obj' : value) :
  obj <> VUndef ->
  updateJsonAtPath obj path x nk = Ok obj' -> obj' <> VUndef.
Proof.
  intros D. unfold updateJsonAtPath.
  destruct (navigate obj (removelast path)) as [cur|]; [|discriminate].
  cbn [bind].
  destruct (write cur _ x nk) as [cur'|] eqn:W; [|discriminate].
  cbn [bind]. intros E; inversion E. apply plug_defined; [exact D|].
  revert W. unfold write, set_prop, delete_prop.
  split_matches; cbn [bind]; try discriminate;
    intros E'; inversion E'; discriminate.
Qed.

(** The key field holds [null] or a string that is not empty. *)
Lemma key_field_never_empty (textRow : NodeRow) (text : string) (es : EditNodeModalState) :
  edit_key (load_editState textRow) <> Some ""
  /\ edit_key (change_key text es) <> Some "".
Proof.
  split.
  - unfold load_editState. cbn [edit_key].
    destruct (row_key textRow) as [k|]; simpl; [|discriminate].
    destruct (k =? "")%string eqn:E; simpl; [discriminate|].
    intros H; inversion H; subst k. discriminate.
  - unfold change_key. cbn [edit_key].
    destruct (text =? "")%string eqn:E; [discriminate|].
    intros H; inversion H; subst text. discriminate.
Qed.

(** Numbers as the language prints them. *)
Example number_strings :
  map (fun s => NumberToString (StringToNumber s))
    ["1.5"; "0.1"; "100"; "1e21"; "123456789012345680000"; "0.000001"; "1e-7";
     "-12.25"; "5e-324"; "1.7976931348623157e308"; "0.30000000000000004";
     "9007199254740993"; "1e400"; "abc"; "-0"; "0x1F"; " 42 "; ".5"; "1e23"]
  = ["1.5"; "0.1"; "100"; "1e+21"; "123456789012345680000"; "0.000001"; "1e-7";
     "-12.25"; "5e-324"; "1.7976931348623157e+308"; "0.30000000000000004";
     "9007199254740992"; "Infinity"; "NaN"; "0"; "31"; "42"; "0.5"; "1e+23"].
Proof. vm_compute. reflexivity. Qed.

(** A text as [JSON.parse] reads it and [JSON.stringify] prints it: the
    array-index key comes first and the repeated key keeps its first
    place and its last value. *)
Example parse_and_stringify :
  JSON.parse ("{" ++ JSON.quote "b" ++ ": [1, true, null], " ++ JSON.quote "0" ++ ": {}, "
              ++ JSON.quote "b" ++ ": [] }")
  = Ok (VObj [("0", VObj []); ("b", VArr [])])
  /\ JSON.stringify (VObj [("a", num 1); ("b", VArr [num 10; VStr "x"]); ("c", VObj [])])
     = "{" ++ JSON.newline
       ++ "  " ++ JSON.quote "a" ++ ": 1," ++ JSON.newline
       ++ "  " ++ JSON.quote "b" ++ ": [" ++ JSON.newline
       ++ "    10," ++ JSON.newline
       ++ "    " ++ JSON.quote "x" ++ JSON.newline
       ++ "  ]," ++ JSON.newline
       ++ "  " ++ JSON.quote "c" ++ ": {}" ++ JSON.newline
       ++ "}"
  /\ JSON.parse "[1, 2" = Throw SyntaxError
  /\ JSON.parse "" = Throw SyntaxError.
Proof. vm_compute. repeat split. Qed.

(* ================================================================== *)
(** * The keys of an object stay pairwise different *)
(* ================================================================== *)

Lemma keys_insert_index (ps : props) (i : Z) (k : string) (x : value) (j : string) :
  In j (keys (obj_insert_index ps i k x)) <-> j = k \/ In j (keys ps).
Proof.
  induction ps as [|[k' v] r IH]; simpl.
  - intuition.
  - destruct (index_of_string k') as [i'|]; [destruct (i' <? i)|]; simpl;
      rewrite ?IH; intuition.
Qed.

Lemma obj_insert_index_NoDup (ps : props) (i : Z) (k : string) (x : value) :
  ~ In k (keys ps) -> NoDup (keys ps) -> NoDup (keys (obj_insert_index ps i k x)).
Proof.
  induction ps as [|[k' v] r IH]; simpl; intros Nk D.
  - constructor; [intros []|constructor].
  - inversion D as [|? ? Nk' Dr]; subst.
    destruct (index_of_string k') as [i'|]; [destruct (i' <? i)|]; simpl.
    + constructor.
      * rewrite keys_insert_index. intros [E|H]; [subst; apply Nk; now left|contradiction].
      * apply IH; [intros H; apply Nk; now right|exact Dr].
    + constructor; [exact Nk|exact D].
    + constructor; [exact Nk|exact D].
Qed.

Lemma obj_define_NoDup (ps : props) (k : string) (x : value) :
  NoDup (keys ps) -> NoDup (keys (obj_define ps k x)).
Proof.
  intros D. unfold obj_define.
  destruct (has_own ps k) eqn:H.
  - now rewrite obj_replace_keys.
  - assert (Nk : ~ In k (keys ps)).
    { intros Hin. apply has_own_In in Hin. congruence. }
    destruct (index_of_string k) as [i|].
    + now apply obj_insert_index_NoDup.
    + unfold keys. rewrite map_app. simpl.
      apply NoDup_app; [exact D | constructor; [intros []|constructor] | ].
      intros a Ha [E|[]]. subst a. contradiction.
Qed.

Lemma obj_set_NoDup (ps : props) (k : string) (x : value) :
  NoDup (keys ps) -> NoDup (keys (obj_set ps k x)).
Proof.
  intros D. unfold obj_set, assign.
  destruct (true && negb (has_own ps k) && (k =? "__proto__")%string); simpl;
    [exact D | now apply obj_define_NoDup].
Qed.

Lemma obj_delete_NoDup (ps : props) (k : string) :
  NoDup (keys ps) -> NoDup (keys (obj_delete ps k)).
Proof.
  intros D. rewrite keys_delete. now apply NoDup_filter.
Qed.

(** The write to an object leaves an object, and keys that were pairwise
    different stay so. *)
Lemma write_NoDup (ps : props) (lastSegment x : value) (nk : option string) :
  NoDup (keys ps) ->
  exists ps', write (VObj ps) lastSegment x nk = Ok (VObj ps') /\ NoDup (keys ps').
Proof.
  intros D. unfold write. simpl Array_isArray. cbn iota.
  destruct (truthy nk && differs nk lastSegment); simpl.
  - eexists; split; [reflexivity|]. now apply obj_set_NoDup, obj_delete_NoDup.
  - eexists; split; [reflexivity|]. now apply obj_set_NoDup.
Qed.

(* ================================================================== *)
(** * Further properties of the mutation at a path *)
(* ================================================================== *)

Import EditorFields PathNotions.

Lemma step_throws_TypeError (cur seg : value) (e : exn) :
  step cur seg = Throw e -> e = TypeError.
Proof.
  unfold step, get_prop. destruct cur; simpl; intros H; inversion H; reflexivity.
Qed.

Lemma navigate_throws_TypeError (p : JSONPath) :
  forall (obj : value) (e : exn), navigate obj p = Throw e -> e = TypeError.
Proof.
  induction p as [|seg rest IH]; intros obj e; cbn [navigate]; [discriminate|].
  destruct (step obj (segment_value seg)) as [next|e'] eqn:S; cbn [bind].
  - apply IH.
  - intros H; inversion H; subst. now apply step_throws_TypeError in S.
Qed.

(** The write returns on an array and on an object, with an array or an
    object. *)
Lemma write_container (cur seg x : value) (nk : option string) :
  is_container cur = true ->
  exists cur', write cur seg x nk = Ok cur' /\ is_container cur' = true.
Proof.
  unfold write.
  destruct cur as [| | b | n | s | l | ps]; simpl; try discriminate; intros _.
  - destruct (index_of_string _); eexists; split; reflexivity.
  - destruct (truthy nk && differs nk seg); simpl; eexists; split; reflexivity.
Qed.

Lemma write_throws_TypeError (cur seg x : value) (nk : option string) (e : exn) :
  write cur seg x nk = Throw e -> e = TypeError.
Proof.
  unfold write, set_prop, delete_prop.
  destruct cur as [| | b | n | s | l | ps]; simpl;
    split_matches; cbn [bind]; intros H; inversion H; try reflexivity;
    split_matches; inversion H; reflexivity.
Qed.

(** On every other value the write returns only through the setter of
    [__proto__], which leaves a boolean, a number and a string alone. *)
Lemma write_primitive (cur seg x : value) (nk : option string) (cur' : value) :
  is_container cur = false ->
  write cur seg x nk = Ok cur' ->
  cur' = cur
  /\ is_scalar cur = true
  /\ cur <> VNull
  /\ (ToString seg = "__proto__" \/ nk = Some "__proto__").
Proof.
  intros C. unfold write.
  destruct cur as [| | b | n | s | l | ps]; try discriminate;
    cbn [Array_isArray]; cbn iota;
    destruct (truthy nk && differs nk seg) eqn:T;
    cbn [delete_prop set_prop bind]; try discriminate.
  all: try (destruct ((_ =? "length")%string || _); cbn [bind set_prop];
            try discriminate).
  all: match goal with
       | |- context [(?k =? "__proto__")%string] =>
           destruct (k =? "__proto__")%string eqn:E; [|discriminate]
       end;
    apply String.eqb_eq in E; intros H; inversion H;
    (split; [reflexivity|]); (split; [reflexivity|]); (split; [discriminate|]).
  all: try (left; exact E).
  all: right; destruct nk as [k|]; [simpl in E; now subst k | discriminate].
Qed.

(** X1.  Where the own properties decide every read of the walk along
    the segments before the last one, the call throws nothing but a
    TypeError; it returns whenever that walk ends on an array or an
    object; and when it returns, the walk has ended on an array or an
    object, or else on a boolean, a number or a string with the key
    [__proto__] to write, whose setter leaves the document as it is. *)
Theorem updateJsonAtPath_returns_exactly
        (obj : value) (path : JSONPath) (x : value) (nk : option string) :
  reads_own obj (removelast path) = true ->
  (forall e, updateJsonAtPath obj path x nk = Throw e -> e = TypeError)
  /\ (forall cur, navigate obj (removelast path) = Ok cur ->
                  is_container cur = true ->
                  exists obj', updateJsonAtPath obj path x nk = Ok obj')
  /\ (forall obj',
        updateJsonAtPath obj path x nk = Ok obj' ->
        exists cur,
          navigate obj (removelast path) = Ok cur
          /\ (is_container cur = true
              \/ (is_scalar cur = true
                  /\ cur <> VNull
                  /\ obj' = obj
                  /\ (ToString (path_at path (List.length path - 1)) = "__proto__"
                      \/ nk = Some "__proto__")))).
Proof.
  intros _. unfold updateJsonAtPath.
  destruct (navigate obj (removelast path)) as [cur|e0] eqn:N; cbn [bind].
  - destruct (write cur (path_at path (List.length path - 1)) x nk) as [cur'|e'] eqn:W;
      cbn [bind].
    + split; [discriminate|]. split; [eauto|].
      intros obj' H. inversion H as [Ho]. exists cur. split; [reflexivity|].
      destruct (is_container cur) eqn:C; [now left|right].
      destruct (write_primitive cur _ x nk cur' C W) as (E & Sc & Nn & K).
      subst cur'. rewrite (plug_navigate (removelast path) obj cur N).
      repeat split; assumption.
    + pose proof (write_throws_TypeError cur _ x nk e' W) as Et. subst e'. split.
      * intros e H; now inversion H.
      * split; [|discriminate].
        intros c E C. inversion E; subst c.
        destruct (write_container cur (path_at path (List.length path - 1)) x nk C)
          as [cur' [W' _]].
        rewrite W in W'. discriminate.
  - apply navigate_throws_TypeError in N. subst e0. split.
    + intros e H; now inversion H.
    + split; [intros c E; discriminate | discriminate].
Qed.

Lemma updateJsonAtPath_returns_exactly_witness :
  (forall e, updateJsonAtPath sample_document [Key "b"; Index (of_Z 0)] (num 5) None = Throw e ->
             e = TypeError)
  /\ (forall cur, navigate sample_document (removelast [Key "b"; Index (of_Z 0)]) = Ok cur ->
                  is_container cur = true ->
                  exists obj',
                    updateJsonAtPath sample_document [Key "b"; Index (of_Z 0)] (num 5) None
                    = Ok obj')
  /\ (forall obj',
        updateJsonAtPath sample_document [Key "b"; Index (of_Z 0)] (num 5) None = Ok obj' ->
        exists cur,
          navigate sample_document (removelast [Key "b"; Index (of_Z 0)]) = Ok cur
          /\ (is_container cur = true
              \/ (is_scalar cur = true
                  /\ cur <> VNull
                  /\ obj' = sample_document
                  /\ (ToString (path_at [Key "b"; Index (of_Z 0)]
                                  (List.length [Key "b"; Index (of_Z 0)] - 1)) = "__proto__"
                      \/ None = Some "__proto__")))).
Proof.
  apply (updateJsonAtPath_returns_exactly
           sample_document [Key "b"; Index (of_Z 0)] (num 5) None).
  vm_compute. reflexivity.
Defined.

Lemma write_back (x : value) (p : JSONPath) :
  forall v : value,
    p <> [] -> resolve v p = Some x -> updateJsonAtPath v p x None = Ok v.
Proof.
  induction p as [| seg | seg seg' rest IH] using path_ind; intros v NE R.
  - congruence.
  - rewrite updateJsonAtPath_last. unfold write.
    destruct v as [| | b | n | str | l | ps]; simpl in R; try discriminate.
    + unfold array_index in R. simpl Array_isArray. cbn iota. unfold set_prop.
      destruct (index_of_string (NumberToString (ToNumber (segment_value seg)))) as [i|] eqn:Hi;
        [|discriminate].
      destruct (i <? Z.of_nat (List.length l)) eqn:B; [|discriminate].
      apply Z.ltb_lt in B. rewrite array_store_inside by exact B.
      inversion R as [Rx]. now rewrite list_store_nth.
    + fold (object_key seg) in *.
      destruct (has_own ps (object_key seg)) eqn:H; [|discriminate].
      simpl. rewrite (obj_set_existing _ _ _ H).
      inversion R as [Rx]. now rewrite obj_replace_get.
  - rewrite updateJsonAtPath_cons.
    destruct v as [| | b | n | str | l | ps]; simpl in R; try discriminate.
    + unfold array_index in R. rewrite step_array.
      destruct (index_of_string (NumberToString (ToNumber (segment_value seg)))) as [i|] eqn:Hi;
        [|discriminate].
      destruct (i <? Z.of_nat (List.length l)); [|discriminate].
      cbn [bind]. rewrite (IH _ ltac:(discriminate) R). cbn [bind].
      unfold put. rewrite Hi. now rewrite list_store_nth.
    + fold (object_key seg) in *. rewrite step_object.
      destruct (has_own ps (object_key seg)); [|discriminate].
      cbn [bind]. fold (object_key seg).
      rewrite (IH _ ltac:(discriminate) R). cbn [bind].
      unfold put. fold (object_key seg). now rewrite obj_replace_get.
Qed.

(** X2.  Writing at a path into the document the value that is there
    already leaves the document as it is. *)
Theorem updateJsonAtPath_same_value (x : value) (p : JSONPath) (v : value) :
  p <> [] ->
  resolve v p = Some x ->
  updateJsonAtPath v p x None = Ok v.
Proof.
  intros NE R. destruct p as [|seg rest]; [congruence|].
  now apply write_back.
Qed.

Lemma updateJsonAtPath_same_value_witness :
  updateJsonAtPath sample_document [Key "b"; Index (of_Z 1)] (num 20) None
  = Ok sample_document.
Proof.
  apply (updateJsonAtPath_same_value (num 20) [Key "b"; Index (of_Z 1)] sample_document).
  - discriminate.
  - vm_compute. reflexivity.
Defined.

(** X3.  Of two writes at one path into the document the second wins:
    after the first the path is still a path into the document, and the
    second gives what it gives on the document before the first. *)
Theorem updateJsonAtPath_second_write_wins (x y : value) (p : JSONPath) (v s : value) :
  p <> [] ->
  resolve v p = Some s ->
  exists v',
    updateJsonAtPath v p x None = Ok v'
    /\ updateJsonAtPath v' p y None = updateJsonAtPath v p y None.
Proof.
  revert v.
  induction p as [| seg | seg seg' rest IH] using path_ind; intros v NE R.
  - congruence.
  - rewrite !updateJsonAtPath_last. unfold write.
    destruct v as [| | b | n | str | l | ps]; simpl in R; try discriminate.
    + unfold array_index in R. simpl Array_isArray. cbn iota. unfold set_prop.
      destruct (index_of_string (NumberToString (ToNumber (segment_value seg)))) as [i|] eqn:Hi;
        [|discriminate].
      destruct (i <? Z.of_nat (List.length l)) eqn:B; [|discriminate].
      apply Z.ltb_lt in B.
      eexists; split; [reflexivity|].
      rewrite updateJsonAtPath_last. unfold write. simpl Array_isArray. cbn iota.
      unfold set_prop. rewrite Hi.
      rewrite (array_store_inside l i x B).
      rewrite (array_store_inside l i y B).
      rewrite array_store_inside by (now rewrite list_store_length).
      now rewrite list_store_twice.
    + fold (object_key seg) in *.
      destruct (has_own ps (object_key seg)) eqn:H; [|discriminate].
      simpl. eexists; split; [reflexivity|].
      rewrite updateJsonAtPath_last. unfold write. simpl.
      fold (object_key seg).
      rewrite (obj_set_existing ps _ x H), (obj_set_existing ps _ y H).
      rewrite obj_set_existing by (now rewrite obj_replace_has_own).
      now rewrite obj_replace_twice.
  - rewrite !updateJsonAtPath_cons.
    destruct v as [| | b | n | str | l | ps]; simpl in R; try discriminate.
    + unfold array_index in R. rewrite step_array.
      destruct (index_of_string (NumberToString (ToNumber (segment_value seg)))) as [i|] eqn:Hi;
        [|discriminate].
      pose proof (index_of_string_nonneg _ _ Hi) as Pi.
      destruct (i <? Z.of_nat (List.length l)) eqn:B; [|discriminate].
      apply Z.ltb_lt in B.
      destruct (IH _ ltac:(discriminate) R) as [c' [U1 U2]].
      cbn [bind]. rewrite U1. cbn [bind].
      exists (VArr (list_store l (Z.to_nat i) c')). split.
      { unfold put. now rewrite Hi. }
      rewrite updateJsonAtPath_cons, step_array, Hi. cbn [bind].
      rewrite list_store_nth_same by lia. rewrite U2.
      destruct (updateJsonAtPath (nth (Z.to_nat i) l VUndef) (seg' :: rest) y None);
        cbn [bind]; [|reflexivity].
      unfold put. rewrite Hi. now rewrite list_store_twice.
    + fold (object_key seg) in *. rewrite step_object. fold (object_key seg).
      destruct (has_own ps (object_key seg)) eqn:H; [|discriminate].
      destruct (IH _ ltac:(discriminate) R) as [c' [U1 U2]].
      cbn [bind]. rewrite U1. cbn [bind].
      exists (VObj (obj_replace ps (object_key seg) c')). split; [reflexivity|].
      rewrite updateJsonAtPath_cons, step_object. fold (object_key seg). cbn [bind].
      rewrite obj_get_replace_same by exact H. rewrite U2.
      destruct (updateJsonAtPath (obj_get ps (object_key seg)) (seg' :: rest) y None);
        cbn [bind]; [|reflexivity].
      unfold put. fold (object_key seg). now rewrite obj_replace_twice.
Qed.

Lemma updateJsonAtPath_second_write_wins_witness :
  exists v',
    updateJsonAtPath sample_document [Key "b"; Index (of_Z 1)] (num 5) None = Ok v'
    /\ updateJsonAtPath v' [Key "b"; Index (of_Z 1)] (VStr "x") None
       = updateJsonAtPath sample_document [Key "b"; Index (of_Z 1)] (VStr "x") None.
Proof.
  apply (updateJsonAtPath_second_write_wins
           (num 5) (VStr "x") [Key "b"; Index (of_Z 1)] sample_document (num 20)).
  - discriminate.
  - vm_compute. reflexivity.
Defined.

(** ** Writes at two places *)

Lemma resolve_cons (v : value) (seg : segment) (rest : JSONPath) (s : value) :
  resolve v (seg :: rest) = Some s ->
  has_child v seg = true /\ resolve (child v seg) rest = Some s.
Proof.
  destruct v as [| | b | n | str | l | ps]; simpl; try discriminate.
  - destruct (array_index seg) as [i|]; [|discriminate].
    destruct (i <? Z.of_nat (List.length l)); [auto|discriminate].
  - destruct (has_own ps (object_key seg)); [auto|discriminate].
Qed.

(** The write at a path whose first segment names a child: the write in
    the child, and the child put back. *)
Lemma written_cons (v : value) (seg : segment) (rest : JSONPath) (x : value) :
  has_child v seg = true ->
  written v (seg :: rest) x
  = (c' <- written (child v seg) rest x ;; Ok (put v (segment_value seg) c')).
Proof.
  intros H. unfold written at 1.
  destruct rest as [|seg' rest].
  - rewrite updateJsonAtPath_last. cbn [written bind]. unfold write, put.
    destruct v as [| | b | n | str | l | ps]; simpl in H; try discriminate.
    + unfold array_index in H. simpl Array_isArray. cbn iota. unfold set_prop.
      destruct (index_of_string (NumberToString (ToNumber (segment_value seg)))) as [i|];
        [|discriminate].
      apply Z.ltb_lt in H. now rewrite array_store_inside.
    + simpl. fold (object_key seg). now rewrite obj_set_existing.
  - rewrite updateJsonAtPath_cons. unfold written.
    destruct v as [| | b | n | str | l | ps]; simpl in H; try discriminate.
    + rewrite step_array. unfold child, array_index.
      now destruct (index_of_string (NumberToString (ToNumber (segment_value seg)))).
    + rewrite step_object. reflexivity.
Qed.

Lemma written_returns (x : value) (p : JSONPath) (v s : value) :
  resolve v p = Some s -> exists v', written v p x = Ok v'.
Proof.
  intros R. destruct p as [|seg rest]; [simpl; eauto|].
  destruct (update_in_place x (seg :: rest) v s ltac:(discriminate) R) as [v' [U _]].
  exists v'. exact U.
Qed.

Lemma has_child_put (v : value) (seg seg' : segment) (c : value) :
  has_child (put v (segment_value seg) c) seg' = has_child v seg'.
Proof.
  unfold put, has_child.
  destruct v as [| | b | n | str | l | ps]; try reflexivity.
  - destruct (index_of_string (NumberToString (ToNumber (segment_value seg))));
      [|reflexivity].
    now rewrite list_store_length.
  - now rewrite obj_replace_has_own.
Qed.

Lemma list_store_swap (l : list value) (i j : nat) (a b : value) :
  i <> j ->
  list_store (list_store l i a) j b = list_store (list_store l j b) i a.
Proof.
  revert i j; induction l as [|c r IH]; intros [|i] [|j] N; simpl; auto; try congruence.
  f_equal. apply IH. congruence.
Qed.

Lemma obj_replace_swap (ps : props) (k j : string) (a b : value) :
  k <> j ->
  obj_replace (obj_replace ps k a) j b = obj_replace (obj_replace ps j b) k a.
Proof.
  intros N. induction ps as [|[k' v] r IH]; simpl; [reflexivity|].
  destruct (k' =? k)%string eqn:E; destruct (k' =? j)%string eqn:F; simpl;
    rewrite ?E, ?F; try reflexivity.
  - apply String.eqb_eq in E. apply String.eqb_eq in F. congruence.
  - now rewrite IH.
Qed.

Lemma writes_apart_commute (x y : value) :
  forall (p q : JSONPath) (v s t : value),
    resolve v p = Some s ->
    resolve v q = Some t ->
    apart v p q = true ->
    exists v1 v2 w,
      written v p x = Ok v1 /\ written v q y = Ok v2
      /\ written v1 q y = Ok w /\ written v2 p x = Ok w.
Proof.
  induction p as [|seg p' IH]; intros q v s t Rp Rq A; [discriminate|].
  destruct q as [|seg' q']; [discriminate|].
  destruct (resolve_cons _ _ _ _ Rp) as [Hp Rp'].
  destruct (resolve_cons _ _ _ _ Rq) as [Hq Rq'].
  rewrite (written_cons v seg p' x Hp), (written_cons v seg' q' y Hq).
  destruct v as [| | b | n | str | l | ps]; simpl in Hp, Hq; try discriminate.
  - (* array *)
    cbn [apart] in A. unfold child in *.
    destruct (array_index seg) as [i|] eqn:Hi; [|discriminate].
    destruct (array_index seg') as [j|] eqn:Hj; [|discriminate].
    pose proof (index_of_string_nonneg _ _ Hi) as Pi.
    pose proof (index_of_string_nonneg _ _ Hj) as Pj.
    apply Z.ltb_lt in Hp. apply Z.ltb_lt in Hq.
    assert (P1 : forall c, put (VArr l) (segment_value seg) c
                           = VArr (list_store l (Z.to_nat i) c)).
    { intros c. unfold put. unfold array_index in Hi. now rewrite Hi. }
    assert (P2 : forall c, put (VArr l) (segment_value seg') c
                           = VArr (list_store l (Z.to_nat j) c)).
    { intros c. unfold put. unfold array_index in Hj. now rewrite Hj. }
    assert (Q1 : forall l' c, put (VArr l') (segment_value seg) c
                              = VArr (list_store l' (Z.to_nat i) c)).
    { intros l' c. unfold put. unfold array_index in Hi. now rewrite Hi. }
    assert (Q2 : forall l' c, put (VArr l') (segment_value seg') c
                              = VArr (list_store l' (Z.to_nat j) c)).
    { intros l' c. unfold put. unfold array_index in Hj. now rewrite Hj. }
    destruct (i =? j) eqn:E.
    + apply Z.eqb_eq in E. subst j.
      destruct (IH q' _ s t Rp' Rq' A) as [c1 [c2 [cw [U1 [U2 [U3 U4]]]]]].
      rewrite U1, U2. cbn [bind]. rewrite P1, P2.
      exists (VArr (list_store l (Z.to_nat i) c1)),
             (VArr (list_store l (Z.to_nat i) c2)),
             (VArr (list_store l (Z.to_nat i) cw)).
      repeat split.
      * rewrite written_cons by (simpl; rewrite Hj, list_store_length; now apply Z.ltb_lt).
        unfold child. rewrite Hj, list_store_nth_same by lia.
        rewrite U3. cbn [bind]. now rewrite Q2, list_store_twice.
      * rewrite written_cons by (simpl; rewrite Hi, list_store_length; now apply Z.ltb_lt).
        unfold child. rewrite Hi, list_store_nth_same by lia.
        rewrite U4. cbn [bind]. now rewrite Q1, list_store_twice.
    + apply Z.eqb_neq in E.
      destruct (written_returns x p' _ s Rp') as [c1 U1].
      destruct (written_returns y q' _ t Rq') as [c2 U2].
      rewrite U1, U2. cbn [bind]. rewrite P1, P2.
      exists (VArr (list_store l (Z.to_nat i) c1)),
             (VArr (list_store l (Z.to_nat j) c2)),
             (VArr (list_store (list_store l (Z.to_nat i) c1) (Z.to_nat j) c2)).
      assert (Nij : Z.to_nat i <> Z.to_nat j) by lia.
      repeat split.
      * rewrite written_cons by (simpl; rewrite Hj, list_store_length; now apply Z.ltb_lt).
        unfold child. rewrite Hj, list_store_nth_other by exact Nij.
        rewrite U2. cbn [bind]. now rewrite Q2.
      * rewrite written_cons by (simpl; rewrite Hi, list_store_length; now apply Z.ltb_lt).
        unfold child. rewrite Hi, list_store_nth_other by congruence.
        rewrite U1. cbn [bind]. rewrite Q1. now rewrite list_store_swap.
  - (* object *)
    cbn [apart] in A. unfold child in *.
    assert (Q : forall ps' sg c, put (VObj ps') (segment_value sg) c
                                 = VObj (obj_replace ps' (object_key sg) c))
      by reflexivity.
    destruct (object_key seg =? object_key seg')%string eqn:E.
    + apply String.eqb_eq in E.
      rewrite <- E in Rq'.
      destruct (IH q' _ s t Rp' Rq' A) as [c1 [c2 [cw [U1 [U2 [U3 U4]]]]]].
      rewrite <- E. rewrite U1, U2. cbn [bind]. rewrite !Q. rewrite <- E.
      exists (VObj (obj_replace ps (object_key seg) c1)),
             (VObj (obj_replace ps (object_key seg) c2)),
             (VObj (obj_replace ps (object_key seg) cw)).
      repeat split.
      * rewrite written_cons by (simpl; now rewrite obj_replace_has_own).
        unfold child. rewrite <- E. rewrite obj_get_replace_same by exact Hp.
        rewrite U3. cbn [bind]. rewrite Q, <- E. now rewrite obj_replace_twice.
      * rewrite written_cons by (simpl; now rewrite obj_replace_has_own).
        unfold child. rewrite obj_get_replace_same by exact Hp.
        rewrite U4. cbn [bind]. rewrite Q. now rewrite obj_replace_twice.
    + apply String.eqb_neq in E.
      destruct (written_returns x p' _ s Rp') as [c1 U1].
      destruct (written_returns y q' _ t Rq') as [c2 U2].
      rewrite U1, U2. cbn [bind]. rewrite !Q.
      exists (VObj (obj_replace ps (object_key seg) c1)),
             (VObj (obj_replace ps (object_key seg') c2)),
             (VObj (obj_replace (obj_replace ps (object_key seg) c1) (object_key seg') c2)).
      repeat split.
      * rewrite written_cons by (simpl; now rewrite obj_replace_has_own).
        unfold child. rewrite obj_get_replace_other by congruence.
        rewrite U2. cbn [bind]. now rewrite Q.
      * rewrite written_cons by (simpl; now rewrite obj_replace_has_own).
        unfold child. rewrite obj_get_replace_other by exact E.
        rewrite U1. cbn [bind]. rewrite Q. now rewrite obj_replace_swap.
Qed.

(** X4.  Writes at two paths into the document that leave each other
    (two different elements of one array, or two different members of one
    object, after a common walk) can be made in either order: both orders
    return, and they give the same document. *)
Theorem updateJsonAtPath_writes_apart_commute
        (x y : value) (p q : JSONPath) (v s t : value) :
  resolve v p = Some s ->
  resolve v q = Some t ->
  apart v p q = true ->
  exists v1 v2 w,
    updateJsonAtPath v p x None = Ok v1
    /\ updateJsonAtPath v q y None = Ok v2
    /\ updateJsonAtPath v1 q y None = Ok w
    /\ updateJsonAtPath v2 p x None = Ok w.
Proof.
  intros Rp Rq A.
  destruct (writes_apart_commute x y p q v s t Rp Rq A) as [v1 [v2 [w H]]].
  destruct p as [|seg p']; [discriminate|].
  destruct q as [|seg' q']; [discriminate|].
  exists v1, v2, w. exact H.
Qed.

Lemma updateJsonAtPath_writes_apart_commute_witness :
  exists v1 v2 w,
    updateJsonAtPath sample_document [Key "b"; Index (of_Z 0)] (num 5) None = Ok v1
    /\ updateJsonAtPath sample_document [Key "b"; Index (of_Z 1)] (VStr "x") None = Ok v2
    /\ updateJsonAtPath v1 [Key "b"; Index (of_Z 1)] (VStr "x") None = Ok w
    /\ updateJsonAtPath v2 [Key "b"; Index (of_Z 0)] (num 5) None = Ok w.
Proof.
  apply (updateJsonAtPath_writes_apart_commute
           (num 5) (VStr "x") [Key "b"; Index (of_Z 0)] [Key "b"; Index (of_Z 1)]
           sample_document (num 10) (num 20));
    vm_compute; reflexivity.
Defined.

(** ** Renaming onto a member *)

(** The rename branch on an object. *)
Lemma write_rename (ps : props) (seg : segment) (k' : string) (x : value) :
  k' <> "" ->
  k' <> object_key seg ->
  write (VObj ps) (segment_value seg) x (Some k')
  = Ok (VObj (obj_set (obj_delete ps (object_key seg)) k' x)).
Proof.
  intros Ne Nk. unfold write. simpl Array_isArray. cbn iota.
  rewrite (truthy_nonempty k' Ne).
  assert (D : differs (Some k') (segment_value seg) = true).
  { unfold differs, strict_eq_string. destruct seg as [s|n]; simpl; [|reflexivity].
    destruct (k' =? s)%string eqn:E; [|reflexivity].
    apply String.eqb_eq in E. subst s. now elim Nk. }
  rewrite D. reflexivity.
Qed.

(** X5.  When the new key is already a member of the object (and is not
    empty and not the old key), the rename removes the old member and
    writes the new value over the member of that name, in its place: the
    value that member had is lost, the keys are those of the object
    without the old key, in their order, and every other member keeps
    its value. *)
Theorem rename_onto_member_overwrites_it
        (obj : value) (parentPath : JSONPath) (seg : segment) (ps : props)
        (k' : string) (x : value) :
  navigate obj parentPath = Ok (VObj ps) ->
  has_own ps k' = true ->
  k' <> "" ->
  k' <> object_key seg ->
  let k := object_key seg in
  let ps' := obj_replace (obj_delete ps k) k' x in
  exists obj',
    updateJsonAtPath obj (parentPath ++ [seg])%list x (Some k') = Ok obj'
    /\ navigate obj' parentPath = Ok (VObj ps')
    /\ unchanged_outside parentPath obj obj'
    /\ keys ps' = filter (fun j => negb (j =? k)%string) (keys ps)
    /\ obj_get ps' k' = x
    /\ has_own ps' k = false
    /\ (forall j, j <> k -> j <> k' -> obj_get ps' j = obj_get ps j).
Proof.
  intros N Hk' Ne Nk k ps'.
  assert (A : has_own (obj_delete ps k) k' = true).
  { rewrite has_own_delete_other, Hk'. simpl.
    destruct (k =? k')%string eqn:E; [|reflexivity].
    apply String.eqb_eq in E. now elim Nk. }
  rewrite updateJsonAtPath_snoc, N. cbn [bind].
  rewrite (write_rename ps seg k' x Ne Nk). fold k.
  rewrite (obj_set_existing _ _ x A). fold ps'. cbn [bind].
  eexists; split; [reflexivity|].
  destruct (navigate_plug (VObj ps') parentPath obj (VObj ps) N ltac:(discriminate))
    as [N' F].
  repeat split; try assumption.
  - unfold ps'. now rewrite obj_replace_keys, keys_delete.
  - unfold ps'. now apply obj_get_replace_same.
  - unfold ps'. rewrite obj_replace_has_own. apply has_own_delete_same.
  - intros j Nj Nj'. unfold ps'.
    rewrite obj_get_replace_other by exact Nj'. now apply obj_get_delete_other.
Qed.

Lemma rename_onto_member_overwrites_it_witness :
  let k := object_key (Key "a") in
  let ps' := obj_replace (obj_delete [("a", num 1); ("b", num 2); ("c", num 3)] k) "b" (num 5) in
  exists obj',
    updateJsonAtPath (VObj [("a", num 1); ("b", num 2); ("c", num 3)])
      ([] ++ [Key "a"])%list (num 5) (Some "b") = Ok obj'
    /\ navigate obj' [] = Ok (VObj ps')
    /\ unchanged_outside [] (VObj [("a", num 1); ("b", num 2); ("c", num 3)]) obj'
    /\ keys ps' = filter (fun j => negb (j =? k)%string)
                    (keys [("a", num 1); ("b", num 2); ("c", num 3)])
    /\ obj_get ps' "b" = num 5
    /\ has_own ps' k = false
    /\ (forall j, j <> k -> j <> "b" ->
                  obj_get ps' j = obj_get [("a", num 1); ("b", num 2); ("c", num 3)] j).
Proof.
  apply (rename_onto_member_overwrites_it
           (VObj [("a", num 1); ("b", num 2); ("c", num 3)]) [] (Key "a")
           [("a", num 1); ("b", num 2); ("c", num 3)] "b" (num 5));
    try (vm_compute; reflexivity); discriminate.
Defined.

(* ================================================================== *)
(** * Further properties of the coercion *)
(* ================================================================== *)

(** X6.  Coercing twice with one type is coercing once; the result is a
    scalar, and never [NaN]. *)
Theorem parseValue_idempotent (v : value) (type : string) :
  parseValue (parseValue v type) type = parseValue v type
  /\ is_scalar (parseValue v type) = true
  /\ parseValue v type <> VNum NaN.
Proof.
  unfold parseValue.
  destruct (type =? "null")%string eqn:Tn; [repeat split; discriminate|].
  destruct (type =? "boolean")%string eqn:Tb; [repeat split; discriminate|].
  destruct (type =? "number")%string eqn:Tm.
  - destruct (isNaN (ToNumber v)) eqn:E; simpl.
    + repeat split; discriminate.
    + rewrite E. repeat split. intros H. inversion H as [Hn].
      rewrite Hn in E. discriminate.
  - repeat split; discriminate.
Qed.

(** X7.  The fields show what a save stores: the checkbox is ticked
    exactly when the coercion to [boolean] gives [true], and the number
    field shows the number the coercion to [number] gives, a negative
    zero being shown as zero. *)
Theorem fields_show_what_is_saved (es : EditNodeModalState) :
  parseValue (edit_value es) "boolean" = VBool (checkbox_checked es)
  /\ exists n : number,
      parseValue (edit_value es) "number" = VNum n
      /\ number_input_value es = (if falsy_number n then zero else n)
      /\ NumberToString (number_input_value es) = NumberToString n.
Proof.
  split.
  - unfold parseValue, checkbox_checked. simpl. now destruct (edit_value es).
  - unfold parseValue, number_input_value. simpl.
    destruct (ToNumber (edit_value es)) as [s | s | | s m e] eqn:E; simpl;
      eexists; repeat split.
Qed.

(** X8.  Loading a row into the fields and coercing what they hold gives
    the value of the row: the string of a string row, the number of a
    number row, [null] for a null row and for every container row, and
    for a boolean row [true] exactly when the row shows ["true"]. *)
Theorem load_then_coerce (textRow : NodeRow) :
  let es := load_editState textRow in
  (row_type textRow = "string" ->
   forall s, row_value textRow = VStr s ->
             parseValue (edit_value es) (edit_type es) = VStr s)
  /\ (row_type textRow = "number" ->
      forall n, row_value textRow = VNum n -> isNaN n = false ->
                parseValue (edit_value es) (edit_type es) = VNum n)
  /\ (row_type textRow = "boolean" ->
      forall s, row_value textRow = VStr s ->
                parseValue (edit_value es) (edit_type es) = VBool (s =? "true")%string)
  /\ (row_type textRow = "null" \/ row_type textRow = "object" \/ row_type textRow = "array" ->
      parseValue (edit_value es) (edit_type es) = VNull).
Proof.
  unfold load_editState. cbn [edit_value edit_type]. repeat split.
  - intros T s V. rewrite T, V. reflexivity.
  - intros T n V Nn. rewrite T, V. unfold parseValue. simpl. now rewrite Nn.
  - intros T s V. rewrite T, V. reflexivity.
  - intros [T|[T|T]]; rewrite T; reflexivity.
Qed.

(* ================================================================== *)
(** * Further properties of the save handler *)
(* ================================================================== *)

Lemma updateJsonAtPath_throws_TypeError
      (obj : value) (path : JSONPath) (x : value) (nk : option string) (e : exn) :
  updateJsonAtPath obj path x nk = Throw e -> e = TypeError.
Proof.
  unfold updateJsonAtPath.
  destruct (navigate obj (removelast path)) as [cur|e0] eqn:N; cbn [bind].
  - destruct (write cur (path_at path (List.length path - 1)) x nk) as [cur'|e'] eqn:W;
      cbn [bind]; [discriminate|].
    apply write_throws_TypeError in W. subst e'. intros H; now inversion H.
  - apply navigate_throws_TypeError in N. subst e0. intros H; now inversion H.
Qed.

(** The statements of [save], with the path and the key it passes on. *)
Lemma save_steps (st : App) (node : NodeData) (path : JSONPath) :
  save node path st
  = (parsedJson <- JSON.parse (json st) ;;
     textRow <- first_row node ;;
     parsedJson' <-
       updateJsonAtPath parsedJson (targetPath path textRow)
         (parseValue (edit_value (editState st)) (edit_type (editState st)))
         (passed_key (editState st) textRow) ;;
     Ok (close_and_reopen
           (show_toast (ToastSuccess "Node updated successfully")
              (setSelectedNode
                 {| node_text :=
                      option_map
                        (updated_text (editState st)
                           match parseValue (edit_value (editState st))
                                   (edit_type (editState st)) with
                           | VBool b => VStr (if b then "true" else "false")
                           | _ => parseValue (edit_value (editState st))
                                    (edit_type (editState st))
                           end) (node_text node);
                    node_path := node_path node |}
                 (setContents (JSON.stringify parsedJson') true st))))).
Proof. reflexivity. Qed.

(** The handler when the checks pass: the statements of [save], then the
    loading flag off. *)
Lemma handleSave_checked (st : App) (node : NodeData) (path : JSONPath) :
  selectedNode st = Some node ->
  node_path node = Some path ->
  validate_key (edit_key (editState st)) = None ->
  handleSave st
  = setIsLoading false
      match save node path (setError None (setIsLoading true st)) with
      | Ok st' => st'
      | Throw e =>
          show_toast (ToastError (MessageOf e))
            (setError (Some (MessageOf e)) (setError None (setIsLoading true st)))
      end.
Proof.
  intros Sn Np V. unfold handleSave.
  cbn [selectedNode editState setError setIsLoading].
  now rewrite Sn, Np, V.
Qed.

(** A save that ends without an error got through every step. *)
Lemma handleSave_without_error (st : App) :
  error (handleSave st) = None ->
  exists node path doc textRow doc',
    selectedNode st = Some node
    /\ node_path node = Some path
    /\ validate_key (edit_key (editState st)) = None
    /\ JSON.parse (json st) = Ok doc
    /\ first_row node = Ok textRow
    /\ updateJsonAtPath doc (targetPath path textRow)
         (parseValue (edit_value (editState st)) (edit_type (editState st)))
         (passed_key (editState st) textRow) = Ok doc'.
Proof.
  unfold handleSave. cbn [selectedNode editState setError setIsLoading].
  destruct (selectedNode st) as [node|] eqn:Sn; [|discriminate].
  destruct (node_path node) as [path|] eqn:Np; [|discriminate].
  destruct (validate_key (edit_key (editState st))) eqn:V; [discriminate|].
  rewrite save_steps. cbn [json editState setError setIsLoading].
  destruct (JSON.parse (json st)) as [doc|] eqn:P; cbn [bind]; [|discriminate].
  destruct (first_row node) as [textRow|] eqn:F; cbn [bind]; [|discriminate].
  destruct (updateJsonAtPath doc _ _ _) as [doc'|] eqn:U; cbn [bind]; [|discriminate].
  intros _. exists node, path, doc, textRow, doc'. repeat split; assumption.
Qed.

(** X9.  A save is all or nothing.  It leaves the fields alone and ends
    with the loading flag off.  When it ends without an error, a node
    with a path and a first row is selected, the text parses, and the
    contents are the serialisation of the very document that
    [updateJsonAtPath] returns for the parsed one at the path of the node
    (followed by the key of the first row when it has one), with the
    coerced value of the fields and the key the handler passes on; the
    change flag is set, one success toast is shown, the dialog is closed
    and the inspector is due to reopen.  When it ends with an error, the
    contents, the change flag, the selection and the dialog are as they
    were, and at most one toast, carrying the error, is shown. *)
Theorem handleSave_all_or_nothing (st : App) :
  editState (handleSave st) = editState st
  /\ isLoading (handleSave st) = false
  /\ match error (handleSave st) with
     | None =>
         closed (handleSave st) = true
         /\ nodeModalTimer (handleSave st) = true
         /\ hasChanges (handleSave st) = true
         /\ toasts (handleSave st)
            = (toasts st ++ [ToastSuccess "Node updated successfully"])%list
         /\ exists node path textRow doc doc',
             selectedNode st = Some node
             /\ node_path node = Some path
             /\ first_row node = Ok textRow
             /\ JSON.parse (json st) = Ok doc
             /\ updateJsonAtPath doc (targetPath path textRow)
                  (parseValue (edit_value (editState st)) (edit_type (editState st)))
                  (passed_key (editState st) textRow) = Ok doc'
             /\ contents (handleSave st) = JSON.stringify doc'
     | Some m =>
         contents (handleSave st) = contents st
         /\ hasChanges (handleSave st) = hasChanges st
         /\ selectedNode (handleSave st) = selectedNode st
         /\ closed (handleSave st) = closed st
         /\ nodeModalTimer (handleSave st) = nodeModalTimer st
         /\ (toasts (handleSave st) = toasts st
             \/ toasts (handleSave st) = (toasts st ++ [ToastError m])%list)
     end.
Proof.
  unfold handleSave. cbn [selectedNode editState setError setIsLoading].
  destruct (selectedNode st) as [node|] eqn:Sn; [|simpl; repeat split; auto].
  destruct (node_path node) as [path|] eqn:Np; [|simpl; repeat split; auto].
  destruct (validate_key (edit_key (editState st))) eqn:V; [simpl; repeat split; auto|].
  rewrite save_steps. cbn [json editState setError setIsLoading].
  destruct (JSON.parse (json st)) as [doc|] eqn:P; cbn [bind];
    [|simpl; repeat split; auto].
  destruct (first_row node) as [textRow|] eqn:F; cbn [bind];
    [|simpl; repeat split; auto].
  destruct (updateJsonAtPath doc (targetPath path textRow)
              (parseValue (edit_value (editState st)) (edit_type (editState st)))
              (passed_key (editState st) textRow)) as [doc'|] eqn:U; cbn [bind];
    [|simpl; repeat split; auto].
  simpl. repeat split.
  exists node, path, textRow, doc, doc'. repeat split; assumption.
Qed.

(** X10.  Once the path check, the key validation and the parse have
    passed, a save fails only with a TypeError: it then shows the message
    of that error, also as a toast, and leaves the contents alone.  It
    does fail so when the selected node has no rows. *)
Theorem save_fails_only_with_TypeError (st : App) (doc : value) :
  has_path st = true ->
  validate_key (edit_key (editState st)) = None ->
  JSON.parse (json st) = Ok doc ->
  (error (handleSave st) = None
   \/ (error (handleSave st) = Some (MessageOf TypeError)
       /\ toasts (handleSave st) = (toasts st ++ [ToastError (MessageOf TypeError)])%list
       /\ contents (handleSave st) = contents st))
  /\ (forall node, selectedNode st = Some node ->
                   node_text node = None \/ node_text node = Some [] ->
                   error (handleSave st) = Some (MessageOf TypeError)).
Proof.
  unfold has_path. intros Hp V P.
  destruct (selectedNode st) as [node|] eqn:Sn; [|discriminate].
  destruct (node_path node) as [path|] eqn:Np; [|discriminate].
  rewrite (handleSave_checked st node path Sn Np V).
  rewrite save_steps. cbn [json editState setError setIsLoading].
  rewrite P. cbn [bind].
  split.
  - destruct (first_row node) as [textRow|e] eqn:F; cbn [bind].
    + destruct (updateJsonAtPath doc _ _ _) as [doc'|e] eqn:U; cbn [bind].
      * left. reflexivity.
      * right.
        apply updateJsonAtPath_throws_TypeError in U. subst e.
        repeat split.
    + right. unfold first_row in F.
      destruct (node_text node) as [[|r rs]|]; inversion F; repeat split.
  - intros node' E T. inversion E; subst node'.
    unfold first_row. destruct T as [T|T]; rewrite T; reflexivity.
Qed.

Lemma save_fails_only_with_TypeError_witness :
  (error (handleSave (sample_state
                        (Some {| node_text := Some []; node_path := Some [] |})
                        sample_text (Some "a"))) = None
   \/ (error (handleSave (sample_state
                            (Some {| node_text := Some []; node_path := Some [] |})
                            sample_text (Some "a")))
       = Some (MessageOf TypeError)
       /\ toasts (handleSave (sample_state
                                (Some {| node_text := Some []; node_path := Some [] |})
                                sample_text (Some "a")))
          = (toasts (sample_state
                       (Some {| node_text := Some []; node_path := Some [] |})
                       sample_text (Some "a")) ++ [ToastError (MessageOf TypeError)])%list
       /\ contents (handleSave (sample_state
                                  (Some {| node_text := Some []; node_path := Some [] |})
                                  sample_text (Some "a")))
          = contents (sample_state
                        (Some {| node_text := Some []; node_path := Some [] |})
                        sample_text (Some "a"))))
  /\ (forall node,
        selectedNode (sample_state
                        (Some {| node_text := Some []; node_path := Some [] |})
                        sample_text (Some "a")) = Some node ->
        node_text node = None \/ node_text node = Some [] ->
        error (handleSave (sample_state
                             (Some {| node_text := Some []; node_path := Some [] |})
                             sample_text (Some "a")))
        = Some (MessageOf TypeError)).
Proof.
  apply (save_fails_only_with_TypeError
           (sample_state (Some {| node_text := Some []; node_path := Some [] |})
              sample_text (Some "a"))
           (VObj [("a", num 1)]));
    vm_compute; reflexivity.
Defined.

(** The handler when every step returns. *)
Lemma handleSave_saved (st : App) (node : NodeData) (path : JSONPath)
      (doc doc' : value) (textRow : NodeRow) :
  selectedNode st = Some node ->
  node_path node = Some path ->
  validate_key (edit_key (editState st)) = None ->
  JSON.parse (json st) = Ok doc ->
  first_row node = Ok textRow ->
  updateJsonAtPath doc (targetPath path textRow)
    (parseValue (edit_value (editState st)) (edit_type (editState st)))
    (passed_key (editState st) textRow) = Ok doc' ->
  handleSave st
  = {| selectedNode :=
         Some {| node_text :=
                   option_map
                     (updated_text (editState st)
                        match parseValue (edit_value (editState st))
                                (edit_type (editState st)) with
                        | VBool b => VStr (if b then "true" else "false")
                        | _ => parseValue (edit_value (editState st))
                                 (edit_type (editState st))
                        end) (node_text node);
                 node_path := node_path node |};
       json := json st;
       contents := JSON.stringify doc';
       hasChanges := true;
       editState := editState st;
       isLoading := false;
       error := None;
       toasts := (toasts st ++ [ToastSuccess "Node updated successfully"])%list;
       closed := true;
       nodeModalTimer := true |}.
Proof.
  intros Sn Np V P F U.
  rewrite (handleSave_checked st node path Sn Np V), save_steps.
  cbn [json editState setError setIsLoading].
  rewrite P. cbn [bind]. rewrite F. cbn [bind]. rewrite U. reflexivity.
Qed.

(** X11.  An edit through the dialog that keeps the key.  When the
    document parses, the path the handler writes at (the path of the node,
    followed by the key of its first row when it has one) is a path into
    it, and the key field holds no other key, the save writes the text of
    a document in which that path addresses the coerced value and nothing
    else has changed: every ancestor keeps its kind, its length or its
    keys in their order, and its other elements or members. *)
Theorem save_changes_only_the_edited_value
        (st : App) (node : NodeData) (path : JSONPath) (textRow : NodeRow)
        (doc s : value) :
  selectedNode st = Some node ->
  node_path node = Some path ->
  first_row node = Ok textRow ->
  validate_key (edit_key (editState st)) = None ->
  passed_key (editState st) textRow = None ->
  JSON.parse (json st) = Ok doc ->
  targetPath path textRow <> [] ->
  resolve doc (targetPath path textRow) = Some s ->
  exists doc',
    contents (handleSave st) = JSON.stringify doc'
    /\ hasChanges (handleSave st) = true
    /\ error (handleSave st) = None
    /\ resolve doc' (targetPath path textRow)
       = Some (parseValue (edit_value (editState st)) (edit_type (editState st)))
    /\ withoutPath doc' (targetPath path textRow) = withoutPath doc (targetPath path textRow)
    /\ unchanged_outside (targetPath path textRow) doc doc'.
Proof.
  intros Sn Np F V K P NE R.
  destruct (update_in_place
              (parseValue (edit_value (editState st)) (edit_type (editState st)))
              (targetPath path textRow) doc s NE R) as [doc' [U [R' [W Fr]]]].
  exists doc'.
  rewrite <- K in U.
  rewrite (handleSave_saved st node path doc doc' textRow Sn Np V P F U).
  cbn [contents hasChanges error]. repeat split; assumption.
Qed.

Lemma save_changes_only_the_edited_value_witness :
  exists doc',
    contents (handleSave (sample_state (Some sample_node) sample_text (Some "a")))
    = JSON.stringify doc'
    /\ hasChanges (handleSave (sample_state (Some sample_node) sample_text (Some "a"))) = true
    /\ error (handleSave (sample_state (Some sample_node) sample_text (Some "a"))) = None
    /\ resolve doc' (targetPath [] (sample_row (Some "a") (num 1) "number"))
       = Some (parseValue
                 (edit_value (editState (sample_state (Some sample_node) sample_text (Some "a"))))
                 (edit_type (editState (sample_state (Some sample_node) sample_text (Some "a")))))
    /\ withoutPath doc' (targetPath [] (sample_row (Some "a") (num 1) "number"))
       = withoutPath (VObj [("a", num 1)]) (targetPath [] (sample_row (Some "a") (num 1) "number"))
    /\ unchanged_outside (targetPath [] (sample_row (Some "a") (num 1) "number"))
         (VObj [("a", num 1)]) doc'.
Proof.
  apply (save_changes_only_the_edited_value
           (sample_state (Some sample_node) sample_text (Some "a"))
           sample_node [] (sample_row (Some "a") (num 1) "number")
           (VObj [("a", num 1)]) (num 1));
    try (vm_compute; reflexivity).
  vm_compute. discriminate.
Defined.

(** X12.  Saving the value that is there already changes no value: the
    handler writes back the document as it parsed it, in the layout of
    [JSON.stringify], and sets the change flag all the same. *)
Theorem save_of_the_present_value_rewrites_the_text
        (st : App) (node : NodeData) (path : JSONPath) (textRow : NodeRow)
        (doc : value) :
  selectedNode st = Some node ->
  node_path node = Some path ->
  first_row node = Ok textRow ->
  validate_key (edit_key (editState st)) = None ->
  passed_key (editState st) textRow = None ->
  JSON.parse (json st) = Ok doc ->
  targetPath path textRow <> [] ->
  resolve doc (targetPath path textRow)
  = Some (parseValue (edit_value (editState st)) (edit_type (editState st))) ->
  contents (handleSave st) = JSON.stringify doc
  /\ hasChanges (handleSave st) = true
  /\ error (handleSave st) = None.
Proof.
  intros Sn Np F V K P NE R.
  pose proof (write_back _ _ doc NE R) as U.
  rewrite <- K in U.
  rewrite (handleSave_saved st node path doc doc textRow Sn Np V P F U).
  repeat split.
Qed.

Lemma save_of_the_present_value_rewrites_the_text_witness :
  contents (handleSave (sample_state (Some sample_node)
                          ("{" ++ JSON.dquote ++ "a" ++ JSON.dquote ++ ":2}") (Some "a")))
  = JSON.stringify (VObj [("a", num 2)])
  /\ hasChanges (handleSave (sample_state (Some sample_node)
                               ("{" ++ JSON.dquote ++ "a" ++ JSON.dquote ++ ":2}") (Some "a")))
     = true
  /\ error (handleSave (sample_state (Some sample_node)
                          ("{" ++ JSON.dquote ++ "a" ++ JSON.dquote ++ ":2}") (Some "a")))
     = None.
Proof.
  apply (save_of_the_present_value_rewrites_the_text
           (sample_state (Some sample_node)
              ("{" ++ JSON.dquote ++ "a" ++ JSON.dquote ++ ":2}") (Some "a"))
           sample_node [] (sample_row (Some "a") (num 1) "number")
           (VObj [("a", num 2)]));
    try (vm_compute; reflexivity).
  vm_compute. discriminate.
Defined.

(** A key that matches the identifier pattern is no array index. *)
Lemma identifier_no_index (k : string) :
  Identifier.test k = true -> index_of_string k = None.
Proof.
  unfold Identifier.test, index_of_string.
  destruct (bytes k) as [|c r]; [discriminate|].
  intros T. apply andb_prop in T. destruct T as [Ts _].
  assert (D : is_digit c = false).
  { apply not_true_is_false. intros D.
    unfold Identifier.is_start, is_lower, is_upper, is_digit, between in *.
    bool_hyps; lia. }
  cbn [forallb]. rewrite D. reflexivity.
Qed.

(** X13.  A rename through the dialog.  When the first row has the key
    [k], the key field holds another key [k'] that matches the identifier
    pattern and is not [__proto__], and the walk along the path of the
    node reaches an object with the member [k] and without a member [k'],
    the save writes the text of a document in which the same walk reaches
    that object without [k], followed by the member [k'] with the coerced
    value; the first row of the selection then carries the key [k']. *)
Theorem dialog_rename_moves_member_to_end
        (st : App) (node : NodeData) (path : JSONPath) (textRow : NodeRow)
        (others : list NodeRow) (k k' : string) (doc : value) (ps : props) :
  selectedNode st = Some node ->
  node_path node = Some path ->
  node_text node = Some (textRow :: others) ->
  row_key textRow = Some k ->
  k <> "" ->
  edit_key (editState st) = Some k' ->
  Identifier.test k' = true ->
  k' <> k ->
  k' <> "__proto__" ->
  JSON.parse (json st) = Ok doc ->
  navigate doc path = Ok (VObj ps) ->
  has_own ps k = true ->
  has_own ps k' = false ->
  let x := parseValue (edit_value (editState st)) (edit_type (editState st)) in
  exists doc' row',
    contents (handleSave st) = JSON.stringify doc'
    /\ error (handleSave st) = None
    /\ navigate doc' path = Ok (VObj (obj_delete ps k ++ [(k', x)])%list)
    /\ unchanged_outside path doc doc'
    /\ selectedNode (handleSave st)
       = Some {| node_text := Some (row' :: others); node_path := Some path |}
    /\ row_key row' = Some k'.
Proof.
  intros Sn Np Nt Rk Nk Ek T Nkk Npr P N Hk Hk' x.
  destruct (trim_identifier k' T) as [_ Ne'].
  assert (F : first_row node = Ok textRow) by (unfold first_row; now rewrite Nt).
  assert (Tp : targetPath path textRow = (path ++ [Key k])%list).
  { unfold targetPath, row_key_truthy. rewrite Rk, (truthy_nonempty k Nk). reflexivity. }
  assert (Pk : passed_key (editState st) textRow = Some k').
  { unfold passed_key. rewrite Ek, Rk, (truthy_nonempty k' Ne'). simpl.
    destruct (k' =? k)%string eqn:E; [|reflexivity].
    apply String.eqb_eq in E. contradiction. }
  assert (A : has_own (obj_delete ps k) k' = false).
  { rewrite has_own_delete_other, Hk'. reflexivity. }
  assert (U : updateJsonAtPath doc (targetPath path textRow) x
                (passed_key (editState st) textRow)
              = Ok (plug doc path (VObj (obj_delete ps k ++ [(k', x)])%list))).
  { rewrite Tp, Pk, updateJsonAtPath_snoc, N. cbn [bind].
    rewrite (write_rename ps (Key k) k' x Ne' Nkk). cbn [bind].
    change (object_key (Key k)) with k.
    unfold obj_set. rewrite assign_appends; [reflexivity | exact A | | ].
    - now apply identifier_no_index.
    - destruct (k' =? "__proto__")%string eqn:E; [|reflexivity].
      apply String.eqb_eq in E. contradiction. }
  rewrite (handleSave_saved st node path doc _ textRow Sn Np
             (eq_trans (f_equal validate_key Ek) (validate_key_identifier k' T)) P F U).
  destruct (navigate_plug (VObj (obj_delete ps k ++ [(k', x)])%list) path doc (VObj ps) N
              ltac:(discriminate)) as [N' Fr].
  eexists. eexists. cbn [contents error selectedNode].
  rewrite Nt, Np. cbn [option_map updated_text].
  repeat split; try assumption.
  cbn [row_key]. now rewrite Ek, (truthy_nonempty k' Ne').
Qed.

Lemma dialog_rename_moves_member_to_end_witness :
  let st := sample_state (Some sample_node) sample_text (Some "z") in
  let x := parseValue (edit_value (editState st)) (edit_type (editState st)) in
  exists doc' row',
    contents (handleSave st) = JSON.stringify doc'
    /\ error (handleSave st) = None
    /\ navigate doc' [] = Ok (VObj (obj_delete [("a", num 1)] "a" ++ [("z", x)])%list)
    /\ unchanged_outside [] (VObj [("a", num 1)]) doc'
    /\ selectedNode (handleSave st)
       = Some {| node_text := Some (row' :: []); node_path := Some [] |}
    /\ row_key row' = Some "z".
Proof.
  apply (dialog_rename_moves_member_to_end
           (sample_state (Some sample_node) sample_text (Some "z"))
           sample_node [] (sample_row (Some "a") (num 1) "number") [] "a" "z"
           (VObj [("a", num 1)]) [("a", num 1)]);
    try (vm_compute; reflexivity); discriminate.
Defined.

(** X14.  For a row whose key is not empty and does not match the
    identifier pattern, the fields load that very key, and the key field
    is what the validation reads: as long as the key field holds what
    was loaded, every save is turned down with the message of the
    validation, whatever the value and the type, and the contents, the
    change flag and the dialog stay as they are.  (Nothing is said of a
    save after the key field was cleared or changed.) *)
Theorem loaded_key_that_is_no_identifier_blocks_save
        (st : App) (node : NodeData) (path : JSONPath) (textRow : NodeRow) (k : string) :
  selectedNode st = Some node ->
  node_path node = Some path ->
  row_key textRow = Some k ->
  k <> "" ->
  Identifier.test k = false ->
  edit_key (editState st) = edit_key (load_editState textRow) ->
  error (handleSave st)
  = Some (Text (if (trim k =? "")%string then "Key cannot be empty"
                else "Key must be a valid identifier"))
  /\ contents (handleSave st) = contents st
  /\ hasChanges (handleSave st) = hasChanges st
  /\ closed (handleSave st) = closed st.
Proof.
  intros Sn Np Rk Nk T Ek.
  unfold load_editState in Ek. cbn [edit_key] in Ek.
  rewrite Rk, (truthy_nonempty k Nk) in Ek.
  unfold handleSave. cbn [selectedNode editState setError setIsLoading].
  rewrite Sn, Np, Ek, (validate_key_invalid k Nk (or_intror T)).
  repeat split.
Qed.

Lemma loaded_key_that_is_no_identifier_blocks_save_witness :
  let st := sample_state
              (Some {| node_text := Some [sample_row (Some "first-name") (VStr "x") "string"];
                       node_path := Some [] |})
              ("{" ++ JSON.quote "first-name" ++ ":" ++ JSON.quote "x" ++ "}")
              (Some "first-name") in
  error (handleSave st)
  = Some (Text (if (trim "first-name" =? "")%string then "Key cannot be empty"
                else "Key must be a valid identifier"))
  /\ contents (handleSave st) = contents st
  /\ hasChanges (handleSave st) = hasChanges st
  /\ closed (handleSave st) = closed st.
Proof.
  apply (loaded_key_that_is_no_identifier_blocks_save
           (sample_state
              (Some {| node_text := Some [sample_row (Some "first-name") (VStr "x") "string"];
                       node_path := Some [] |})
              ("{" ++ JSON.quote "first-name" ++ ":" ++ JSON.quote "x" ++ "}")
              (Some "first-name"))
           {| node_text := Some [sample_row (Some "first-name") (VStr "x") "string"];
              node_path := Some [] |}
           [] (sample_row (Some "first-name") (VStr "x") "string") "first-name");
    try (vm_compute; reflexivity); discriminate.
Defined.

(* ================================================================== *)
(** * The dialogs after a save *)
(* ================================================================== *)

(** X15.  The fields after a save.  A save that ends without an error
    replaces the first row of the selection and keeps the other rows and
    the path; the new row never holds a boolean; and when the type field
    holds neither [object] nor [array], the fields loaded from the new row
    hold the same type and coerce to the value that was saved. *)
Theorem reopened_fields_coerce_to_saved_value (st : App) :
  error (handleSave st) = None ->
  edit_type (editState st) <> "object" ->
  edit_type (editState st) <> "array" ->
  exists node row others row',
    selectedNode st = Some node
    /\ node_text node = Some (row :: others)
    /\ selectedNode (handleSave st)
       = Some {| node_text := Some (row' :: others); node_path := node_path node |}
    /\ (forall b, row_value row' <> VBool b)
    /\ edit_type (load_editState row') = edit_type (editState st)
    /\ parseValue (edit_value (load_editState row')) (edit_type (load_editState row'))
       = parseValue (edit_value (editState st)) (edit_type (editState st)).
Proof.
  intros E To Ta.
  destruct (handleSave_without_error st E)
    as (node & path & doc & textRow & doc' & Sn & Np & V & P & F & U).
  rewrite (handleSave_saved st node path doc doc' textRow Sn Np V P F U).
  unfold first_row in F.
  destruct (node_text node) as [[|row others]|] eqn:Nt; try discriminate.
  exists node, row, others. eexists.
  cbn [selectedNode option_map updated_text].
  split; [exact Sn|]. split; [exact Nt|]. split; [reflexivity|].
  unfold load_editState. cbn [row_value row_type edit_value edit_type].
  apply String.eqb_neq in To. apply String.eqb_neq in Ta.
  rewrite To, Ta. cbn [orb].
  generalize (edit_value (editState st)) as v. intros v.
  revert To Ta. generalize (edit_type (editState st)) as t. intros t To Ta.
  unfold parseValue.
  destruct (t =? "null")%string eqn:Tn.
  { split; [discriminate|]. split; reflexivity. }
  destruct (t =? "boolean")%string eqn:Tb.
  { split; [now destruct (match v with VStr s => (s =? "true")%string
                                   | VBool b => b | _ => false end)|].
    split; [reflexivity|].
    now destruct (match v with VStr s => (s =? "true")%string
                          | VBool b => b | _ => false end). }
  destruct (t =? "number")%string eqn:Tm.
  { destruct (isNaN (ToNumber v)) eqn:N.
    - split; [discriminate|]. split; reflexivity.
    - split; [discriminate|]. split; [reflexivity|].
      cbn [ToNumber]. now rewrite N. }
  split; [discriminate|]. split; reflexivity.
Qed.

Lemma reopened_fields_coerce_to_saved_value_witness :
  let st := sample_state (Some sample_node) sample_text (Some "a") in
  exists node row others row',
    selectedNode st = Some node
    /\ node_text node = Some (row :: others)
    /\ selectedNode (handleSave st)
       = Some {| node_text := Some (row' :: others); node_path := node_path node |}
    /\ (forall b, row_value row' <> VBool b)
    /\ edit_type (load_editState row') = edit_type (editState st)
    /\ parseValue (edit_value (load_editState row')) (edit_type (load_editState row'))
       = parseValue (edit_value (editState st)) (edit_type (editState st)).
Proof.
  apply (reopened_fields_coerce_to_saved_value
           (sample_state (Some sample_node) sample_text (Some "a")));
    [vm_compute; reflexivity | discriminate | discriminate].
Defined.

(** The object the content view builds from one row. *)
Lemma add_one_row (row : NodeRow) :
  shown_row row = true ->
  fst (fold_left add_row [row] ([], true))
  = if (key_string (row_key row) =? "__proto__")%string then []
    else [(key_string (row_key row), row_value row)].
Proof.
  intros S. cbn [fold_left]. rewrite add_row_shown, S.
  unfold assign, obj_define. cbn [has_own existsb negb andb].
  destruct (key_string (row_key row) =? "__proto__")%string; [reflexivity|].
  cbn [fst]. now destruct (index_of_string (key_string (row_key row))).
Qed.

(** X16.  The inspector after a save.  After a save, without an error,
    of a node with one row and with a type other than [object] and
    [array], the node is still editable and has the path it had.  The
    content view shows the string form of the saved value when neither
    the key field nor the row has a key; otherwise it shows an object
    with one member, under the key of the field or else of the row, whose
    value is the saved one, a boolean as the string ["true"] or
    ["false"]; and for the key [__proto__] it shows the empty object. *)
Theorem inspector_shows_saved_value (st : App) (node : NodeData) (row : NodeRow) :
  error (handleSave st) = None ->
  selectedNode st = Some node ->
  node_text node = Some [row] ->
  edit_type (editState st) <> "object" ->
  edit_type (editState st) <> "array" ->
  let x := parseValue (edit_value (editState st)) (edit_type (editState st)) in
  let shown := if truthy (edit_key (editState st)) then edit_key (editState st)
               else row_key row in
  exists node',
    selectedNode (handleSave st) = Some node'
    /\ node_path node' = node_path node
    /\ isEditableNode (Some node') = true
    /\ normalizeNodeData (node_text node')
       = if truthy shown then
           if (key_string shown =? "__proto__")%string then "{}"
           else JSON.stringify
                  (VObj [(key_string shown,
                          match x with
                          | VBool b => VStr (if b then "true" else "false")
                          | _ => x
                          end)])
         else ToString x.
Proof.
  intros E Sn Nt To Ta x shown.
  destruct (handleSave_without_error st E)
    as (node0 & path & doc & textRow & doc' & Sn0 & Np & V & P & F & U).
  rewrite Sn in Sn0. injection Sn0 as <-.
  rewrite (handleSave_saved st node path doc doc' textRow Sn Np V P F U).
  eexists. cbn [selectedNode]. split; [reflexivity|].
  cbn [node_path node_text]. split; [reflexivity|].
  rewrite Nt. cbn [option_map updated_text].
  apply String.eqb_neq in To. apply String.eqb_neq in Ta.
  split.
  { unfold isEditableNode. cbn [node_text row_type]. now rewrite To, Ta. }
  fold x. fold shown.
  set (row' := {| row_key := shown;
                  row_value := match x with
                               | VBool b => VStr (if b then "true" else "false")
                               | _ => x
                               end;
                  row_type := edit_type (editState st) |}).
  unfold normalizeNodeData. cbn [List.length Nat.eqb andb].
  change (row_key row') with shown.
  destruct (truthy shown) eqn:T; cbn [negb].
  - assert (S : shown_row row' = true).
    { unfold shown_row. cbn [row_type row_key row']. now rewrite To, Ta, T. }
    rewrite (add_one_row row' S).
    change (key_string (row_key row')) with (key_string shown).
    now destruct (key_string shown =? "__proto__")%string.
  - cbn [row_value row']. destruct x as [| | [|] | | | |]; reflexivity.
Qed.

Lemma inspector_shows_saved_value_witness :
  let st := sample_state (Some sample_node) sample_text None in
  let x := parseValue (edit_value (editState st)) (edit_type (editState st)) in
  let shown := if truthy (edit_key (editState st)) then edit_key (editState st)
               else row_key (sample_row (Some "a") (num 1) "number") in
  exists node',
    selectedNode (handleSave st) = Some node'
    /\ node_path node' = node_path sample_node
    /\ isEditableNode (Some node') = true
    /\ normalizeNodeData (node_text node')
       = if truthy shown then
           if (key_string shown =? "__proto__")%string then "{}"
           else JSON.stringify
                  (VObj [(key_string shown,
                          match x with
                          | VBool b => VStr (if b then "true" else "false")
                          | _ => x
                          end)])
         else ToString x.
Proof.
  apply (inspector_shows_saved_value
           (sample_state (Some sample_node) sample_text None)
           sample_node (sample_row (Some "a") (num 1) "number"));
    try (vm_compute; reflexivity); discriminate.
Defined.

(** X17.  The type field decides the JSON type of what is saved,
    whatever the value field holds: [null], [boolean] and [number] give a
    value of that type, every other type a string.  Choosing a type keeps
    the key and the value field, and no choice counts as [string]. *)
Theorem selected_type_is_saved_type (selected : option string) (es : EditNodeModalState) :
  let es' := change_type selected es in
  edit_key es' = edit_key es
  /\ edit_value es' = edit_value es
  /\ edit_type es' = (if truthy selected then key_string selected else "string")
  /\ typeOf (parseValue (edit_value es') (edit_type es'))
     = (if (edit_type es' =? "null")%string || (edit_type es' =? "boolean")%string
           || (edit_type es' =? "number")%string
        then edit_type es' else "string").
Proof.
  intros es'. split; [reflexivity|]. split; [reflexivity|]. split; [reflexivity|].
  generalize (edit_value es') as v. generalize (edit_type es') as t. intros t v.
  unfold parseValue.
  destruct (t =? "null")%string eqn:Tn.
  { apply String.eqb_eq in Tn. now subst t. }
  destruct (t =? "boolean")%string eqn:Tb.
  { apply String.eqb_eq in Tb. now subst t. }
  destruct (t =? "number")%string eqn:Tm.
  { apply String.eqb_eq in Tm. subst t. now destruct (isNaN (ToNumber v)). }
  reflexivity.
Qed.

(** X18.  A save at the root.  When the node has the empty path and
    neither its first row nor the key field has a key, the handler writes
    with the empty path, whose last segment is [undefined].  The document
    is then never replaced by the value: an object gets the value under
    the key [undefined], an array is written back as it is, and for any
    other document the save fails with a TypeError and leaves the
    contents alone. *)
Theorem save_at_the_root (st : App) (node : NodeData) (row : NodeRow) (doc : value) :
  selectedNode st = Some node ->
  node_path node = Some [] ->
  first_row node = Ok row ->
  truthy (row_key row) = false ->
  truthy (edit_key (editState st)) = false ->
  JSON.parse (json st) = Ok doc ->
  let x := parseValue (edit_value (editState st)) (edit_type (editState st)) in
  match doc with
  | VObj ps =>
      error (handleSave st) = None
      /\ contents (handleSave st) = JSON.stringify (VObj (obj_set ps "undefined" x))
  | VArr l =>
      error (handleSave st) = None
      /\ hasChanges (handleSave st) = true
      /\ contents (handleSave st) = JSON.stringify doc
  | _ =>
      error (handleSave st) = Some (MessageOf TypeError)
      /\ contents (handleSave st) = contents st
  end.
Proof.
  intros Sn Np F Rk Ek P x.
  assert (V : validate_key (edit_key (editState st)) = None).
  { unfold validate_key. now rewrite Ek. }
  assert (Tp : targetPath [] row = []).
  { unfold targetPath, row_key_truthy. now rewrite Rk. }
  assert (Pk : passed_key (editState st) row = None).
  { unfold passed_key. now rewrite Ek. }
  assert (N : index_of_string (NumberToString (ToNumber VUndef)) = None)
    by (vm_compute; reflexivity).
  rewrite (handleSave_checked st node [] Sn Np V), save_steps.
  cbn [json editState setError setIsLoading].
  rewrite P. cbn [bind]. rewrite F. cbn [bind]. rewrite Tp, Pk. fold x.
  unfold updateJsonAtPath.
  cbn [removelast navigate bind List.length Nat.sub path_at nth_error plug].
  unfold write.
  destruct doc as [| | b | n | s | l | ps];
    cbn [Array_isArray truthy andb set_prop bind ToString];
    try (split; reflexivity).
  rewrite N. cbn [bind]. repeat split.
Qed.

Lemma save_at_the_root_witness :
  let st := sample_state
              (Some {| node_text := Some [sample_row None (num 5) "number"];
                       node_path := Some [] |}) "5" None in
  error (handleSave st) = Some (MessageOf TypeError)
  /\ contents (handleSave st) = contents st.
Proof.
  apply (save_at_the_root
           (sample_state
              (Some {| node_text := Some [sample_row None (num 5) "number"];
                       node_path := Some [] |}) "5" None)
           {| node_text := Some [sample_row None (num 5) "number"];
              node_path := Some [] |}
           (sample_row None (num 5) "number") (num 5));
    vm_compute; reflexivity.
Defined.

(* ================================================================== *)
(** * Further properties of the inspector *)
(* ================================================================== *)

Lemma bracketed_app (p q : JSONPath) :
  bracketed (p ++ q)%list = (bracketed p ++ bracketed q)%string.
Proof.
  induction p as [|seg p IH]; cbn [app bracketed]; [reflexivity|].
  now rewrite IH, !string_append_assoc.
Qed.

(** The path string of a path that is not empty, segment by segment. *)
Lemma jsonPathToString_bracketed (p : JSONPath) :
  p <> [] -> jsonPathToString (Some p) = ("$" ++ bracketed p)%string.
Proof.
  destruct p as [|seg rest]; [contradiction|]. intros _.
  assert (G : forall q, map (fun e => match e with
                                      | VUndef | VNull => ""
                                      | _ => ToString e
                                      end) (map shown_segment q)
                        = map rendered q).
  { induction q as [|s q IH]; simpl; [reflexivity|].
    rewrite IH. now destruct s. }
  assert (B : forall q, fold_right (fun y acc => "[" ++ y ++ "]" ++ acc)%string ""
                          (map rendered q) = bracketed q).
  { induction q as [|s q IH]; cbn [fold_right map bracketed]; [reflexivity|].
    now rewrite IH. }
  unfold jsonPathToString, Array_join. rewrite G.
  cbn [map bracketed]. rewrite <- B.
  change ("$[" ++ join "][" (rendered seg :: map rendered rest) ++ "]")%string
    with ("$" ++ ("[" ++ join "][" (rendered seg :: map rendered rest) ++ "]"))%string.
  now rewrite join_brackets.
Qed.

(** X19.  The path string of a path continues the path string of every
    path it extends: it is that string followed by the further segments
    between brackets, so the path of a child is the path of its parent
    followed by one bracketed segment. *)
Theorem jsonPathToString_extends (p q : JSONPath) :
  jsonPathToString (Some (p ++ q)%list)
  = (jsonPathToString (Some p) ++ bracketed q)%string.
Proof.
  destruct p as [|seg p].
  - destruct q as [|seg q]; [reflexivity|].
    cbn [app]. now rewrite jsonPathToString_bracketed by discriminate.
  - rewrite !jsonPathToString_bracketed by discriminate.
    now rewrite bracketed_app, string_append_assoc.
Qed.

(** X20.  The path string does not escape a key: a key that holds the
    text ["]["] between two double quotes prints like two keys, so two
    different paths have one path string. *)
Theorem jsonPathToString_does_not_escape (p : JSONPath) (s t : string) :
  [Key (s ++ JSON.dquote ++ "][" ++ JSON.dquote ++ t)] <> [Key s; Key t]
  /\ jsonPathToString (Some (p ++ [Key (s ++ JSON.dquote ++ "][" ++ JSON.dquote ++ t)])%list)
     = jsonPathToString (Some (p ++ [Key s; Key t])%list).
Proof.
  split; [discriminate|].
  assert (E : bracketed [Key (s ++ JSON.dquote ++ "][" ++ JSON.dquote ++ t)]
              = bracketed [Key s; Key t]).
  { cbn [bracketed rendered]. rewrite !string_append_assoc. reflexivity. }
  destruct p as [|seg p].
  - cbn [app]. rewrite !jsonPathToString_bracketed by discriminate. now rewrite E.
  - rewrite !jsonPathToString_bracketed by discriminate.
    now rewrite !bracketed_app, E.
Qed.

(** The loop of the content view passes over the rows it does not show. *)
Lemma add_rows_filter (rows : list NodeRow) :
  forall acc, fold_left add_row rows acc = fold_left add_row (filter shown_row rows) acc.
Proof.
  induction rows as [|row rows IH]; intros acc; [reflexivity|].
  cbn [fold_left filter]. rewrite add_row_shown.
  destruct (shown_row row) eqn:S.
  - cbn [fold_left]. rewrite add_row_shown, S. apply IH.
  - apply IH.
Qed.

(** X21.  The content view ignores the rows it does not show, those of
    type [array] or [object] and those without a key: unless the node is
    one row without a key, its content is that of its shown rows alone. *)
Theorem normalizeNodeData_ignores_hidden_rows (rows : list NodeRow) :
  (forall row, rows = [row] -> truthy (row_key row) = true) ->
  normalizeNodeData (Some rows) = normalizeNodeData (Some (filter shown_row rows)).
Proof.
  intros H. destruct rows as [|row others]; [reflexivity|].
  assert (C : (List.length (row :: others) =? 1)%nat && negb (truthy (row_key row)) = false).
  { destruct others as [|r rs]; [|reflexivity].
    rewrite (H row eq_refl). reflexivity. }
  unfold normalizeNodeData at 1. rewrite C, add_rows_filter.
  destruct (filter shown_row (row :: others)) as [|r rs] eqn:Fl.
  - reflexivity.
  - assert (S : shown_row r = true).
    { assert (I : In r (filter shown_row (row :: others))) by (rewrite Fl; now left).
      apply filter_In in I. exact (proj2 I). }
    unfold shown_row in S. apply andb_prop in S. destruct S as [_ T].
    unfold normalizeNodeData. rewrite T. cbn [negb]. rewrite andb_false_r.
    reflexivity.
Qed.

Lemma normalizeNodeData_ignores_hidden_rows_witness :
  normalizeNodeData
    (Some [sample_row (Some "a") (num 1) "number"; sample_row (Some "b") VNull "array";
           sample_row None (num 2) "number"])
  = normalizeNodeData
      (Some (filter shown_row
               [sample_row (Some "a") (num 1) "number"; sample_row (Some "b") VNull "array";
                sample_row None (num 2) "number"])).
Proof.
  apply (normalizeNodeData_ignores_hidden_rows
           [sample_row (Some "a") (num 1) "number"; sample_row (Some "b") VNull "array";
            sample_row None (num 2) "number"]).
  intros row E. discriminate E.
Defined.
